(** * Boundary resolution and elevation raster acquisition

    A shallow embedding of [scripts/download_data.py] (class
    [DataDownloader] and [main]) together with the tile-name decoder of
    [scripts/process_data.py], and the properties of the elevation
    pipeline that can be settled on it.

    Conventions of the embedding:
    - Python [int] is [Z]; geographic coordinates (Python [float]) are
      exact rationals [Q], and the literal [1e-9] is [1 # 1000000000];
    - the output directory is a finite map from file names to contents;
    - the network, the codecs (gzip, zip) and the raster libraries are
      fields of a [World] record: every statement is proved for all worlds;
    - a Python exception is the [Raised] outcome of the small state and
      exception monad [M]; [try]/[except] is [catch]. *)

From stdpp Require Import gmap strings list fin_maps sorting.
From Stdlib Require Import QArith Qround ZArith Lia Lqa Ascii.

Open Scope string_scope.
Open Scope list_scope.
Open Scope Z_scope.

(** ** Python strings *)

Module PyStr.

(** [s.endswith(suffix)] *)
Definition endswith (s suffix : string) : bool :=
  let n := String.length s in
  let k := String.length suffix in
  if (k <=? n)%nat then String.eqb (String.substring (n - k) k s) suffix
  else false.

(** [c.lower()] on the ASCII range. *)
Definition lower_char (c : ascii) : ascii :=
  let n := nat_of_ascii c in
  if ((65 <=? n) && (n <=? 90))%nat then ascii_of_nat (n + 32) else c.

(** [s.lower()] *)
Fixpoint lower (s : string) : string :=
  match s with
  | EmptyString => EmptyString
  | String c s' => String (lower_char c) (lower s')
  end.

(** [c.upper()] on the ASCII range. *)
Definition upper_char (c : ascii) : ascii :=
  let n := nat_of_ascii c in
  if ((97 <=? n) && (n <=? 122))%nat then ascii_of_nat (n - 32) else c.

(** [s.upper()] *)
Fixpoint upper (s : string) : string :=
  match s with
  | EmptyString => EmptyString
  | String c s' => String (upper_char c) (upper s')
  end.

(** [s[:n]] *)
Definition prefix (n : nat) (s : string) : string := String.substring 0 n s.

(** The character of a decimal digit [0..9]. *)
Definition digit_char (d : Z) : ascii := ascii_of_nat (48 + Z.to_nat d).

(** The value of a decimal digit character; [None] for any other
    character. *)
Definition digit_val (c : ascii) : option Z :=
  let n := nat_of_ascii c in
  if ((48 <=? n) && (n <=? 57))%nat then Some (Z.of_nat n - 48) else None.

Fixpoint decimal_go (fuel : nat) (n : Z) (acc : string) : string :=
  match fuel with
  | O => acc
  | S fuel' =>
      let acc' := String (digit_char (n mod 10)) acc in
      if n <? 10 then acc' else decimal_go fuel' (n / 10) acc'
  end.

(** [str(n)] for [0 <= n]: the decimal digits, most significant first.
    A number has no more decimal digits than binary ones, which bounds
    the recursion. *)
Definition decimal (n : Z) : string :=
  decimal_go (S (Z.to_nat (Z.log2 n))) n "".

Fixpoint zeros (k : nat) (s : string) : string :=
  match k with
  | O => s
  | S k' => String "0" (zeros k' s)
  end.

(** [format(n, "0<w>d")]: decimal, zero-padded on the left to the
    minimal width [w]; the sign of a negative number counts in the
    width and comes before the padding. *)
Definition format_0d (w : nat) (n : Z) : string :=
  if n <? 0 then
    let ds := decimal (- n) in
    String "-" (zeros (w - 1 - String.length ds) ds)
  else
    let ds := decimal n in
    zeros (w - String.length ds) ds.

Fixpoint int_digits (s : string) (acc : Z) : option Z :=
  match s with
  | EmptyString => Some acc
  | String c s' =>
      match digit_val c with
      | Some d => int_digits s' (10 * acc + d)
      | None => None
      end
  end.

(** [int(s)] on a string of decimal digits.  [None] is [ValueError]:
    the empty string and any string with a character that is not a
    digit (signs, blanks and underscores, which Python also reads, do
    not occur in the slices of a tile name and are left out). *)
Definition int (s : string) : option Z :=
  match s with
  | EmptyString => None
  | _ => int_digits s 0
  end.

(** [Path(p).stem] of a bare file name: the name without its last
    suffix; a name with no dot, or whose only dot is the first
    character, is its own stem. *)
Fixpoint drop_last_suffix (s : string) : option string :=
  match s with
  | EmptyString => None
  | String c s' =>
      match drop_last_suffix s' with
      | Some t => Some (String c t)
      | None => if Ascii.eqb c "." then Some EmptyString else None
      end
  end.

Definition stem (name : string) : string :=
  match name with
  | EmptyString => EmptyString
  | String c s' =>
      match drop_last_suffix s' with
      | Some t => String c t
      | None => name
      end
  end.

End PyStr.

(** ** Tile identifiers *)

(** [tile_code], the local function of [download_srtm_tiles]. *)
Definition tile_code (lat_sw lon_sw : Z) : string :=
  let ns := if 0 <=? lat_sw then "N" else "S" in
  let ew := if 0 <=? lon_sw then "E" else "W" in
  ns +:+ PyStr.format_0d 2 (Z.abs lat_sw) +:+ ew +:+ PyStr.format_0d 3 (Z.abs lon_sw).

(** The decoder of [create_geotiff_from_hgt] in [process_data.py]: the
    south-west corner read back from the stem of a tile file.  [None] is
    an exception ([IndexError] on a missing letter, [ValueError] from
    [int]). *)
Definition decode_tile_name (name : string) : option (Z * Z) :=
  match String.get 0 name, String.get 3 name with
  | Some c0, Some c3 =>
      let lat_sign := if Ascii.eqb c0 "S" then -1 else 1 in
      let lon_sign := if Ascii.eqb c3 "W" then -1 else 1 in
      match PyStr.int (String.substring 1 2 name),
            PyStr.int (String.substring 4 3 name) with
      | Some la, Some lo => Some (la * lat_sign, lo * lon_sign)
      | _, _ => None
      end
  | _, _ => None
  end.

(** ** Data model *)

Abbreviation bytes := (list Byte.byte).

(** [boundary.total_bounds], for bounds that are finite numbers.  A
    frame whose bounds are NaN or infinite (its geometries have no
    coordinates) is outside this development: on it [math.floor] raises
    where the plan begins, before any request or write. *)
Record BBox := mkBBox { minx : Q; miny : Q; maxx : Q; maxy : Q }.

(** A coordinate reference system, as far as the code looks at it:
    [crs.to_epsg()] is a code or [None]. *)
Inductive CRS :=
| EPSG (code : Z)
| OtherCRS (wkt : string).

Definition to_epsg (c : CRS) : option Z :=
  match c with
  | EPSG code => Some code
  | OtherCRS _ => None
  end.

(** A GeoDataFrame: its reference system ([None] when [gdf.crs is None]),
    its number of rows, the bounding box of its geometries and the
    geometries themselves, which only the raster libraries read. *)
Record GeoDataFrame := mkGdf {
  gdf_crs : option CRS;
  gdf_len : nat;
  total_bounds : BBox;
  gdf_geometry : bytes
}.

(** [gdf.empty]: the frame has no rows. *)
Definition gdf_empty (g : GeoDataFrame) : bool := (gdf_len g =? 0)%nat.

(** [gdf.set_crs(epsg)]: the coordinates are kept, the system declared. *)
Definition set_crs (g : GeoDataFrame) (epsg : Z) : GeoDataFrame :=
  {| gdf_crs := Some (EPSG epsg); gdf_len := gdf_len g;
     total_bounds := total_bounds g; gdf_geometry := gdf_geometry g |}.

(** The answer to a tile request: [r.status_code] and [r.content]. *)
Record Response := mkResponse { status_code : Z; content : bytes }.

(** The answer of the administrative service.  [wfs_feature_count] says
    how many features the feature collection of the body holds; the code
    never reads it. *)
Record WfsResponse := mkWfs {
  wfs_status_code : Z;
  wfs_text : bytes;
  wfs_feature_count : nat
}.

(** What [rasterio.warp] leaves behind in [_reproject_dem]. *)
Inductive Warp :=
| WarpNoTransform                 (* raised before the output is opened *)
| WarpBroken (partial : bytes)    (* raised while the bands are written *)
| WarpDone (raster : bytes).

(** Everything outside the program.  [None] is a raised exception. *)
Record World := mkWorld {
  (* [requests.get(url, timeout=...)] for a tile; the first argument
     counts the external calls made before this one *)
  http_get : nat -> string -> option Response;
  (* [gzip.open(path, 'rb').read()] on a file of this content *)
  gunzip : bytes -> option bytes;
  (* [zipfile.ZipFile(path)]: the members in [namelist()] order, each
     with what reading it gives *)
  unzip : bytes -> option (list (string * option bytes));
  (* [hasattr(ox, 'geocode_to_gdf')] and [ox.geocode_to_gdf(query)] *)
  has_geocode_to_gdf : bool;
  geocode_to_gdf : string -> option GeoDataFrame;
  (* [gdf.to_crs(epsg)] *)
  to_crs : GeoDataFrame -> Z -> option GeoDataFrame;
  (* [gdf.to_file(path, driver='GeoJSON')]: the text written *)
  to_geojson : GeoDataFrame -> option bytes;
  (* the geometries of a frame in the system of a raster *)
  raster_align : bytes -> GeoDataFrame -> option GeoDataFrame;
  (* [rasterio.mask.mask(src, geoms, crop=True)], written as a raster *)
  raster_mask : bytes -> GeoDataFrame -> option bytes;
  (* [rasterio.merge.merge(srcs)], written as a raster *)
  raster_merge : list bytes -> option bytes;
  (* [calculate_default_transform] and [reproject], bilinear *)
  raster_warp : bytes -> Z -> Warp;
  (* the catalog search: the items found for a bounding box *)
  stac_search : BBox -> option (list bytes);
  (* signing an item and opening and masking its data asset *)
  stac_clip : bytes -> GeoDataFrame -> option bytes;
  (* [requests.get(wfs_url, params)] with the CQL filter value *)
  wfs_get : string -> string -> option WfsResponse;
  (* [requests.get(dpa_url)] *)
  dpa_get : string -> option Response;
  (* unpacking the official archive, choosing the layer and filtering
     it by the normalised name: [Some None] when nothing is found *)
  dpa_extract : bytes -> string -> option (option bytes);
  (* the stages outside the core, by what they can do to the directory *)
  osm_data : string -> gmap string bytes -> bool * option GeoDataFrame * gmap string bytes;
  other_stage : string -> gmap string bytes -> gmap string bytes;
  (* the census block of [main], for a region and a directory: the
     directory it leaves, and whether it raised.  The block is in no
     [try], and [filter_censo_manzanas_by_comuna] raises when the
     archive was not extracted *)
  census : string -> gmap string bytes -> gmap string bytes * bool
}.

(** The requests of the core that are recorded, in the order they are
    made: the HTTP requests for tiles, for the administrative service
    and for the official archive, and the searches of the catalog.
    Geocoding, opening the catalog, signing an item and reading its
    asset are answered by the world without a record. *)
Inductive Call :=
| TileGet (code url : string)
| StacSearch (bbox : BBox)
| WfsGet (url filter : string)
| DpaGet (url : string).

(** The two tile loops of [download_srtm_tiles]. *)
Inductive Pass := First | Second.

(** The log records that are written whatever [debug] is. *)
Inductive LogMsg :=
| WarnNoBoundary
| InfoBBox (b : BBox)
| InfoCandidates (codes : list string)
| WarnTileSize (p : Pass) (code : string) (size : Z)
| InfoTileDownloaded (p : Pass) (code url : string)
| WarnTileFailed (p : Pass) (code : string)
| WarnRetryFullRange
| InfoSecondCodes (codes : list string)
| WarnNoTilesAfterRetry
| InfoForcing (code : string)
| InfoForcedSize (code : string) (size : Z)
| WarnForcedStatus (status : Z)
| WarnNoCopernicus
| InfoCopernicusSaved
| ErrorCopernicus
| InfoSingleTileSaved
| InfoMosaicSaved
| InfoReprojected (name : string)
| ErrorSrtm
| InfoWfsStart
| InfoWfsSaved
| WarnWfsStatus
| ErrorWfs
| InfoDpaStart
| WarnDpaStatus (status : Z)
| WarnDpaNotFound
| InfoDpaSaved
| ErrorDpa
| WarnNoFallbackGeometry
| InfoFallbackSaved
| ErrorFallback
| WarnOsmIncomplete
| WarnWfsNotDownloaded
| InfoSkipWfs
| InfoUsingOsmFallback
| InfoSrtmOk
| WarnSrtmFailed
| ErrorSrtmUnexpected.

(** The downloader while it runs: [self.comuna], [self.boundary_gdf],
    the files of [self.output_dir], and with them the calls made, the
    log, and [hgt_files], the local list of [download_srtm_tiles]. *)
Record St := mkSt {
  comuna : string;
  boundary_gdf : option GeoDataFrame;
  files : gmap string bytes;
  calls : list Call;
  log : list LogMsg;
  hgt_files : list string
}.

(** [DataDownloader(comuna_name, output_dir)]: the downloader [main]
    makes, over the directory as it finds it.  No call has been made
    and nothing is logged yet. *)
Definition DataDownloader (comuna_name : string) (output_dir : gmap string bytes) : St :=
  {| comuna := comuna_name; boundary_gdf := None; files := output_dir;
     calls := []; log := []; hgt_files := [] |}.

(** ** Computations that change the state and may raise *)

Inductive Outcome (A : Type) :=
| Ok (a : A)
| Raised.
Arguments Ok {A} a.
Arguments Raised {A}.

Definition M (A : Type) : Type := St -> St * Outcome A.

Definition ret {A} (a : A) : M A := fun st => (st, Ok a).

Definition raise {A} : M A := fun st => (st, Raised).

Definition bind {A B} (m : M A) (k : A -> M B) : M B :=
  fun st =>
    match m st with
    | (st', Ok a) => k a st'
    | (st', Raised) => (st', Raised)
    end.

(** [try: m  except Exception: h] *)
Definition catch {A} (m : M A) (h : M A) : M A :=
  fun st =>
    match m st with
    | (st', Ok a) => (st', Ok a)
    | (st', Raised) => h st'
    end.

Declare Scope py_scope.
Delimit Scope py_scope with py.
Notation "x <~ m ;; k" := (bind m (fun x => k))
  (at level 100, m at next level, right associativity) : py_scope.
Notation "m ;; k" := (bind m (fun _ => k))
  (at level 100, right associativity) : py_scope.
Open Scope py_scope.

(** A value of the world that is there or raises. *)
Definition lift {A} (o : option A) : M A :=
  match o with
  | Some a => ret a
  | None => raise
  end.

Definition get_st : M St := fun st => (st, Ok st).

Definition set_files (f : gmap string bytes -> gmap string bytes) : M unit :=
  fun st =>
    ({| comuna := comuna st; boundary_gdf := boundary_gdf st;
        files := f (files st); calls := calls st; log := log st;
        hgt_files := hgt_files st |}, Ok tt).

Definition set_boundary_gdf (g : option GeoDataFrame) : M unit :=
  fun st =>
    ({| comuna := comuna st; boundary_gdf := g;
        files := files st; calls := calls st; log := log st;
        hgt_files := hgt_files st |}, Ok tt).

Definition set_hgt_files (l : list string) : M unit :=
  fun st =>
    ({| comuna := comuna st; boundary_gdf := boundary_gdf st;
        files := files st; calls := calls st; log := log st;
        hgt_files := l |}, Ok tt).

(** [logger.info], [logger.warning], [logger.error] *)
Definition logger (m : LogMsg) : M unit :=
  fun st =>
    ({| comuna := comuna st; boundary_gdf := boundary_gdf st;
        files := files st; calls := calls st; log := log st ++ [m];
        hgt_files := hgt_files st |}, Ok tt).

(** An external call: it is recorded, and answered by the world from the
    number of calls made before it. *)
Definition record_call (c : Call) (st : St) : St :=
  {| comuna := comuna st; boundary_gdf := boundary_gdf st;
     files := files st; calls := calls st ++ [c]; log := log st;
     hgt_files := hgt_files st |}.

Definition call {A} (c : Call) (answer : nat -> option A) : M A :=
  fun st => lift (answer (length (calls st))) (record_call c st).

(** [path.write_bytes(data)] *)
Definition write_bytes (path : string) (data : bytes) : M unit :=
  set_files (fun fs => <[path := data]> fs).

(** [path.unlink(missing_ok=True)] *)
Definition unlink (path : string) : M unit :=
  set_files (fun fs => delete path fs).

(** [path.exists()] *)
Definition exists_ (path : string) : M bool :=
  fun st => (st, Ok (bool_decide (is_Some (files st !! path)))).

(** Reading a file; a missing file raises. *)
Definition read_bytes (path : string) : M bytes :=
  fun st => lift (files st !! path) st.

(** [path.stat().st_size] *)
Definition st_size (path : string) : M Z :=
  data <~ read_bytes path ;; ret (Z.of_nat (length data)).

(** [hgt_files.append(path)] *)
Definition hgt_files_append (path : string) : M unit :=
  fun st => set_hgt_files (hgt_files st ++ [path]) st.

(** ** The tile plan *)

(** The literal [1e-9]. *)
Definition eps : Q := 1 # 1000000000.

(** [range(a, b)] *)
Definition py_range (a b : Z) : list Z := seqZ a (b - a).

(** [sorted(X)] on a set of strings: by code point, character by
    character. *)
Definition sorted (X : gset string) : list string :=
  merge_sort (fun a b => Is_true (String.leb a b)) (elements X).

(** [{tile_code(la, lo) for la in lats for lo in lons}] *)
Definition code_set (lats lons : list Z) : gset string :=
  list_to_set (la ← lats; lo ← lons; [tile_code la lo]).

(** The candidate south-west corners of the first plan. *)
Definition lat_sw (b : BBox) : gset Z :=
  {[ Qfloor (miny b); Qfloor (maxy b - eps) ]}.

Definition lon_sw (b : BBox) : gset Z :=
  {[ Qfloor (minx b); Qfloor (maxx b - eps) ]}.

(** [codes]: the plan of the first pass. *)
Definition codes (b : BBox) : list string :=
  sorted (code_set (elements (lat_sw b)) (elements (lon_sw b))).

(** The full range of the second pass. *)
Definition full_lons (b : BBox) : list Z :=
  py_range (Qfloor (minx b)) (Qceiling (maxx b) + 1).

Definition full_lats (b : BBox) : list Z :=
  py_range (Qfloor (miny b)) (Qceiling (maxy b) + 1).

Definition full_codes (b : BBox) : list string :=
  sorted (code_set (full_lats b) (full_lons b)).

(** ** Fetching one tile *)

(** [urls], the mirrors of a tile in the order they are tried. *)
Definition mirror_urls (code : string) : list string :=
  [ "https://srtm.kurviger.de/SRTM3/" +:+ code +:+ ".hgt.gz";
    "https://dds.cr.usgs.gov/srtm/version2_1/SRTM3/South_America/" +:+ code +:+ ".hgt.zip";
    "https://srtm.kurviger.de/SRTM3/" +:+ code +:+ ".hgt";
    "https://srtmtiles.s3.amazonaws.com/" +:+ code +:+ ".hgt.gz";
    "https://s3.amazonaws.com/elevation-tiles-prod/skadi/" +:+ PyStr.prefix 3 code
      +:+ "/" +:+ code +:+ ".hgt.gz" ].

(** [base], the grid file of a tile in the output directory. *)
Definition hgt_path (code : string) : string := code +:+ ".hgt".

(** [gzip.open(path, 'rb').read()] *)
Definition gzip_read (w : World) (path : string) : M bytes :=
  data <~ read_bytes path ;; lift (gunzip w data).

(** The loop over [zf.namelist()]: the first member whose lowered name
    ends in [.hgt] is written to [base]. *)
Fixpoint extract_hgt (base : string) (members : list (string * option bytes)) : M unit :=
  match members with
  | [] => ret tt
  | (member, data) :: rest =>
      if PyStr.endswith (PyStr.lower member) ".hgt" then
        raw <~ lift data ;; write_bytes base raw
      else extract_hgt base rest
  end.

(** What a successful answer leaves on disk.  The two passes differ in
    the last branch only: the second one writes a raw [.hgt] answer, the
    first one has no such branch. *)
Definition materialize (w : World) (p : Pass) (code url : string) (r : Response) : M unit :=
  let base := hgt_path code in
  if PyStr.endswith url ".gz" then
    let gz_path := code +:+ ".hgt.gz" in
    write_bytes gz_path (content r) ;;
    raw <~ gzip_read w gz_path ;;
    write_bytes base raw ;;
    unlink gz_path
  else if PyStr.endswith url ".zip" then
    let ztmp := code +:+ ".zip" in
    write_bytes ztmp (content r) ;;
    members <~ (data <~ read_bytes ztmp ;; lift (unzip w data)) ;;
    extract_hgt base members ;;
    unlink ztmp
  else
    match p with
    | First => ret tt
    | Second =>
        if PyStr.endswith url ".hgt" then write_bytes base (content r)
        else ret tt
    end.

(** The end of the loop body: a tile whose file is there is taken,
    whatever its size; [true] is [break]. *)
Definition accept (p : Pass) (code url : string) : M bool :=
  let base := hgt_path code in
  there <~ exists_ base ;;
  if there : bool then
    size <~ st_size base ;;
    (if size <? 2000000 then logger (WarnTileSize p code size) else ret tt) ;;
    hgt_files_append base ;;
    logger (InfoTileDownloaded p code url) ;;
    ret true
  else ret false.

(** One turn of [for url in urls], with its [try]. *)
Definition try_url (w : World) (p : Pass) (code url : string) : M bool :=
  catch
    (r <~ call (TileGet code url) (fun k => http_get w k url) ;;
     if negb (status_code r =? 200) then ret false
     else materialize w p code url r ;; accept p code url)
    (ret false).

(** [for url in urls], up to the [break]; the result is [downloaded]. *)
Fixpoint try_urls (w : World) (p : Pass) (code : string) (urls : list string) : M bool :=
  match urls with
  | [] => ret false
  | url :: rest =>
      downloaded <~ try_url w p code url ;;
      if downloaded : bool then ret true else try_urls w p code rest
  end.

(** One turn of [for code in codes]. *)
Definition fetch_tile (w : World) (p : Pass) (code : string) : M unit :=
  let base := hgt_path code in
  there <~ exists_ base ;;
  if there : bool then hgt_files_append base
  else
    downloaded <~ try_urls w p code (mirror_urls code) ;;
    if downloaded : bool then ret tt else logger (WarnTileFailed p code).

Fixpoint fetch_tiles (w : World) (p : Pass) (cs : list string) : M unit :=
  match cs with
  | [] => ret tt
  | code :: rest => fetch_tile w p code ;; fetch_tiles w p rest
  end.

(** The second attempt, over the full range, when the first one left
    [hgt_files] empty. *)
Definition retry_full_range (w : World) (b : BBox) : M unit :=
  st <~ get_st ;;
  match hgt_files st with
  | [] =>
      logger WarnRetryFullRange ;;
      logger (InfoSecondCodes (full_codes b)) ;;
      fetch_tiles w Second (full_codes b)
  | _ :: _ => ret tt
  end.

(** [code_force], the tile of the south-west corner of the box. *)
Definition code_force (b : BBox) : string :=
  let expected_lat := Qfloor (miny b) in
  let expected_lon := Qfloor (minx b) in
  tile_code expected_lat expected_lon.

Definition mapzen_url (b : BBox) : string :=
  "https://s3.amazonaws.com/elevation-tiles-prod/skadi/" +:+ PyStr.prefix 3 (code_force b)
    +:+ "/" +:+ code_force b +:+ ".hgt.gz".

(** The last attempt: the tile of the south-west corner, from one
    mirror.  It is kept only above a size. *)
Definition forced_download (w : World) (b : BBox) : M unit :=
  logger (InfoForcing (code_force b)) ;;
  catch
    (r <~ call (TileGet (code_force b) (mapzen_url b)) (fun k => http_get w k (mapzen_url b)) ;;
     if status_code r =? 200 then
       let gz_path := code_force b +:+ ".hgt.gz" in
       write_bytes gz_path (content r) ;;
       raw_bytes <~ gzip_read w gz_path ;;
       let base_force := hgt_path (code_force b) in
       write_bytes base_force raw_bytes ;;
       size <~ st_size base_force ;;
       logger (InfoForcedSize (code_force b) size) ;;
       if size >? 1000000 then hgt_files_append base_force else ret tt
     else logger (WarnForcedStatus (status_code r)))
    (ret tt).

(** ** Reprojection, fallback and mosaic *)

(** [_reproject_dem(dem_path, target_epsg)] *)
Definition _reproject_dem (w : World) (dem_path : string) (target_epsg : Z) : M unit :=
  let out_path := PyStr.stem dem_path +:+ "_" +:+ PyStr.format_0d 0 target_epsg +:+ ".tif" in
  src <~ read_bytes dem_path ;;
  match raster_warp w src target_epsg with
  | WarpNoTransform => raise
  | WarpBroken partial => write_bytes out_path partial ;; raise
  | WarpDone raster =>
      write_bytes out_path raster ;;
      logger (InfoReprojected out_path)
  end.

(** The buffered box of the catalog search. *)
Definition bbox_buf (b : BBox) : BBox :=
  let buffer := (5 # 100)%Q in
  {| minx := minx b - buffer; miny := miny b - buffer;
     maxx := maxx b + buffer; maxy := maxy b + buffer |}.

(** The Copernicus branch of [download_srtm_tiles]; its result is the
    result of the method. *)
Definition copernicus_fallback (w : World) (boundary : GeoDataFrame) : M bool :=
  catch
    (items <~ call (StacSearch (bbox_buf (total_bounds boundary)))
                   (fun _ => stac_search w (bbox_buf (total_bounds boundary))) ;;
     match items with
     | [] => logger WarnNoCopernicus ;; ret false
     | item :: _ =>
         clipped <~ lift (stac_clip w item boundary) ;;
         let out_cop := "copernicus_dem.tif" in
         write_bytes out_cop clipped ;;
         logger InfoCopernicusSaved ;;
         catch (_reproject_dem w out_cop 32719) (ret tt) ;;
         ret true
     end)
    (logger ErrorCopernicus ;; ret false).

Fixpoint read_all (paths : list string) : M (list bytes) :=
  match paths with
  | [] => ret []
  | p :: rest => d <~ read_bytes p ;; ds <~ read_all rest ;; ret (d :: ds)
  end.

(** The mosaic, the clip and the reprojection of the tiles fetched. *)
Definition mosaic_and_clip (w : World) (boundary : GeoDataFrame) : M bool :=
  catch
    (st <~ get_st ;;
     let out_path := "srtm_dem.tif" in
     match hgt_files st with
     | [tile_path] =>
         src <~ read_bytes tile_path ;;
         geom_gdf <~ lift (raster_align w src boundary) ;;
         clipped <~ lift (raster_mask w src geom_gdf) ;;
         write_bytes out_path clipped ;;
         logger InfoSingleTileSaved
     | paths =>
         srcs <~ read_all paths ;;
         mosaic <~ lift (raster_merge w srcs) ;;
         geom_gdf <~ lift (raster_align w (hd [] srcs) boundary) ;;
         let tmp_path := "srtm_mosaic_tmp.tif" in
         write_bytes tmp_path mosaic ;;
         clipped <~ lift (raster_mask w mosaic geom_gdf) ;;
         write_bytes out_path clipped ;;
         unlink tmp_path ;;
         logger InfoMosaicSaved
     end ;;
     catch (_reproject_dem w out_path 32719) (ret tt) ;;
     ret true)
    (logger ErrorSrtm ;; ret false).

(** ** The boundary for the elevation stage *)

(** The normalisation to EPSG:4326 both branches of
    [_load_boundary_for_dem] make. *)
Definition as_4326 (w : World) (gdf : GeoDataFrame) : option GeoDataFrame :=
  match gdf_crs gdf with
  | None => Some (set_crs gdf 4326)
  | Some c =>
      match to_epsg c with
      | Some 4326 => Some gdf
      | _ => to_crs w gdf 4326
      end
  end.

(** [_load_boundary_for_dem]: the geometry kept in memory, else a direct
    geocoding of the region name, else [None]. *)
Definition _load_boundary_for_dem (w : World) (st : St) : option GeoDataFrame :=
  match (match boundary_gdf st with
         | Some gdf => as_4326 w gdf
         | None => None
         end) with
  | Some gdf => Some gdf
  | None =>
      if has_geocode_to_gdf w then
        match geocode_to_gdf w (comuna st +:+ ", Chile") with
        | Some gdf => as_4326 w gdf
        | None => None
        end
      else None
  end.

(** ** [download_srtm_tiles] *)

(** The three attempts at the tiles of a box. *)
Definition acquire_tiles (w : World) (b : BBox) : M unit :=
  logger (InfoBBox b) ;;
  logger (InfoCandidates (codes b)) ;;
  set_hgt_files [] ;;
  fetch_tiles w First (codes b) ;;
  retry_full_range w b ;;
  st <~ get_st ;;
  match hgt_files st with
  | [] => logger WarnNoTilesAfterRetry ;; forced_download w b
  | _ :: _ => ret tt
  end.

Definition download_srtm_tiles (w : World) : M bool :=
  st0 <~ get_st ;;
  match _load_boundary_for_dem w st0 with
  | None => logger WarnNoBoundary ;; ret false
  | Some boundary =>
      if gdf_empty boundary then logger WarnNoBoundary ;; ret false
      else
        acquire_tiles w (total_bounds boundary) ;;
        st <~ get_st ;;
        match hgt_files st with
        | [] => copernicus_fallback w boundary
        | _ :: _ => mosaic_and_clip w boundary
        end
  end.

(** ** The boundary sources *)

(** [wfs_url_override or "https://www.ide.cl/geoserver/wfs"] *)
Definition wfs_endpoint (wfs_url_override : option string) : string :=
  match wfs_url_override with
  | Some u => if String.eqb u "" then "https://www.ide.cl/geoserver/wfs" else u
  | None => "https://www.ide.cl/geoserver/wfs"
  end.

(** The [CQL_FILTER] parameter of the request. *)
Definition cql_filter (name : string) : string :=
  "comuna='" +:+ PyStr.upper name +:+ "'".

(** [download_boundaries]: the administrative service. *)
Definition download_boundaries (w : World) (wfs_url_override : option string) : M bool :=
  catch
    (logger InfoWfsStart ;;
     let wfs_url := wfs_endpoint wfs_url_override in
     st <~ get_st ;;
     response <~ call (WfsGet wfs_url (cql_filter (comuna st)))
                      (fun _ => wfs_get w wfs_url (cql_filter (comuna st))) ;;
     if wfs_status_code response =? 200 then
       write_bytes "comuna_boundaries.geojson" (wfs_text response) ;;
       logger InfoWfsSaved ;;
       ret true
     else
       logger WarnWfsStatus ;;
       ret false)
    (logger ErrorWfs ;; ret false).

(** [download_boundaries_dpa_zip]: the official archive. *)
Definition download_boundaries_dpa_zip (w : World) (dpa_url comuna_name : string) : M bool :=
  logger InfoDpaStart ;;
  catch
    (r <~ call (DpaGet dpa_url) (fun _ => dpa_get w dpa_url) ;;
     if negb (status_code r =? 200) then
       logger (WarnDpaStatus (status_code r)) ;; ret false
     else
       filtered <~ lift (dpa_extract w (content r) comuna_name) ;;
       match filtered with
       | None => logger WarnDpaNotFound ;; ret false
       | Some geojson =>
           write_bytes "comuna_boundaries_oficial.geojson" geojson ;;
           logger InfoDpaSaved ;;
           ret true
       end)
    (logger ErrorDpa ;; ret false).

(** [save_osm_boundary_fallback]: the geometry geocoded by the OSM stage,
    when there is one. *)
Definition save_osm_boundary_fallback (w : World) : M bool :=
  st <~ get_st ;;
  match boundary_gdf st with
  | None => logger WarnNoFallbackGeometry ;; ret false
  | Some gdf =>
      if (gdf_len gdf =? 0)%nat then logger WarnNoFallbackGeometry ;; ret false
      else
        catch
          (data <~ lift (to_geojson w gdf) ;;
           write_bytes "osm_boundary.geojson" data ;;
           logger InfoFallbackSaved ;;
           ret true)
          (logger ErrorFallback ;; ret false)
  end.

(** ** [main] *)

(** The options of the command line that the stages below read. *)
Record Options := mkOptions {
  sources_list : list string;
  skip_wfs : bool;
  wfs_url : option string;
  dpa_url : string;
  opt_comuna : string
}.

(** What the boundary block of [main] found: its locals [ok_wfs] and
    [ok_dpa], and the result of the fallback, which [main] drops
    ([None] when the fallback was not called). *)
Record BoundaryOutcome := mkOutcome {
  ok_wfs : bool;
  ok_dpa : bool;
  ok_fallback : option bool
}.

(** The block [if 'ide' in sources_list] of [main]. *)
Definition resolve_boundaries (w : World) (o : Options) : M BoundaryOutcome :=
  okw <~ (if skip_wfs o then logger InfoSkipWfs ;; ret false
          else
            okw <~ download_boundaries w (wfs_url o) ;;
            (if okw : bool then ret tt else logger WarnWfsNotDownloaded) ;;
            ret okw) ;;
  if skip_wfs o || negb okw then
    okd <~ download_boundaries_dpa_zip w (dpa_url o) (opt_comuna o) ;;
    if okd : bool then ret (mkOutcome okw okd None)
    else
      logger InfoUsingOsmFallback ;;
      okf <~ save_osm_boundary_fallback w ;;
      ret (mkOutcome okw okd (Some okf))
  else ret (mkOutcome okw false None).


(** The OSM stage, by what it leaves in the downloader. *)
Definition download_osm_data (w : World) : M bool :=
  st <~ get_st ;;
  match osm_data w (comuna st) (files st) with
  | (ok, geocoded, fs) =>
      set_files (fun _ => fs) ;;
      match geocoded with
      | Some gdf => set_boundary_gdf (Some gdf)
      | None => ret tt
      end ;;
      ret ok
  end.

(** A stage outside the core that cannot stop [main]: it catches its
    own exceptions ([download_minvu_uso_suelo]), [main] calls it in a
    [try] ([download_sentinel2]), or it only lists the directory and
    writes one file ([create_metadata]), and a write succeeds here as
    everywhere in this development. *)
Definition run_other_stage (w : World) (name : string) : M unit :=
  set_files (other_stage w name).

(** The block [if 'censo' in sources_list] of [main]: what it raises is
    not caught.  Its own messages and requests are not among those the
    log and the calls of the state record. *)
Definition census_stage (w : World) : M unit :=
  st <~ get_st ;;
  match census w (comuna st) (files st) with
  | (fs, raised) =>
      set_files (fun _ => fs) ;;
      if raised : bool then raise else ret tt
  end.

Definition when (c : bool) (m : M unit) : M unit := if c then m else ret tt.

Definition requested (name : string) (o : Options) : bool :=
  bool_decide (name ∈ sources_list o).

(** The block [if 'srtm' in sources_list] of [main]. *)
Definition srtm_stage (w : World) : M unit :=
  catch
    (ok_srtm <~ download_srtm_tiles w ;;
     if ok_srtm : bool then logger InfoSrtmOk else logger WarnSrtmFailed)
    (logger ErrorSrtmUnexpected).

(** [main], from the first stage on; the result keeps what the boundary
    block found, when it ran. *)
Definition main (w : World) (o : Options) : M (option BoundaryOutcome) :=
  when (requested "osm" o)
    (ok_osm <~ download_osm_data w ;;
     if ok_osm : bool then ret tt else logger WarnOsmIncomplete) ;;
  found <~ (if requested "ide" o
            then r <~ resolve_boundaries w o ;; ret (Some r)
            else ret None) ;;
  when (requested "censo" o) (census_stage w) ;;
  when (requested "srtm" o) (srtm_stage w) ;;
  when (requested "copernicus" o) (run_other_stage w "copernicus") ;;
  when (requested "ide_minvu" o) (run_other_stage w "ide_minvu") ;;
  run_other_stage w "metadata" ;;
  ret found.

(** The calls of the elevation stages: tile requests and catalog
    searches. *)
Definition is_elevation_call (c : Call) : bool :=
  match c with
  | TileGet _ _ | StacSearch _ => true
  | _ => false
  end.

Definition elevation_calls (st : St) : list Call :=
  filter (fun c => Is_true (is_elevation_call c)) (calls st).

(** ** Shapes and boxes the statements speak of *)

(** A tile token: a hemisphere letter, two digits, a hemisphere letter,
    three digits. *)
Definition is_digit (c : ascii) : bool :=
  match PyStr.digit_val c with
  | Some _ => true
  | None => false
  end.

Definition token_shape (s : string) : bool :=
  match s with
  | String ns (String a1 (String a2 (String ew (String b1 (String b2 (String b3 EmptyString)))))) =>
      (Ascii.eqb ns "N" || Ascii.eqb ns "S") && is_digit a1 && is_digit a2 &&
      (Ascii.eqb ew "E" || Ascii.eqb ew "W") && is_digit b1 && is_digit b2 && is_digit b3
  | _ => false
  end.

(** The box lies in the one-degree cell whose south-west corner is
    [(la, lo)]. *)
Definition inside_cell (b : BBox) (la lo : Z) : Prop :=
  (inject_Z la <= miny b /\ miny b <= maxy b /\ maxy b <= inject_Z (la + 1) /\
   inject_Z lo <= minx b /\ minx b <= maxx b /\ maxx b <= inject_Z (lo + 1))%Q.

(** A point of the box. *)
Definition in_box (b : BBox) (x y : Q) : Prop :=
  (minx b <= x /\ x <= maxx b /\ miny b <= y /\ y <= maxy b)%Q.

(** A box a tenth of a nanodegree wide in latitude, strictly inside the
    cell of [(0, 0)]. *)
Definition sliver : BBox :=
  {| minx := 1 # 4; miny := 1 # 10000000000;
     maxx := 1 # 2; maxy := 5 # 10000000000 |}.

(** A box around [(-34.45, -71.45)]. *)
Definition box_s35w072 : BBox :=
  {| minx := - (715 # 10); miny := - (345 # 10);
     maxx := - (714 # 10); maxy := - (344 # 10) |}.

(** ** What a computation may touch *)

(** [frame W C H st st']: from [st] to [st'] only files named by [W]
    changed, only calls in [C] were made, only paths in [H] were added
    to [hgt_files], and the log only grew. *)
Record frame (W : string -> Prop) (C : Call -> Prop) (H : string -> Prop)
    (st st' : St) : Prop := mkFrame {
  frame_comuna : comuna st' = comuna st;
  frame_boundary : boundary_gdf st' = boundary_gdf st;
  frame_files : forall p, ~ W p -> files st' !! p = files st !! p;
  frame_calls : exists cs, calls st' = calls st ++ cs /\ Forall C cs;
  frame_log : exists ls, log st' = log st ++ ls;
  frame_hgt : exists hs, hgt_files st' = hgt_files st ++ hs /\ Forall H hs
}.

Definition respects (W : string -> Prop) (C : Call -> Prop) (H : string -> Prop)
    {A} (m : M A) : Prop :=
  forall st, frame W C H st (m st).1.

(** A computation that never raises. *)
Definition total {A} (m : M A) : Prop :=
  forall st, exists a, (m st).2 = Ok a.

(** The files of a tile, and the calls made for it. *)
Definition tile_paths (code : string) (p : string) : Prop :=
  p = hgt_path code \/ p = code +:+ ".hgt.gz" \/ p = code +:+ ".zip".

Definition tile_call (code : string) (c : Call) : Prop :=
  exists url, c = TileGet code url.

Definition nothing {A} (a : A) : Prop := False.

Definition anything {A} (a : A) : Prop := True.

(** [preserves I m]: [m] keeps the invariant [I] of the state. *)
Definition preserves (I : St -> Prop) {A} (m : M A) : Prop :=
  forall st, I st -> I (m st).1.

(** The file [q] holds [v] (or is missing, for [None]). *)
Definition file_kept (q : string) (v : option bytes) (st : St) : Prop :=
  files st !! q = v.

(** The invariant of a tile whose file was there from the start: the
    file still holds [d], and the calls made since [c0] have none for
    this tile. *)
Definition untouched (code : string) (d : bytes) (c0 : list Call) (st : St) : Prop :=
  files st !! hgt_path code = Some d /\
  exists added, calls st = c0 ++ added /\ forall url, TileGet code url ∉ added.

(** The state in which the first loop of [acquire_tiles] starts. *)
Definition at_first_pass (b : BBox) (st : St) : St :=
  {| comuna := comuna st; boundary_gdf := boundary_gdf st; files := files st;
     calls := calls st;
     log := (log st ++ [InfoBBox b]) ++ [InfoCandidates (codes b)];
     hgt_files := [] |}.

(** A tile the fetcher has dealt with: its file is on the list, or each
    of its mirrors was asked. *)
Definition attempted (code : string) (st : St) : Prop :=
  hgt_path code ∈ hgt_files st \/
  forall url, url ∈ mirror_urls code -> TileGet code url ∈ calls st.

(** ** Worlds and states for the examples *)

(** A world given by its network, its gzip codec, its geocoder, its
    catalog and its administrative service; everything else fails, and
    the stages outside the core leave the directory alone and do not
    raise. *)
Definition world_of
    (net : nat -> string -> option Response)
    (gz : bytes -> option bytes)
    (geo : string -> option GeoDataFrame)
    (stac : BBox -> option (list bytes))
    (wfs : string -> string -> option WfsResponse) : World :=
  {| http_get := net; gunzip := gz; unzip := fun _ => None;
     has_geocode_to_gdf := true; geocode_to_gdf := geo;
     to_crs := fun _ _ => None; to_geojson := fun _ => None;
     raster_align := fun _ _ => None; raster_mask := fun _ _ => None;
     raster_merge := fun _ => None; raster_warp := fun _ _ => WarpNoTransform;
     stac_search := stac; stac_clip := fun _ _ => None;
     wfs_get := wfs; dpa_get := fun _ => None; dpa_extract := fun _ _ => None;
     osm_data := fun _ fs => (false, None, fs); other_stage := fun _ fs => fs;
     census := fun _ fs => (fs, false) |}.

(** A downloader that has just been made over an empty directory. *)
Definition fresh (name : string) : St := DataDownloader name ∅.

(** A downloader with one tile on disk. *)
Definition with_tile (name code : string) (data : bytes) : St :=
  DataDownloader name {[ hgt_path code := data ]}.

(** A region in EPSG:4326 with one polygon, inside the cell of
    [(-35, -72)]. *)
Definition region : GeoDataFrame :=
  {| gdf_crs := Some (EPSG 4326); gdf_len := 1;
     total_bounds := box_s35w072; gdf_geometry := [] |}.

Definition two_bytes : bytes := [Byte.x01; Byte.x02].

(** Mirrors that answer 200 to the raw [.hgt] address only. *)
Definition raw_only_net (k : nat) (url : string) : option Response :=
  if PyStr.endswith url ".hgt" then Some (mkResponse 200 two_bytes)
  else Some (mkResponse 404 []).

Definition raw_only : World :=
  world_of raw_only_net (fun _ => None) (fun _ => Some region)
    (fun _ => None) (fun _ _ => None).

(** Mirrors that answer every [.gz] address with an archive of a
    two-byte grid. *)
Definition short_gz_net (k : nat) (url : string) : option Response :=
  if PyStr.endswith url ".gz" then Some (mkResponse 200 [Byte.x1f; Byte.x8b])
  else Some (mkResponse 404 []).

Definition short_gz : World :=
  world_of short_gz_net (fun _ => Some two_bytes) (fun _ => Some region)
    (fun _ => None) (fun _ _ => None).

(** No mirror answers, and the catalog has no item. *)
Definition empty_catalog : World :=
  world_of (fun _ _ => None) (fun _ => None) (fun _ => Some region)
    (fun _ => Some []) (fun _ _ => None).

(** The administrative service answers 200 with a feature collection
    that has no feature. *)
Definition no_feature : World :=
  world_of (fun _ _ => None) (fun _ => None) (fun _ => None)
    (fun _ => None) (fun _ _ => Some (mkWfs 200 two_bytes 0)).

(** The boundary and the elevation stages, with the default services. *)
Definition ide_srtm : Options :=
  {| sources_list := ["ide"; "srtm"]; skip_wfs := false; wfs_url := None;
     dpa_url := "https://dpa.example/dpa.zip"; opt_comuna := "Pichilemu" |}.

(** The third mirror of a tile, the raw grid. *)
Definition raw_url (code : string) : string :=
  "https://srtm.kurviger.de/SRTM3/" +:+ code +:+ ".hgt".






(** ** Pre- and postconditions *)

(** [triple P m Q R]: started in a state with [P], the computation [m]
    ends with a value [a] in a state with [Q a], or raises in a state
    with [R]. *)
Definition triple {A} (P : St -> Prop) (m : M A)
    (Q : A -> St -> Prop) (R : St -> Prop) : Prop :=
  forall st, P st ->
    match m st with
    | (st', Ok a) => Q a st'
    | (st', Raised) => R st'
    end.

(** The calls made since [c0] are all in [C]. *)
Definition calls_from (c0 : list Call) (C : Call -> Prop) (st : St) : Prop :=
  exists cs, calls st = c0 ++ cs /\ Forall C cs.

(** A request for a tile of one of the two plans of a box, to one of
    the mirrors of that tile. *)
Definition planned_request (b : BBox) (c : Call) : Prop :=
  exists code url,
    c = TileGet code url /\
    (code ∈ codes b \/ code ∈ full_codes b) /\
    url ∈ mirror_urls code.

(** The recorded requests the elevation stage may make for a boundary:
    a request for a planned tile, or the search of the catalog over the
    box of the boundary widened by 0.05 degrees on each side. *)
Definition elevation_call (boundary : GeoDataFrame) (c : Call) : Prop :=
  planned_request (total_bounds boundary) c \/
  c = StacSearch
        {| minx := minx (total_bounds boundary) - (5 # 100);
           miny := miny (total_bounds boundary) - (5 # 100);
           maxx := maxx (total_bounds boundary) + (5 # 100);
           maxy := maxy (total_bounds boundary) + (5 # 100) |}.

(** The two final rasters of the elevation stage are as given. *)
Definition final_kept (v c : option bytes) (st : St) : Prop :=
  files st !! "srtm_dem.tif" = v /\ files st !! "copernicus_dem.tif" = c.

(** The tile raster is on disk, the satellite raster as given. *)
Definition srtm_written (c : option bytes) (st : St) : Prop :=
  is_Some (files st !! "srtm_dem.tif") /\ files st !! "copernicus_dem.tif" = c.

(** The satellite raster is on disk, the tile raster as given. *)
Definition copernicus_written (v : option bytes) (st : St) : Prop :=
  files st !! "srtm_dem.tif" = v /\ is_Some (files st !! "copernicus_dem.tif").

(** The three files the boundary block may write. *)
Definition boundary_file (p : string) : Prop :=
  p = "comuna_boundaries.geojson" \/
  p = "comuna_boundaries_oficial.geojson" \/
  p = "osm_boundary.geojson".

(** ** The cells of a box *)

(** The candidate corners of the first plan name tiles of the globe. *)
Definition corners_in_range (b : BBox) : Prop :=
  -90 <= Qfloor (miny b) <= 89 /\ -90 <= Qfloor (maxy b - eps) <= 89 /\
  -180 <= Qfloor (minx b) <= 179 /\ -180 <= Qfloor (maxx b - eps) <= 179.

(** A cell between the candidate rows and columns of the box that is
    none of the four candidate corners: it is strictly between the two
    rows, or strictly between the two columns. *)
Definition inner_cell (b : BBox) (la lo : Z) : Prop :=
  Qfloor (miny b) <= la <= Qfloor (maxy b - eps) /\
  Qfloor (minx b) <= lo <= Qfloor (maxx b - eps) /\
  (Qfloor (miny b) < la < Qfloor (maxy b - eps) \/
   Qfloor (minx b) < lo < Qfloor (maxx b - eps)).

(** A box over three rows and two columns of tiles. *)
Definition box_three_rows : BBox :=
  {| minx := - (725 # 10); miny := - (365 # 10);
     maxx := - (715 # 10); maxy := - (335 # 10) |}.

(** ** File names *)

(** A name, or a part of one, without a dot. *)
Fixpoint no_dot (s : string) : bool :=
  match s with
  | EmptyString => true
  | String c s' => negb (Ascii.eqb c ".") && no_dot s'
  end.

(** [out_path] of [_reproject_dem]. *)
Definition reprojected_path (dem_path : string) (target_epsg : Z) : string :=
  PyStr.stem dem_path +:+ "_" +:+ PyStr.format_0d 0 target_epsg +:+ ".tif".

(** ** The sources of the command line *)

(** One turn of the loop of [main] over [sources_list]: the name it
    appends to [normalized_sources], and [auto_micro] after it. *)
Definition normalize_source (auto_micro : bool) (s : string) : string * bool :=
  if bool_decide (s ∈ ["ine_manzanas_censales"; "manzanas"; "manzanas_censales"])
  then ("censo", auto_micro)
  else if bool_decide (s ∈ ["ine_censo2017"]) then ("censo", true)
  else if bool_decide (s ∈ ["dem"; "strm"]) then ("srtm", auto_micro)
  else if bool_decide (s ∈ ["sentinel"; "sentinel2"]) then ("copernicus", auto_micro)
  else if bool_decide (s ∈ ["ide_minvu"; "minvu"; "uso_suelo"; "usosuelo"; "suelo"])
  then ("ide_minvu", auto_micro)
  else (s, auto_micro).

(** The name a source is run under. *)
Definition canonical (s : string) : string := (normalize_source false s).1.

(** The loop, from given values of its two variables. *)
Fixpoint normalize_loop (sources_list normalized_sources : list string)
    (auto_micro : bool) : list string * bool :=
  match sources_list with
  | [] => (normalized_sources, auto_micro)
  | s :: rest =>
      let '(name, auto_micro) := normalize_source auto_micro s in
      normalize_loop rest (normalized_sources ++ [name]) auto_micro
  end.

(** [sources_list] and [auto_micro] as [main] has them when the stages
    begin, from the list of tokens that enters the loop over the
    aliases: the aliases resolved, and [censo] added for the deprecated
    flag [--download-censo].  The tokens are those of [--sources]
    after the split at the commas, or the five names that stand for
    [all]; that step comes before and is not part of this
    definition. *)
Definition requested_sources (sources_list : list string) (download_censo : bool)
    : list string * bool :=
  let '(sources_list, auto_micro) := normalize_loop sources_list [] false in
  let sources_list :=
    if download_censo && negb (bool_decide ("censo" ∈ sources_list))
    then sources_list ++ ["censo"]
    else sources_list in
  (sources_list, auto_micro).

(** ** The files of the elevation stage *)

(** A file of a tile of one of the two plans of a box. *)
Definition planned_path (b : BBox) (q : string) : Prop :=
  exists code, (code ∈ codes b \/ code ∈ full_codes b) /\ tile_paths code q.

(** The rasters of the mosaic and of the fallback. *)
Definition raster_file (q : string) : Prop :=
  q ∈ ["srtm_dem.tif"; "srtm_mosaic_tmp.tif"; "srtm_dem_32719.tif";
       "copernicus_dem.tif"; "copernicus_dem_32719.tif"].

(** The files the elevation stage may write or delete for a box. *)
Definition elevation_file (b : BBox) (q : string) : Prop :=
  planned_path b q \/ raster_file q.

(** ** The metadata of a run *)

(** [name.startswith(prefix)] *)
Definition startswith (name prefix : string) : bool := String.prefix prefix name.

(** The entries [create_metadata] can put on [fuentes_detectadas], in
    the order of its tests. *)
Inductive Fuente :=
| OpenStreetMap
| IdeChileOsmLimites
| IneCenso2017
| IneCenso2017Microdatos
| SrtmDem
| Sentinel2Copernicus
| UsoSueloMinvu.

(** [list(self.output_dir.glob('*'))], by name. *)
Definition glob_all (output_dir : gmap string bytes) : list string :=
  elements (dom output_dir).

(** [fuentes], as [create_metadata] builds it from [archivos]. *)
Definition fuentes_detectadas (archivos : list string) : list Fuente :=
  let fuentes := [] in
  let fuentes :=
    if existsb (fun name => startswith name "osm_") archivos
    then fuentes ++ [OpenStreetMap] else fuentes in
  let fuentes :=
    if existsb (fun name => startswith name "comuna_boundaries") archivos
       || existsb (fun name => String.eqb name "osm_boundary.geojson") archivos
    then fuentes ++ [IdeChileOsmLimites] else fuentes in
  let fuentes :=
    if existsb (fun name => String.eqb name "manzanas_censales.geojson") archivos
    then fuentes ++ [IneCenso2017] else fuentes in
  let fuentes :=
    if existsb (fun name => String.eqb name "censo_manzanas_atributos.csv") archivos
    then fuentes ++ [IneCenso2017Microdatos] else fuentes in
  let fuentes :=
    if existsb (fun name => String.eqb name "srtm_dem.tif") archivos
    then fuentes ++ [SrtmDem] else fuentes in
  let fuentes :=
    if existsb (fun name => startswith name "sentinel2_B") archivos
    then fuentes ++ [Sentinel2Copernicus] else fuentes in
  let fuentes :=
    if existsb (fun name => String.eqb name "uso_suelo_minvu.geojson") archivos
    then fuentes ++ [UsoSueloMinvu] else fuentes in
  fuentes.

(** The sources [create_metadata] would report for a directory. *)
Definition fuentes_of (output_dir : gmap string bytes) : list Fuente :=
  fuentes_detectadas (glob_all output_dir).

(** A file name that makes [create_metadata] report a source. *)
Definition detects (f : Fuente) (name : string) : bool :=
  match f with
  | OpenStreetMap => startswith name "osm_"
  | IdeChileOsmLimites =>
      startswith name "comuna_boundaries" || String.eqb name "osm_boundary.geojson"
  | IneCenso2017 => String.eqb name "manzanas_censales.geojson"
  | IneCenso2017Microdatos => String.eqb name "censo_manzanas_atributos.csv"
  | SrtmDem => String.eqb name "srtm_dem.tif"
  | Sentinel2Copernicus => startswith name "sentinel2_B"
  | UsoSueloMinvu => String.eqb name "uso_suelo_minvu.geojson"
  end.

(** The entries in the order [create_metadata] tests for them. *)
Definition all_fuentes : list Fuente :=
  [OpenStreetMap; IdeChileOsmLimites; IneCenso2017; IneCenso2017Microdatos;
   SrtmDem; Sentinel2Copernicus; UsoSueloMinvu].

(** ** Matching a shapefile against the name of the region *)

(** [s[n:]] *)
Fixpoint string_skip (n : nat) (s : string) : string :=
  match n, s with
  | O, _ => s
  | S n', String _ s' => string_skip n' s'
  | S _, EmptyString => EmptyString
  end.

(** The first position from which [t] can be read in [s], counted
    from [i]. *)
Fixpoint find_at (t s : string) (i : nat) : option nat :=
  if String.prefix t s then Some i
  else
    match s with
    | EmptyString => None
    | String _ s' => find_at t s' (S i)
    end.

(** [s.find(t, idx)] for [0 <= idx]; [None] is [-1]. *)
Definition str_find (s t : string) (idx : nat) : option nat :=
  if (idx <=? String.length s)%nat then find_at t (string_skip idx s) idx
  else None.

(** The loop of [_matches], from a given [idx]. *)
Fixpoint matches_from (tokens : list string) (norm_base : string) (idx : nat) : bool :=
  match tokens with
  | [] => true
  | t :: rest =>
      match str_find norm_base t idx with
      | None => false
      | Some pos => matches_from rest norm_base (pos + String.length t)
      end
  end.

(** [_matches], the local function of [download_minvu_uso_suelo], on
    the tokens of the normalised region name and the normalised stem of
    a shapefile. *)
Definition _matches (tokens : list string) (norm_base : string) : bool :=
  matches_from tokens norm_base 0.

(** The tokens can be read in the string one after the other, in their
    order and without overlap. *)
Inductive in_order : list string -> string -> Prop :=
| in_order_nil (s : string) : in_order [] s
| in_order_cons (t : string) (ts : list string) (gap rest : string) :
    in_order ts rest -> in_order (t :: ts) (gap +:+ t +:+ rest).

(** ** The list of tiles *)

(** Every path on [hgt_files] is the grid file of a tile with [P], is
    on disk, and is listed once. *)
Definition tiles_listed (P : string -> Prop) (st : St) : Prop :=
  NoDup (hgt_files st) /\
  forall q, q ∈ hgt_files st ->
    is_Some (files st !! q) /\ exists code, P code /\ q = hgt_path code.

(** A tile of one of the two plans of a box. *)
Definition planned_code (b : BBox) (code : string) : Prop :=
  code ∈ codes b \/ code ∈ full_codes b.

(** ** The OSM stage, step by step *)

(** The two kinds of features [download_osm_data] asks for. *)
Inductive FeatureTag := Building | Amenity.

(** OSMnx and the name normalisation, as far as [download_osm_data]
    uses them.  [None] is a raised exception. *)
Record Osmnx := mkOsmnx {
  (* [self._normalize(self.comuna)] *)
  osm_normalize : string -> string;
  (* [ox.graph_from_place(q, network_type)] and [ox.save_graphml]: the
     file that is written *)
  graph_from_place : string -> string -> option bytes;
  (* [hasattr(ox, 'geocode_to_gdf')] and [ox.geocode_to_gdf(q)] *)
  ox_has_geocode_to_gdf : bool;
  ox_geocode_to_gdf : string -> option GeoDataFrame;
  (* [_features_from_place(q, tags)] and [to_file]: [Some None] when
     nothing is found, else the file that is written *)
  features_from_place : string -> FeatureTag -> option (option bytes)
}.

(** [queries] *)
Definition osm_queries (ox : Osmnx) (comuna : string) : list string :=
  let original := comuna +:+ ", Chile" in
  let normalized := osm_normalize ox comuna +:+ ", Chile" in
  if negb (String.eqb original normalized) then [original; normalized]
  else [original].

(** [for net_type in ['drive', 'all']], up to the [break]: whether the
    graph was saved, the directory, and the geometry of the region. *)
Fixpoint osm_network (ox : Osmnx) (q : string) (net_types : list string)
    (fs : gmap string bytes) (geocoded : option GeoDataFrame)
    : bool * gmap string bytes * option GeoDataFrame :=
  match net_types with
  | [] => (false, fs, geocoded)
  | net_type :: rest =>
      match graph_from_place ox q net_type with
      | Some graphml =>
          let fs := <["osm_network.graphml" := graphml]> fs in
          let geocoded :=
            if ox_has_geocode_to_gdf ox then
              match ox_geocode_to_gdf ox q with
              | Some gdf => Some gdf
              | None => geocoded
              end
            else geocoded in
          (true, fs, geocoded)
      | None => osm_network ox q rest fs geocoded
      end
  end.

(** One of the two [try] blocks for buildings and amenities. *)
Definition osm_features (ox : Osmnx) (q : string) (tag : FeatureTag) (file : string)
    (fs : gmap string bytes) : bool * gmap string bytes :=
  match features_from_place ox q tag with
  | Some (Some data) => (true, <[file := data]> fs)
  | Some None => (false, fs)
  | None => (false, fs)
  end.

(** [for q in queries], up to the [break]: [graph_saved],
    [buildings_saved] and [amenities_saved], the directory and the
    geometry. *)
Fixpoint osm_loop (ox : Osmnx) (queries : list string)
    (fs : gmap string bytes) (geocoded : option GeoDataFrame)
    : (bool * bool * bool) * gmap string bytes * option GeoDataFrame :=
  match queries with
  | [] => ((false, false, false), fs, geocoded)
  | q :: rest =>
      match osm_network ox q ["drive"; "all"] fs geocoded with
      | (true, fs, geocoded) =>
          match osm_features ox q Building "osm_buildings.geojson" fs with
          | (buildings_saved, fs) =>
              match osm_features ox q Amenity "osm_amenities.geojson" fs with
              | (amenities_saved, fs) =>
                  ((true, buildings_saved, amenities_saved), fs, geocoded)
              end
          end
      | (false, fs, geocoded) => osm_loop ox rest fs geocoded
      end
  end.

(** [download_osm_data], as the [osm_data] of a world: its result, the
    geometry it stores in [self.boundary_gdf] if any, and the
    directory it leaves. *)
Definition osm_data_of (ox : Osmnx) (comuna : string)
    (fs : gmap string bytes) : bool * option GeoDataFrame * gmap string bytes :=
  match osm_loop ox (osm_queries ox comuna) fs None with
  | ((graph_saved, buildings_saved, amenities_saved), fs, geocoded) =>
      (graph_saved || buildings_saved || amenities_saved, geocoded, fs)
  end.

(** Some query gives a road network. *)
Definition some_graph (ox : Osmnx) (queries : list string) : Prop :=
  exists q net_type graphml,
    q ∈ queries /\ net_type ∈ ["drive"; "all"] /\
    graph_from_place ox q net_type = Some graphml.

(** No query gives a road network or a feature. *)
Definition osm_down : Osmnx :=
  {| osm_normalize := fun s => s;
     graph_from_place := fun _ _ => None;
     ox_has_geocode_to_gdf := true;
     ox_geocode_to_gdf := fun _ => Some region;
     features_from_place := fun _ _ => None |}.

(** A world in which OSMnx is down and every other service fails. *)
Definition offline : World :=
  {| http_get := fun _ _ => None; gunzip := fun _ => None; unzip := fun _ => None;
     has_geocode_to_gdf := true; geocode_to_gdf := fun _ => Some region;
     to_crs := fun _ _ => None; to_geojson := fun _ => None;
     raster_align := fun _ _ => None; raster_mask := fun _ _ => None;
     raster_merge := fun _ => None; raster_warp := fun _ _ => WarpNoTransform;
     stac_search := fun _ => None; stac_clip := fun _ _ => None;
     wfs_get := fun _ _ => None; dpa_get := fun _ => None;
     dpa_extract := fun _ _ => None;
     osm_data := osm_data_of osm_down; other_stage := fun _ fs => fs;
     census := fun _ fs => (fs, false) |}.

(** ** [main] before the elevation block *)



(** The world [raw_only] with the census archive not extracted:
    [filter_censo_manzanas_by_comuna] raises. *)
Definition no_census_archive : World :=
  {| http_get := http_get raw_only; gunzip := gunzip raw_only;
     unzip := unzip raw_only;
     has_geocode_to_gdf := has_geocode_to_gdf raw_only;
     geocode_to_gdf := geocode_to_gdf raw_only;
     to_crs := to_crs raw_only; to_geojson := to_geojson raw_only;
     raster_align := raster_align raw_only; raster_mask := raster_mask raw_only;
     raster_merge := raster_merge raw_only; raster_warp := raster_warp raw_only;
     stac_search := stac_search raw_only; stac_clip := stac_clip raw_only;
     wfs_get := wfs_get raw_only; dpa_get := dpa_get raw_only;
     dpa_extract := dpa_extract raw_only;
     osm_data := osm_data raw_only; other_stage := other_stage raw_only;
     census := fun _ fs => (fs, true) |}.

Definition censo_srtm : Options :=
  {| sources_list := ["censo"; "srtm"]; skip_wfs := false; wfs_url := None;
     dpa_url := "https://dpa.example/dpa.zip"; opt_comuna := "Pichilemu" |}.

(** A directory with two tiles of [box_three_rows]: one of the corner
    plan, and one of the full range only. *)
Definition two_tiles_on_disk : St :=
  DataDownloader "Pichilemu"
    (<[hgt_path "S35W073" := two_bytes]> {[ hgt_path "S37W073" := two_bytes ]}).

(** ** The mirrors, turn by turn *)

(** The body of [for url in urls] run on each mirror of a list, one
    after the other, with no [break]: the state after the first [k]
    mirrors were asked is that of [turns] on [take k urls]. *)
Fixpoint turns (w : World) (p : Pass) (code : string) (urls : list string) : M unit :=
  match urls with
  | [] => ret tt
  | url :: rest => try_url w p code url ;; turns w p code rest
  end.

(** * Properties *)

(** ** Strings *)

Section Strings.

Lemma to_list_app (s t : string) :
  String.list_ascii_of_string (s +:+ t) =
  String.list_ascii_of_string s ++ String.list_ascii_of_string t.
Proof. induction s as [|c s IH]; simpl; [done | by rewrite IH]. Qed.

Lemma to_list_inj (s t : string) :
  String.list_ascii_of_string s = String.list_ascii_of_string t -> s = t.
Proof.
  intros H.
  rewrite <- (String.string_of_list_ascii_of_string s),
          <- (String.string_of_list_ascii_of_string t).
  by rewrite H.
Qed.

(** A suffix can be cancelled. *)
Lemma append_inv_tail (s s' t : string) : s +:+ t = s' +:+ t -> s = s'.
Proof.
  intros H. apply to_list_inj.
  apply (f_equal String.list_ascii_of_string) in H.
  rewrite !to_list_app in H. by apply app_inv_tail in H.
Qed.

(** Two names with different last characters differ. *)
Lemma append_last_ne (s s' t t' : string) (c c' : ascii) :
  c <> c' -> s +:+ t +:+ String c "" <> s' +:+ t' +:+ String c' "".
Proof.
  intros Hne H. apply (f_equal String.list_ascii_of_string) in H.
  rewrite !to_list_app in H. simpl in H.
  rewrite !app_assoc in H.
  apply (f_equal last) in H. rewrite !last_snoc in H. congruence.
Qed.

Lemma length_append (s t : string) :
  String.length (s +:+ t) = (String.length s + String.length t)%nat.
Proof. induction s as [|c s IH]; simpl; [done | by rewrite IH]. Qed.

End Strings.

(** ** The tile code *)

Section TileCode.

Lemma digit_val_char (d : Z) :
  0 <= d <= 9 -> PyStr.digit_val (PyStr.digit_char d) = Some d.
Proof.
  intros H.
  assert (d = 0 \/ d = 1 \/ d = 2 \/ d = 3 \/ d = 4 \/ d = 5 \/ d = 6 \/
          d = 7 \/ d = 8 \/ d = 9) as Hd by lia.
  repeat (destruct Hd as [-> | Hd]; [reflexivity |]). by subst.
Qed.

(** Checking a decidable property on a whole range. *)
Lemma range_check (P : Z -> Prop) `{forall n, Decision (P n)} (lo len : Z) :
  bool_decide (Forall P (seqZ lo len)) = true ->
  forall n, lo <= n < lo + len -> P n.
Proof.
  intros Hb n Hn. apply bool_decide_eq_true in Hb.
  rewrite Forall_forall in Hb. apply Hb. by apply elem_of_seqZ.
Qed.

Lemma format_02d (n : Z) :
  0 <= n < 100 ->
  PyStr.format_0d 2 n =
  String (PyStr.digit_char (n / 10)) (String (PyStr.digit_char (n mod 10)) "").
Proof.
  intros Hn.
  apply (range_check
           (fun n => PyStr.format_0d 2 n =
                     String (PyStr.digit_char (n / 10))
                       (String (PyStr.digit_char (n mod 10)) "")) 0 100);
    [by vm_compute | lia].
Qed.

Lemma format_03d (n : Z) :
  0 <= n < 1000 ->
  PyStr.format_0d 3 n =
  String (PyStr.digit_char (n / 100))
    (String (PyStr.digit_char (n / 10 mod 10))
       (String (PyStr.digit_char (n mod 10)) "")).
Proof.
  intros Hn.
  apply (range_check
           (fun n => PyStr.format_0d 3 n =
                     String (PyStr.digit_char (n / 100))
                       (String (PyStr.digit_char (n / 10 mod 10))
                          (String (PyStr.digit_char (n mod 10)) ""))) 0 1000);
    [by vm_compute | lia].
Qed.

Lemma int_2digits (n : Z) :
  0 <= n < 100 ->
  PyStr.int (String (PyStr.digit_char (n / 10))
               (String (PyStr.digit_char (n mod 10)) "")) = Some n.
Proof.
  intros Hn. unfold PyStr.int, PyStr.int_digits.
  rewrite !digit_val_char by (Z.div_mod_to_equations; lia).
  f_equal. Z.div_mod_to_equations. lia.
Qed.

Lemma int_3digits (n : Z) :
  0 <= n < 1000 ->
  PyStr.int (String (PyStr.digit_char (n / 100))
               (String (PyStr.digit_char (n / 10 mod 10))
                  (String (PyStr.digit_char (n mod 10)) ""))) = Some n.
Proof.
  intros Hn. unfold PyStr.int, PyStr.int_digits.
  rewrite !digit_val_char by (Z.div_mod_to_equations; lia).
  f_equal. Z.div_mod_to_equations. lia.
Qed.

Lemma is_digit_char (d : Z) : 0 <= d <= 9 -> is_digit (PyStr.digit_char d) = true.
Proof. intros H. unfold is_digit. by rewrite digit_val_char. Qed.

(** The code of a corner in range, character by character. *)
Lemma tile_code_chars (lat lon : Z) :
  -90 <= lat <= 89 -> -180 <= lon <= 179 ->
  tile_code lat lon =
  String (if 0 <=? lat then "N"%char else "S"%char)
    (String (PyStr.digit_char (Z.abs lat / 10))
       (String (PyStr.digit_char (Z.abs lat mod 10))
          (String (if 0 <=? lon then "E"%char else "W"%char)
             (String (PyStr.digit_char (Z.abs lon / 100))
                (String (PyStr.digit_char (Z.abs lon / 10 mod 10))
                   (String (PyStr.digit_char (Z.abs lon mod 10)) "")))))).
Proof.
  intros Hlat Hlon. unfold tile_code.
  rewrite format_02d, format_03d by lia.
  by destruct (0 <=? lat), (0 <=? lon).
Qed.

Lemma tile_code_decode (lat lon : Z) :
  -90 <= lat <= 89 -> -180 <= lon <= 179 ->
  decode_tile_name (tile_code lat lon) = Some (lat, lon).
Proof.
  intros Hlat Hlon. rewrite tile_code_chars by done.
  unfold decode_tile_name.
  cbn [String.get String.substring Nat.eqb].
  rewrite int_2digits, int_3digits by lia.
  destruct (Z.leb_spec 0 lat), (Z.leb_spec 0 lon); cbn; do 2 f_equal; lia.
Qed.

End TileCode.

(** C4: for every south-west corner with -90 <= lat_sw <= 89 and
    -180 <= lon_sw <= 179, [tile_code] gives a token of seven characters
    (hemisphere letter, two digits, hemisphere letter, three digits);
    the decoder reads the corner back from it; two corners in range with
    the same token are the same corner. *)
Theorem tile_code_roundtrip (lat_sw lon_sw : Z) :
  -90 <= lat_sw <= 89 -> -180 <= lon_sw <= 179 ->
  String.length (tile_code lat_sw lon_sw) = 7%nat /\
  token_shape (tile_code lat_sw lon_sw) = true /\
  decode_tile_name (tile_code lat_sw lon_sw) = Some (lat_sw, lon_sw) /\
  (forall lat' lon' : Z,
      -90 <= lat' <= 89 -> -180 <= lon' <= 179 ->
      tile_code lat' lon' = tile_code lat_sw lon_sw ->
      lat' = lat_sw /\ lon' = lon_sw).
Proof.
  intros Hlat Hlon. split; [|split; [|split]].
  - by rewrite tile_code_chars.
  - rewrite tile_code_chars by done. unfold token_shape.
    rewrite !is_digit_char by (Z.div_mod_to_equations; lia).
    by destruct (0 <=? lat_sw), (0 <=? lon_sw).
  - by apply tile_code_decode.
  - intros lat' lon' Hlat' Hlon' Heq.
    pose proof (tile_code_decode lat' lon' Hlat' Hlon') as H1.
    rewrite Heq, tile_code_decode in H1 by done.
    by injection H1 as -> ->.
Qed.

Lemma tile_code_roundtrip_witness :
  String.length (tile_code (-35) (-72)) = 7%nat /\
  token_shape (tile_code (-35) (-72)) = true /\
  decode_tile_name (tile_code (-35) (-72)) = Some (-35, -72) /\
  (forall lat' lon' : Z,
      -90 <= lat' <= 89 -> -180 <= lon' <= 179 ->
      tile_code lat' lon' = tile_code (-35) (-72) ->
      lat' = -35 /\ lon' = -72).
Proof. apply (tile_code_roundtrip (-35) (-72)); lia. Defined.

(** ** The tile plan *)

Section Plan.

Lemma Qfloor_unique (x : Q) (z : Z) :
  (inject_Z z <= x)%Q -> (x < inject_Z (z + 1))%Q -> Qfloor x = z.
Proof.
  intros Hlo Hhi.
  assert (z <= Qfloor x) as H1.
  { rewrite <- (Qfloor_Z z). by apply Qfloor_resp_le. }
  assert (Qfloor x < z + 1) as H2.
  { rewrite Zlt_Qlt. eapply Qle_lt_trans; [apply Qfloor_le | done]. }
  lia.
Qed.

Lemma Qfloor_le_ceiling (x y : Q) : (x <= y)%Q -> Qfloor x <= Qceiling y.
Proof.
  intros H. rewrite Zle_Qle.
  eapply Qle_trans; [apply Qfloor_le |].
  eapply Qle_trans; [exact H | apply Qle_ceiling].
Qed.

Lemma elem_of_sorted (X : gset string) (c : string) : c ∈ sorted X <-> c ∈ X.
Proof. unfold sorted. by rewrite merge_sort_Permutation, elem_of_elements. Qed.

(** A sorted set has no element twice. *)
Lemma NoDup_sorted (X : gset string) : NoDup (sorted X).
Proof. unfold sorted. rewrite merge_sort_Permutation. apply NoDup_elements. Qed.

Lemma sorted_singleton (c : string) : sorted {[ c ]} = [c].
Proof. unfold sorted. by rewrite elements_singleton. Qed.

Lemma elem_of_code_set (lats lons : list Z) (c : string) :
  c ∈ code_set lats lons <->
  exists la lo, la ∈ lats /\ lo ∈ lons /\ c = tile_code la lo.
Proof.
  unfold code_set. rewrite elem_of_list_to_set, list_elem_of_bind. split.
  - intros (la & Hc & Hla). apply list_elem_of_bind in Hc as (lo & Hc & Hlo).
    apply list_elem_of_singleton in Hc. eauto.
  - intros (la & lo & Hla & Hlo & ->). exists la. split; [|done].
    apply list_elem_of_bind. exists lo. split; [|done].
    by apply list_elem_of_singleton.
Qed.

Lemma elem_of_codes (b : BBox) (c : string) :
  c ∈ codes b <->
  exists la lo, la ∈ lat_sw b /\ lo ∈ lon_sw b /\ c = tile_code la lo.
Proof.
  unfold codes. rewrite elem_of_sorted, elem_of_code_set.
  by setoid_rewrite elem_of_elements.
Qed.

Lemma elem_of_full_codes (b : BBox) (c : string) :
  c ∈ full_codes b <->
  exists la lo,
    Qfloor (miny b) <= la <= Qceiling (maxy b) /\
    Qfloor (minx b) <= lo <= Qceiling (maxx b) /\
    c = tile_code la lo.
Proof.
  unfold full_codes, full_lats, full_lons, py_range.
  rewrite elem_of_sorted, elem_of_code_set.
  setoid_rewrite elem_of_seqZ.
  split; intros (la & lo & Hla & Hlo & ->); exists la, lo; repeat split; lia.
Qed.

(** A box with one candidate row and one candidate column has a plan
    of one tile. *)
Lemma codes_single (b : BBox) (la lo : Z) :
  Qfloor (miny b) = la -> Qfloor (maxy b - eps) = la ->
  Qfloor (minx b) = lo -> Qfloor (maxx b - eps) = lo ->
  codes b = [tile_code la lo].
Proof.
  intros H1 H2 H3 H4. unfold codes, lat_sw, lon_sw.
  rewrite H1, H2, H3, H4, !union_idemp_L, !elements_singleton.
  unfold code_set. cbn. rewrite (right_id_L ∅ (∪)).
  apply sorted_singleton.
Qed.

End Plan.

(** C3, as the code has it: a box that lies in the one-degree cell of
    [(la, lo)], whose south-west corner is not on the north or east edge
    of the cell and whose north-east corner is at least 1e-9 degrees off
    its south and west edges, gets a plan of exactly one tile, the code
    of [(la, lo)]. *)
Theorem plan_single_cell (b : BBox) (la lo : Z) :
  inside_cell b la lo ->
  (miny b < inject_Z (la + 1))%Q -> (minx b < inject_Z (lo + 1))%Q ->
  (inject_Z la <= maxy b - eps)%Q -> (inject_Z lo <= maxx b - eps)%Q ->
  codes b = [tile_code la lo].
Proof.
  intros (Hy1 & Hy2 & Hy3 & Hx1 & Hx2 & Hx3) Hys Hxs Hye Hxe.
  assert (0 < eps)%Q as Heps by reflexivity.
  apply codes_single; apply Qfloor_unique; try done; lra.
Qed.

Lemma plan_single_cell_witness :
  codes box_s35w072 = [tile_code (-35) (-72)].
Proof.
  apply (plan_single_cell box_s35w072 (-35) (-72));
    unfold inside_cell, box_s35w072, eps; cbn; try repeat split; try lra;
    unfold Qle, Qlt; cbn; lia.
Defined.

(** C3 fails as stated: the sliver lies strictly inside the cell of
    [(0, 0)], and its plan has two tiles, because [maxy - 1e-9] falls
    below the cell. *)
Lemma plan_single_cell_counterexample :
  inside_cell sliver 0 0 /\
  (inject_Z 0 < miny sliver)%Q /\ (maxy sliver < inject_Z 1)%Q /\
  (inject_Z 0 < minx sliver)%Q /\ (maxx sliver < inject_Z 1)%Q /\
  codes sliver = ["N00E000"; "S01E000"].
Proof.
  repeat split; try (unfold Qle, Qlt; cbn; lia).
Qed.

(** ** Frames of the monadic code *)

Section Frames.

Context (W : string -> Prop) (C : Call -> Prop) (H : string -> Prop).

Lemma frame_refl (st : St) : frame W C H st st.
Proof.
  split; try done.
  - exists []. by rewrite app_nil_r.
  - exists []. by rewrite app_nil_r.
  - exists []. by rewrite app_nil_r.
Qed.

Lemma frame_trans (st1 st2 st3 : St) :
  frame W C H st1 st2 -> frame W C H st2 st3 -> frame W C H st1 st3.
Proof.
  intros [a1 b1 f1 (cs1 & c1 & Fc1) (ls1 & l1) (hs1 & h1 & Fh1)]
         [a2 b2 f2 (cs2 & c2 & Fc2) (ls2 & l2) (hs2 & h2 & Fh2)].
  split.
  - congruence.
  - congruence.
  - intros p Hp. rewrite f2, f1; done.
  - exists (cs1 ++ cs2). rewrite c2, c1, app_assoc. split; [done | by apply Forall_app].
  - exists (ls1 ++ ls2). by rewrite l2, l1, app_assoc.
  - exists (hs1 ++ hs2). rewrite h2, h1, app_assoc. split; [done | by apply Forall_app].
Qed.

Lemma respects_ret {A} (a : A) : respects W C H (ret a).
Proof. intros st. apply frame_refl. Qed.

Lemma respects_raise {A} : respects W C H (@raise A).
Proof. intros st. apply frame_refl. Qed.

Lemma respects_lift {A} (o : option A) : respects W C H (lift o).
Proof. destruct o; [apply respects_ret | apply respects_raise]. Qed.

Lemma respects_bind {A B} (m : M A) (k : A -> M B) :
  respects W C H m -> (forall a, respects W C H (k a)) ->
  respects W C H (bind m k).
Proof.
  intros Hm Hk st. unfold bind. specialize (Hm st).
  destruct (m st) as [st' [a|]]; simpl in *; [|done].
  eapply frame_trans; [exact Hm | apply Hk].
Qed.

Lemma respects_catch {A} (m h : M A) :
  respects W C H m -> respects W C H h -> respects W C H (catch m h).
Proof.
  intros Hm Hh st. unfold catch. specialize (Hm st).
  destruct (m st) as [st' [a|]]; simpl in *; [done|].
  eapply frame_trans; [exact Hm | apply Hh].
Qed.

Lemma respects_get_st : respects W C H get_st.
Proof. intros st. apply frame_refl. Qed.

Lemma respects_exists (p : string) : respects W C H (exists_ p).
Proof. intros st. apply frame_refl. Qed.

Lemma respects_read_bytes (p : string) : respects W C H (read_bytes p).
Proof. intros st. unfold read_bytes. apply respects_lift. Qed.

Lemma respects_st_size (p : string) : respects W C H (st_size p).
Proof.
  apply respects_bind; [apply respects_read_bytes | intros; apply respects_ret].
Qed.

Lemma respects_logger (m : LogMsg) : respects W C H (logger m).
Proof.
  intros st. split; simpl; try done.
  - exists []. by rewrite app_nil_r.
  - by exists [m].
  - exists []. by rewrite app_nil_r.
Qed.

Lemma respects_call {A} (c : Call) (answer : nat -> option A) :
  C c -> respects W C H (call c answer).
Proof.
  intros Hc st. unfold call.
  destruct (answer (length (calls st))); simpl.
  all: split; simpl; try done.
  all: try (exists []; by rewrite app_nil_r).
  all: exists [c]; split; [done | by apply Forall_singleton].
Qed.

Lemma respects_write_bytes (p : string) (d : bytes) :
  W p -> respects W C H (write_bytes p d).
Proof.
  intros Hp st. split; simpl; try done.
  - intros q Hq. apply lookup_insert_ne. congruence.
  - exists []. by rewrite app_nil_r.
  - exists []. by rewrite app_nil_r.
  - exists []. by rewrite app_nil_r.
Qed.

Lemma respects_unlink (p : string) : W p -> respects W C H (unlink p).
Proof.
  intros Hp st. split; simpl; try done.
  - intros q Hq. apply lookup_delete_ne. congruence.
  - exists []. by rewrite app_nil_r.
  - exists []. by rewrite app_nil_r.
  - exists []. by rewrite app_nil_r.
Qed.

Lemma respects_append (p : string) : H p -> respects W C H (hgt_files_append p).
Proof.
  intros Hp st. split; simpl; try done.
  - exists []. by rewrite app_nil_r.
  - exists []. by rewrite app_nil_r.
  - exists [p]. split; [done | by apply Forall_singleton].
Qed.

End Frames.

Lemma frame_weaken (W W' : string -> Prop) (C C' : Call -> Prop)
    (H H' : string -> Prop) (st st' : St) :
  (forall p, W p -> W' p) -> (forall c, C c -> C' c) -> (forall p, H p -> H' p) ->
  frame W C H st st' -> frame W' C' H' st st'.
Proof.
  intros HW HC HH [a b f (cs & c & Fc) (ls & l) (hs & h & Fh)].
  split; try done; [| | by exists ls |].
  - intros p Hp. apply f. naive_solver.
  - exists cs. split; [done|]. eapply Forall_impl; eauto.
  - exists hs. split; [done|]. eapply Forall_impl; eauto.
Qed.

Lemma respects_weaken (W W' : string -> Prop) (C C' : Call -> Prop)
    (H H' : string -> Prop) {A} (m : M A) :
  (forall p, W p -> W' p) -> (forall c, C c -> C' c) -> (forall p, H p -> H' p) ->
  respects W C H m -> respects W' C' H' m.
Proof. intros HW HC HH Hm st. eapply frame_weaken; eauto. Qed.

(** One step of a frame proof: the head of the computation decides. *)
Ltac respects_step :=
  lazymatch goal with
  | |- respects _ _ _ (bind _ _) => apply respects_bind; [| intros ?]
  | |- respects _ _ _ (catch _ _) => apply respects_catch
  | |- respects _ _ _ (ret _) => apply respects_ret
  | |- respects _ _ _ raise => apply respects_raise
  | |- respects _ _ _ (lift _) => apply respects_lift
  | |- respects _ _ _ get_st => apply respects_get_st
  | |- respects _ _ _ (exists_ _) => apply respects_exists
  | |- respects _ _ _ (read_bytes _) => apply respects_read_bytes
  | |- respects _ _ _ (st_size _) => apply respects_st_size
  | |- respects _ _ _ (logger _) => apply respects_logger
  | |- respects _ _ _ (call _ _) => apply respects_call
  | |- respects _ _ _ (write_bytes _ _) => apply respects_write_bytes
  | |- respects _ _ _ (unlink _) => apply respects_unlink
  | |- respects _ _ _ (hgt_files_append _) => apply respects_append
  | |- respects _ _ _ (if ?b then _ else _) => destruct b
  | |- respects _ _ _ (match ?x with _ => _ end) => destruct x
  end.

Ltac respects_auto := repeat respects_step.

(** ** Frames of the tile fetcher *)

Section FetchFrames.

Context (w : World).

Lemma respects_gzip_read W C H (path : string) :
  respects W C H (gzip_read w path).
Proof. unfold gzip_read. respects_auto. Qed.

Lemma respects_extract_hgt W C H (base : string) members :
  W base -> respects W C H (extract_hgt base members).
Proof.
  intros Hb. induction members as [|[member data] rest IH]; simpl.
  - apply respects_ret.
  - destruct (PyStr.endswith _ _); [|done]. respects_auto. done.
Qed.

Lemma respects_materialize (p : Pass) (code url : string) (r : Response) :
  respects (tile_paths code) nothing nothing (materialize w p code url r).
Proof.
  unfold materialize; cbv zeta.
  destruct (PyStr.endswith url ".gz"); [|destruct (PyStr.endswith url ".zip")].
  - respects_auto; try apply respects_gzip_read; unfold tile_paths; auto.
  - respects_auto; try apply respects_extract_hgt; unfold tile_paths; auto.
  - destruct p; respects_auto. unfold tile_paths; auto.
Qed.

Lemma respects_accept (p : Pass) (code url : string) :
  respects nothing nothing (eq (hgt_path code)) (accept p code url).
Proof. unfold accept; cbv zeta. respects_auto. done. Qed.

Lemma respects_try_url (p : Pass) (code url : string) :
  respects (tile_paths code) (tile_call code) (eq (hgt_path code))
    (try_url w p code url).
Proof.
  unfold try_url. respects_auto.
  - by exists url.
  - eapply respects_weaken; [| | | apply respects_materialize]; done.
  - eapply respects_weaken; [| | | apply respects_accept]; done.
Qed.

Lemma respects_try_urls (p : Pass) (code : string) (urls : list string) :
  respects (tile_paths code) (tile_call code) (eq (hgt_path code))
    (try_urls w p code urls).
Proof.
  induction urls as [|url rest IH]; simpl.
  - apply respects_ret.
  - apply respects_bind; [apply respects_try_url |].
    intros [|]; [apply respects_ret | done].
Qed.

Lemma respects_fetch_tile (p : Pass) (code : string) :
  respects (tile_paths code) (tile_call code) (eq (hgt_path code))
    (fetch_tile w p code).
Proof.
  unfold fetch_tile; cbv zeta. respects_auto; try done.
  apply respects_try_urls.
Qed.

Lemma respects_fetch_tiles (p : Pass) (cs : list string) :
  respects (fun q => exists c, c ∈ cs /\ tile_paths c q)
           (fun x => exists c, c ∈ cs /\ tile_call c x)
           (fun q => exists c, c ∈ cs /\ q = hgt_path c)
    (fetch_tiles w p cs).
Proof.
  induction cs as [|c rest IH]; simpl; [apply respects_ret |].
  apply respects_bind; [| intros _].
  - eapply respects_weaken; [| | | apply respects_fetch_tile].
    + intros q Hq. exists c. split; [left | done].
    + intros x Hx. exists c. split; [left | done].
    + intros q <-. exists c. split; [left | done].
  - eapply respects_weaken; [| | | apply IH].
    + intros q (c' & Hc' & Hq). exists c'. split; [by right | done].
    + intros x (c' & Hc' & Hx). exists c'. split; [by right | done].
    + intros q (c' & Hc' & Hq). exists c'. split; [by right | done].
Qed.

End FetchFrames.

(** ** Computations that never raise *)

Section Total.

Lemma total_run {A} (m : M A) (st : St) :
  total m -> exists st' a, m st = (st', Ok a).
Proof.
  intros Hm. destruct (Hm st) as [a Ha].
  destruct (m st) as [st' o] eqn:E; simpl in Ha; subst. eauto.
Qed.

Lemma bind_ok {A B} (m : M A) (k : A -> M B) (st st' : St) (a : A) :
  m st = (st', Ok a) -> bind m k st = k a st'.
Proof. intros E. unfold bind. by rewrite E. Qed.

Lemma total_ret {A} (a : A) : total (ret a).
Proof. intros st. by exists a. Qed.

Lemma total_bind {A B} (m : M A) (k : A -> M B) :
  total m -> (forall a, total (k a)) -> total (bind m k).
Proof.
  intros Hm Hk st. destruct (total_run m st Hm) as (st' & a & E).
  rewrite (bind_ok _ _ _ _ _ E). apply Hk.
Qed.

Lemma total_catch {A} (m h : M A) : total h -> total (catch m h).
Proof.
  intros Hh st. unfold catch. destruct (m st) as [st' [a|]]; [by exists a | apply Hh].
Qed.

Lemma total_logger (m : LogMsg) : total (logger m).
Proof. intros st. by exists tt. Qed.

Lemma total_get_st : total get_st.
Proof. intros st. by exists st. Qed.

Lemma total_exists (p : string) : total (exists_ p).
Proof. intros st. by eexists. Qed.

Lemma total_append (p : string) : total (hgt_files_append p).
Proof. intros st. by exists tt. Qed.

Lemma total_set_hgt_files (l : list string) : total (set_hgt_files l).
Proof. intros st. by exists tt. Qed.

Context (w : World).

Lemma total_try_url (p : Pass) (code url : string) : total (try_url w p code url).
Proof. apply total_catch, total_ret. Qed.

Lemma total_try_urls (p : Pass) (code : string) (urls : list string) :
  total (try_urls w p code urls).
Proof.
  induction urls as [|url rest IH]; simpl; [apply total_ret |].
  apply total_bind; [apply total_try_url |].
  intros [|]; [apply total_ret | done].
Qed.

Lemma total_fetch_tile (p : Pass) (code : string) : total (fetch_tile w p code).
Proof.
  apply total_bind; [apply total_exists |].
  intros [|]; [apply total_append |].
  apply total_bind; [apply total_try_urls |].
  intros [|]; [apply total_ret | apply total_logger].
Qed.

Lemma total_fetch_tiles (p : Pass) (cs : list string) : total (fetch_tiles w p cs).
Proof.
  induction cs as [|c rest IH]; simpl; [apply total_ret |].
  apply total_bind; [apply total_fetch_tile | done].
Qed.

Lemma total_retry_full_range (b : BBox) : total (retry_full_range w b).
Proof.
  apply total_bind; [apply total_get_st |]. intros st.
  destruct (hgt_files st); [| apply total_ret].
  repeat (apply total_bind; [apply total_logger | intros _]).
  apply total_fetch_tiles.
Qed.

Lemma total_forced_download (b : BBox) : total (forced_download w b).
Proof.
  apply total_bind; [apply total_logger | intros _].
  apply total_catch, total_ret.
Qed.

Lemma total_acquire_tiles (b : BBox) : total (acquire_tiles w b).
Proof.
  unfold acquire_tiles.
  repeat (apply total_bind; [apply total_logger | intros _]).
  apply total_bind; [apply total_set_hgt_files | intros _].
  apply total_bind; [apply total_fetch_tiles | intros _].
  apply total_bind; [apply total_retry_full_range | intros _].
  apply total_bind; [apply total_get_st | intros st].
  destruct (hgt_files st); [| apply total_ret].
  apply total_bind; [apply total_logger | intros _].
  apply total_forced_download.
Qed.

End Total.

(** ** Invariants along a computation *)

Section Preserves.

Context (I : St -> Prop).

Lemma preserves_ret {A} (a : A) : preserves I (ret a).
Proof. by intros st. Qed.

Lemma preserves_bind {A B} (m : M A) (k : A -> M B) :
  preserves I m -> (forall a, preserves I (k a)) -> preserves I (bind m k).
Proof.
  intros Hm Hk st HI. unfold bind. specialize (Hm st HI).
  destruct (m st) as [st' [a|]]; simpl in *; [by apply Hk | done].
Qed.

Lemma preserves_get_st : preserves I get_st.
Proof. by intros st. Qed.

End Preserves.

Section Untouched.

Context (w : World) (code : string) (d : bytes) (c0 : list Call).

Lemma tile_paths_other (c : string) : c <> code -> ~ tile_paths c (hgt_path code).
Proof.
  unfold tile_paths, hgt_path. intros Hne [E | [E | E]].
  - by apply append_inv_tail in E.
  - by apply (append_last_ne code c ".hg" ".hgt.g" "t" "z") in E.
  - by apply (append_last_ne code c ".hg" ".zi" "t" "p") in E.
Qed.

(** What keeps off the files and the calls of the tile keeps the
    invariant. *)
Lemma frame_untouched (W : string -> Prop) (C : Call -> Prop) (H : string -> Prop)
    (st st' : St) :
  ~ W (hgt_path code) -> (forall c, C c -> ~ tile_call code c) ->
  frame W C H st st' -> untouched code d c0 st -> untouched code d c0 st'.
Proof.
  intros HW HC [_ _ Hf (cs & Hc & Fc) _ _] [Hd (added & Ha & Hn)]. split.
  - by rewrite Hf.
  - exists (added ++ cs). split; [by rewrite Hc, Ha, app_assoc |].
    intros url [Hin | Hin]%elem_of_app; [by apply (Hn url) |].
    rewrite Forall_forall in Fc. apply (HC _ (Fc _ Hin)). by exists url.
Qed.

Lemma untouched_logger (m : LogMsg) : preserves (untouched code d c0) (logger m).
Proof. by intros st. Qed.

Lemma untouched_set_hgt_files (l : list string) :
  preserves (untouched code d c0) (set_hgt_files l).
Proof. by intros st. Qed.

Lemma fetch_tile_existing (p : Pass) (st : St) (data : bytes) :
  files st !! hgt_path code = Some data ->
  fetch_tile w p code st = hgt_files_append (hgt_path code) st.
Proof.
  intros Hd. unfold fetch_tile, bind, exists_; cbv zeta.
  by rewrite Hd, bool_decide_eq_true_2.
Qed.

Lemma untouched_fetch_tile (p : Pass) (c : string) :
  preserves (untouched code d c0) (fetch_tile w p c).
Proof.
  intros st HI. destruct (decide (c = code)) as [-> | Hne].
  - destruct HI as [Hd Hc]. by rewrite (fetch_tile_existing p st d).
  - eapply frame_untouched; [| | apply respects_fetch_tile | done].
    + by apply tile_paths_other.
    + intros x [u ->] [u' E]. congruence.
Qed.

Lemma untouched_fetch_tiles (p : Pass) (cs : list string) :
  preserves (untouched code d c0) (fetch_tiles w p cs).
Proof.
  induction cs as [|c rest IH]; simpl; [apply preserves_ret |].
  apply preserves_bind; [apply untouched_fetch_tile | done].
Qed.

(** A tile that is there is put on the list by the loop that names it. *)
Lemma fetch_tiles_appends (p : Pass) (cs : list string) (st : St) :
  untouched code d c0 st -> code ∈ cs ->
  hgt_path code ∈ hgt_files (fetch_tiles w p cs st).1.
Proof.
  revert st. induction cs as [|c rest IH]; intros st HI Hin; [by inversion Hin |].
  simpl. destruct (total_run _ st (total_fetch_tile w p c)) as (st1 & [] & E1).
  rewrite (bind_ok _ _ _ _ _ E1).
  pose proof (untouched_fetch_tile p c st HI) as HI1. rewrite E1 in HI1; simpl in HI1.
  destruct (decide (c = code)) as [-> | Hne].
  - assert (hgt_path code ∈ hgt_files st1) as Hin1.
    { destruct HI as [Hd _]. rewrite (fetch_tile_existing p st d Hd) in E1.
      injection E1 as <-. simpl. apply elem_of_app. right. by left. }
    destruct (frame_hgt _ _ _ _ _ (respects_fetch_tiles w p rest st1))
      as (hs & -> & _).
    apply elem_of_app. by left.
  - apply IH; [done |]. by apply elem_of_cons in Hin as [-> | Hin].
Qed.

End Untouched.

(** ** The three attempts *)

Section Acquire.

Context (w : World).

Lemma respects_forced_download (b : BBox) :
  respects (tile_paths (code_force b)) (tile_call (code_force b))
    (eq (hgt_path (code_force b))) (forced_download w b).
Proof.
  unfold forced_download; cbv zeta.
  respects_auto; try apply respects_gzip_read; unfold tile_paths; eauto.
  by eexists.
Qed.

Lemma code_force_planned (b : BBox) : code_force b ∈ codes b.
Proof.
  apply elem_of_codes. exists (Qfloor (miny b)), (Qfloor (minx b)).
  unfold lat_sw, lon_sw. split; [set_solver | split; [set_solver | done]].
Qed.

(** [acquire_tiles], one attempt after the other. *)
Lemma acquire_tiles_unfold (b : BBox) (st : St) :
  acquire_tiles w b st =
  match fetch_tiles w First (codes b) (at_first_pass b st) with
  | (st2, Ok _) =>
      match retry_full_range w b st2 with
      | (st3, Ok _) =>
          match hgt_files st3 with
          | [] => (logger WarnNoTilesAfterRetry ;; forced_download w b) st3
          | _ :: _ => (st3, Ok tt)
          end
      | (st3, Raised) => (st3, Raised)
      end
  | (st2, Raised) => (st2, Raised)
  end.
Proof.
  unfold acquire_tiles, bind, at_first_pass; simpl.
  destruct (fetch_tiles _ _ _ _) as [st2 [[]|]]; [|done].
  destruct (retry_full_range _ _ _) as [st3 [[]|]]; [|done].
  unfold get_st. destruct (hgt_files st3) eqn:E; simpl; by rewrite ?E.
Qed.

Lemma retry_full_range_unfold (b : BBox) (st : St) :
  retry_full_range w b st =
  match hgt_files st with
  | [] => (logger WarnRetryFullRange ;;
           logger (InfoSecondCodes (full_codes b)) ;;
           fetch_tiles w Second (full_codes b)) st
  | _ :: _ => (st, Ok tt)
  end.
Proof.
  unfold retry_full_range, bind, get_st.
  destruct (hgt_files st) eqn:E; simpl; by rewrite ?E.
Qed.

Lemma untouched_retry (code : string) (d : bytes) (c0 : list Call) (b : BBox) :
  preserves (untouched code d c0) (retry_full_range w b).
Proof.
  intros st HI. rewrite retry_full_range_unfold.
  destruct (hgt_files st); [|done].
  revert st HI. fold (preserves (untouched code d c0)
    (logger WarnRetryFullRange ;; logger (InfoSecondCodes (full_codes b)) ;;
     fetch_tiles w Second (full_codes b))).
  repeat (apply preserves_bind; [apply untouched_logger | intros _]).
  apply untouched_fetch_tiles.
Qed.

Lemma retry_keeps_hgt (b : BBox) (st : St) (x : string) :
  x ∈ hgt_files st -> retry_full_range w b st = (st, Ok tt).
Proof.
  intros Hx. rewrite retry_full_range_unfold.
  destruct (hgt_files st); [by inversion Hx | done].
Qed.

Lemma acquire_untouched (b : BBox) (code : string) (d : bytes) (st : St) :
  files st !! hgt_path code = Some d ->
  untouched code d (calls st) (acquire_tiles w b st).1 /\
  (code ∈ codes b -> hgt_path code ∈ hgt_files (acquire_tiles w b st).1).
Proof.
  intros Hd.
  assert (untouched code d (calls st) (at_first_pass b st)) as H1.
  { split; [done |]. exists []. split; [by rewrite app_nil_r | by inversion 1]. }
  rewrite acquire_tiles_unfold.
  pose proof (untouched_fetch_tiles w code d _ First (codes b) _ H1) as H2.
  pose proof (fetch_tiles_appends w code d _ First (codes b) _ H1) as A2.
  destruct (total_run _ (at_first_pass b st) (total_fetch_tiles w First (codes b)))
    as (st2 & [] & E2).
  rewrite E2 in *; simpl in H2, A2.
  pose proof (untouched_retry code d _ b st2 H2) as H3.
  destruct (total_run _ st2 (total_retry_full_range w b)) as (st3 & [] & E3).
  rewrite E3 in *; simpl in H3.
  assert (code ∈ codes b -> st3 = st2) as Hsame.
  { intros Hin. rewrite (retry_keeps_hgt b st2 _ (A2 Hin)) in E3. congruence. }
  destruct (hgt_files st3) as [|h hs] eqn:E4.
  - assert (code ∉ codes b) as Hout.
    { intros Hin. specialize (A2 Hin). rewrite <- (Hsame Hin), E4 in A2.
      by inversion A2. }
    split; [| done].
    unfold bind; simpl.
    eapply frame_untouched; [| | apply (respects_forced_download b) | exact H3].
    + apply tile_paths_other. intros E. apply Hout. rewrite <- E.
      apply code_force_planned.
    + intros x [u ->] [u' E]. injection E as E _. apply Hout. rewrite <- E.
      apply code_force_planned.
  - simpl. split; [done |]. intros Hin. rewrite (Hsame Hin). by apply A2.
Qed.

End Acquire.

(** ** Every tile of a loop is dealt with *)

Section Attempts.

Context (w : World).

Lemma frame_calls_mono W C H (st st' : St) (c : Call) :
  frame W C H st st' -> c ∈ calls st -> c ∈ calls st'.
Proof. intros [_ _ _ (cs & -> & _) _ _] Hin. apply elem_of_app. by left. Qed.

Lemma frame_hgt_mono W C H (st st' : St) (x : string) :
  frame W C H st st' -> x ∈ hgt_files st -> x ∈ hgt_files st'.
Proof. intros [_ _ _ _ _ (hs & -> & _)] Hin. apply elem_of_app. by left. Qed.

Lemma attempted_mono W C H (code : string) (st st' : St) :
  frame W C H st st' -> attempted code st -> attempted code st'.
Proof.
  intros Hf [Hh | Hc]; [left | right].
  - by eapply frame_hgt_mono.
  - intros url Hu. eapply frame_calls_mono; eauto.
Qed.

Lemma accept_true (p : Pass) (code url : string) (st st' : St) :
  accept p code url st = (st', Ok true) -> hgt_path code ∈ hgt_files st'.
Proof.
  unfold accept, bind, exists_, st_size, read_bytes, bind; cbv zeta.
  destruct (bool_decide _); [| by intros [= _]].
  destruct (files st !! hgt_path code) as [data|]; simpl; [| by intros [= _]].
  destruct (_ <? 2000000); simpl; intros [= <-]; simpl;
    apply elem_of_app; right; by left.
Qed.

(** One mirror: the call is made, and [true] comes with the file on
    the list. *)
Lemma try_url_spec (p : Pass) (code url : string) (st : St) :
  exists st' d,
    try_url w p code url st = (st', Ok d) /\
    TileGet code url ∈ calls st' /\
    (d = true -> hgt_path code ∈ hgt_files st').
Proof.
  unfold try_url, catch, bind, call.
  set (stc := record_call (TileGet code url) st).
  assert (TileGet code url ∈ calls stc) as Hc.
  { simpl. apply elem_of_app. right. by left. }
  destruct (http_get w (length (calls st)) url) as [r|]; simpl;
    [| by exists stc, false].
  destruct (negb (status_code r =? 200)); simpl; [by exists stc, false |].
  pose proof (respects_materialize w p code url r stc) as Hm.
  destruct (materialize w p code url r stc) as [stm [[]|]]; simpl in *;
    [| exists stm, false; split; [done | split; [|done]];
       by eapply frame_calls_mono].
  pose proof (respects_accept p code url stm) as Ha.
  destruct (accept p code url stm) as [sta [d|]] eqn:Ea; simpl in *.
  - exists sta, d. split; [done | split].
    + eapply frame_calls_mono; [exact Ha |]. by eapply frame_calls_mono.
    + intros ->. by eapply accept_true.
  - exists sta, false. split; [done | split; [|done]].
    eapply frame_calls_mono; [exact Ha |]. by eapply frame_calls_mono.
Qed.

Lemma try_urls_spec (p : Pass) (code : string) (urls : list string) (st : St) :
  exists st' d,
    try_urls w p code urls st = (st', Ok d) /\
    (d = true -> hgt_path code ∈ hgt_files st') /\
    (d = false -> forall url, url ∈ urls -> TileGet code url ∈ calls st').
Proof.
  revert st. induction urls as [|url rest IH]; intros st; simpl.
  - exists st, false. split; [done | split; [done |]]. intros _ u Hu. by inversion Hu.
  - destruct (try_url_spec p code url st) as (st1 & d1 & E1 & Hc1 & Hd1).
    rewrite (bind_ok _ _ _ _ _ E1). destruct d1.
    + exists st1, true. split; [done | split; [auto | done]].
    + destruct (IH st1) as (st2 & d2 & E2 & Ht & Hf).
      exists st2, d2. split; [done | split; [done |]].
      intros -> u [-> | Hu]%elem_of_cons; [| by apply Hf].
      pose proof (respects_try_urls w p code rest st1) as Hfr.
      rewrite E2 in Hfr. by eapply frame_calls_mono.
Qed.

Lemma fetch_tile_attempted (p : Pass) (code : string) (st : St) :
  attempted code (fetch_tile w p code st).1.
Proof.
  unfold fetch_tile, bind at 1, exists_; cbv zeta.
  destruct (bool_decide _).
  - left. simpl. apply elem_of_app. right. by left.
  - destruct (try_urls_spec p code (mirror_urls code) st) as (st1 & d & E & Ht & Hf).
    rewrite (bind_ok _ _ _ _ _ E). destruct d; simpl.
    + left. auto.
    + right. intros url Hu. simpl. auto.
Qed.

Lemma fetch_tiles_attempted (p : Pass) (cs : list string) (code : string) (st : St) :
  code ∈ cs -> attempted code (fetch_tiles w p cs st).1.
Proof.
  revert st. induction cs as [|c rest IH]; intros st Hin; [by inversion Hin |].
  simpl. destruct (total_run _ st (total_fetch_tile w p c)) as (st1 & [] & E1).
  rewrite (bind_ok _ _ _ _ _ E1).
  apply elem_of_cons in Hin as [-> | Hin]; [| by apply IH].
  eapply attempted_mono; [apply (respects_fetch_tiles w p rest) |].
  pose proof (fetch_tile_attempted p c st) as Ha. by rewrite E1 in Ha.
Qed.

End Attempts.

(** C6, as the code has it: when the first plan left [hgt_files] empty,
    the second attempt goes over the full range of the box: the tiles
    of every whole latitude from [floor(miny)] to [ceil(maxy)] and
    every whole longitude from [floor(minx)] to [ceil(maxx)], ends
    included, and no other tile.  Each tile of the range is dealt with
    (its file is on the list, or each of its mirrors was asked), and
    every request the attempt makes is for a tile of the range.  The
    tile of every point of the box is in the range.  The range holds
    the first plan as well when the north-east corner of the box is at
    least 1e-9 degrees off the south and west edges of the cell of its
    south-west corner. *)
Theorem retry_covers_box (w : World) (b : BBox) (st : St) :
  hgt_files st = [] ->
  (forall c : string,
      c ∈ full_codes b <->
      exists la lo : Z,
        Qfloor (miny b) <= la <= Qceiling (maxy b) /\
        Qfloor (minx b) <= lo <= Qceiling (maxx b) /\
        c = tile_code la lo) /\
  (forall c : string,
      c ∈ full_codes b -> attempted c (retry_full_range w b st).1) /\
  (exists added : list Call,
      calls (retry_full_range w b st).1 = calls st ++ added /\
      forall x, x ∈ added -> exists c, c ∈ full_codes b /\ tile_call c x) /\
  (forall x y : Q,
      in_box b x y ->
      tile_code (Qfloor y) (Qfloor x) ∈ full_codes b /\
      attempted (tile_code (Qfloor y) (Qfloor x)) (retry_full_range w b st).1) /\
  ((inject_Z (Qfloor (miny b)) <= maxy b - eps)%Q ->
   (inject_Z (Qfloor (minx b)) <= maxx b - eps)%Q ->
   forall c, c ∈ codes b -> c ∈ full_codes b).
Proof.
  intros Hempty. assert (0 < eps)%Q as Heps by reflexivity.
  assert (forall c, c ∈ full_codes b -> attempted c (retry_full_range w b st).1)
    as Hatt.
  { intros c Hin. rewrite retry_full_range_unfold, Hempty. unfold bind; simpl.
    by apply fetch_tiles_attempted. }
  split; [apply elem_of_full_codes |]. split; [exact Hatt |]. split; [| split].
  - rewrite retry_full_range_unfold, Hempty.
    assert (respects (fun q => exists c, c ∈ full_codes b /\ tile_paths c q)
                     (fun x => exists c, c ∈ full_codes b /\ tile_call c x)
                     (fun q => exists c, c ∈ full_codes b /\ q = hgt_path c)
              (logger WarnRetryFullRange ;;
               logger (InfoSecondCodes (full_codes b)) ;;
               fetch_tiles w Second (full_codes b))) as Hr.
    { apply respects_bind; [apply respects_logger | intros _].
      apply respects_bind; [apply respects_logger | intros _].
      apply respects_fetch_tiles. }
    destruct (frame_calls _ _ _ _ _ (Hr st)) as (added & E & Hall).
    exists added. split; [exact E |].
    intros x Hx. by apply (proj1 (Forall_forall _ _) Hall).
  - intros x y (Hx1 & Hx2 & Hy1 & Hy2).
    assert (tile_code (Qfloor y) (Qfloor x) ∈ full_codes b) as Hin.
    { apply elem_of_full_codes. exists (Qfloor y), (Qfloor x).
      repeat split; auto using Qfloor_resp_le, Qfloor_le_ceiling. }
    split; [done | by apply Hatt].
  - intros Hy Hx c (la & lo & Hla & Hlo & ->)%elem_of_codes.
    apply elem_of_full_codes. exists la, lo.
    assert (Qfloor (miny b) <= Qfloor (maxy b - eps)) as Hfy.
    { rewrite <- (Qfloor_Z (Qfloor (miny b))) at 1. by apply Qfloor_resp_le. }
    assert (Qfloor (minx b) <= Qfloor (maxx b - eps)) as Hfx.
    { rewrite <- (Qfloor_Z (Qfloor (minx b))) at 1. by apply Qfloor_resp_le. }
    assert (Qfloor (maxy b - eps) <= Qceiling (maxy b)) as Hcy
      by (apply Qfloor_le_ceiling; lra).
    assert (Qfloor (maxx b - eps) <= Qceiling (maxx b)) as Hcx
      by (apply Qfloor_le_ceiling; lra).
    unfold lat_sw, lon_sw in *.
    apply elem_of_union in Hla as [->%elem_of_singleton | ->%elem_of_singleton];
    apply elem_of_union in Hlo as [->%elem_of_singleton | ->%elem_of_singleton];
      repeat split; lia.
Qed.

Lemma retry_covers_box_witness :
  (forall c : string,
      c ∈ full_codes box_s35w072 <->
      exists la lo : Z,
        Qfloor (miny box_s35w072) <= la <= Qceiling (maxy box_s35w072) /\
        Qfloor (minx box_s35w072) <= lo <= Qceiling (maxx box_s35w072) /\
        c = tile_code la lo) /\
  (forall c : string,
      c ∈ full_codes box_s35w072 ->
      attempted c (retry_full_range raw_only box_s35w072 (fresh "Pichilemu")).1) /\
  (exists added : list Call,
      calls (retry_full_range raw_only box_s35w072 (fresh "Pichilemu")).1
        = calls (fresh "Pichilemu") ++ added /\
      forall x, x ∈ added -> exists c, c ∈ full_codes box_s35w072 /\ tile_call c x) /\
  (forall x y : Q,
      in_box box_s35w072 x y ->
      tile_code (Qfloor y) (Qfloor x) ∈ full_codes box_s35w072 /\
      attempted (tile_code (Qfloor y) (Qfloor x))
        (retry_full_range raw_only box_s35w072 (fresh "Pichilemu")).1) /\
  ((inject_Z (Qfloor (miny box_s35w072)) <= maxy box_s35w072 - eps)%Q ->
   (inject_Z (Qfloor (minx box_s35w072)) <= maxx box_s35w072 - eps)%Q ->
   forall c, c ∈ codes box_s35w072 -> c ∈ full_codes box_s35w072).
Proof.
  apply (retry_covers_box raw_only box_s35w072 (fresh "Pichilemu")).
  reflexivity.
Defined.

(** C6 fails as stated: for the sliver the first plan has the tile
    south of the equator, and the full range has not. *)
Lemma retry_covers_box_counterexample :
  inside_cell sliver 0 0 /\
  "S01E000" ∈ codes sliver /\ "S01E000" ∉ full_codes sliver.
Proof.
  split; [| split].
  - repeat split; unfold Qle; cbn; lia.
  - apply (bool_decide_unpack _). by vm_compute.
  - apply (bool_decide_unpack _). by vm_compute.
Qed.

(** ** Files the tile fetcher never writes *)

Section OtherFiles.

Context (w : World) (q : string) (v : option bytes).
Hypothesis not_tile_file : forall c, ~ tile_paths c q.

Lemma respects_kept {A} W C H (m : M A) :
  respects W C H m -> ~ W q -> preserves (file_kept q v) m.
Proof. intros Hm HW st Hk. unfold file_kept in *. by rewrite (frame_files _ _ _ _ _ (Hm st)). Qed.

Lemma kept_fetch_tiles (p : Pass) (cs : list string) :
  preserves (file_kept q v) (fetch_tiles w p cs).
Proof.
  eapply respects_kept; [apply respects_fetch_tiles |].
  intros (c & _ & Hc). by apply (not_tile_file c).
Qed.

Lemma kept_acquire_tiles (b : BBox) : preserves (file_kept q v) (acquire_tiles w b).
Proof.
  unfold acquire_tiles.
  repeat (apply preserves_bind; [by intros st | intros _]).
  apply preserves_bind; [apply kept_fetch_tiles | intros _].
  apply preserves_bind; [| intros _].
  { unfold retry_full_range.
    apply preserves_bind; [apply preserves_get_st | intros st].
    destruct (hgt_files st); [| apply preserves_ret].
    repeat (apply preserves_bind; [by intros s | intros _]).
    apply kept_fetch_tiles. }
  apply preserves_bind; [apply preserves_get_st | intros st].
  destruct (hgt_files st); [| apply preserves_ret].
  apply preserves_bind; [by intros s | intros _].
  eapply respects_kept; [apply respects_forced_download | apply not_tile_file].
Qed.

End OtherFiles.

Lemma copernicus_not_tile_file (c : string) : ~ tile_paths c "copernicus_dem.tif".
Proof.
  unfold tile_paths, hgt_path. intros [E | [E | E]]; symmetry in E.
  - by apply (append_last_ne c "copernicus_dem" ".hg" ".ti" "t" "f") in E.
  - by apply (append_last_ne c "copernicus_dem" ".hgt.g" ".ti" "z" "f") in E.
  - by apply (append_last_ne c "copernicus_dem" ".zi" ".ti" "p" "f") in E.
Qed.

(** The catalog branch when the search finds nothing. *)
Lemma copernicus_fallback_no_items (w : World) (boundary : GeoDataFrame) (st : St) :
  stac_search w (bbox_buf (total_bounds boundary)) = Some [] ->
  copernicus_fallback w boundary st =
  (logger WarnNoCopernicus ;; ret false)
    (record_call (StacSearch (bbox_buf (total_bounds boundary))) st).
Proof.
  intros Hs. unfold copernicus_fallback, catch, bind at 1, call.
  by rewrite Hs.
Qed.

(** [download_srtm_tiles] when no tile could be had. *)
Lemma download_srtm_tiles_fallback (w : World) (st st2 : St) (boundary : GeoDataFrame) :
  _load_boundary_for_dem w st = Some boundary ->
  gdf_empty boundary = false ->
  acquire_tiles w (total_bounds boundary) st = (st2, Ok tt) ->
  hgt_files st2 = [] ->
  download_srtm_tiles w st = copernicus_fallback w boundary st2.
Proof.
  intros Hload Hne E2 Hnone.
  unfold download_srtm_tiles, bind at 1, get_st. rewrite Hload, Hne.
  rewrite (bind_ok _ _ _ _ _ E2). unfold bind at 1. by rewrite Hnone.
Qed.

(** C7: when the tile attempts have left [hgt_files] empty, so that the
    catalog is searched with the buffered box, and the search returns no
    item, [download_srtm_tiles] returns [False], the fallback writes no
    file at all, and [copernicus_dem.tif] is as it was before the call. *)
Theorem empty_catalog_fails (w : World) (st : St) (boundary : GeoDataFrame) :
  _load_boundary_for_dem w st = Some boundary ->
  gdf_empty boundary = false ->
  hgt_files (acquire_tiles w (total_bounds boundary) st).1 = [] ->
  stac_search w (bbox_buf (total_bounds boundary)) = Some [] ->
  (download_srtm_tiles w st).2 = Ok false /\
  files (download_srtm_tiles w st).1 =
    files (acquire_tiles w (total_bounds boundary) st).1 /\
  files (download_srtm_tiles w st).1 !! "copernicus_dem.tif" =
    files st !! "copernicus_dem.tif" /\
  StacSearch (bbox_buf (total_bounds boundary)) ∈ calls (download_srtm_tiles w st).1.
Proof.
  intros Hload Hne Hnone Hsearch.
  pose proof (kept_acquire_tiles w "copernicus_dem.tif" _ copernicus_not_tile_file
                (total_bounds boundary) st eq_refl) as Hkept.
  destruct (total_run _ st (total_acquire_tiles w (total_bounds boundary)))
    as (st2 & [] & E2).
  rewrite E2 in *; simpl in Hnone, Hkept.
  rewrite (download_srtm_tiles_fallback w st st2 boundary) by done.
  rewrite (copernicus_fallback_no_items _ _ _ Hsearch). simpl.
  repeat split; [done |]. apply elem_of_app. right. by left.
Qed.

Lemma empty_catalog_fails_witness :
  (download_srtm_tiles empty_catalog (fresh "Pichilemu")).2 = Ok false /\
  files (download_srtm_tiles empty_catalog (fresh "Pichilemu")).1 =
    files (acquire_tiles empty_catalog (total_bounds region) (fresh "Pichilemu")).1 /\
  files (download_srtm_tiles empty_catalog (fresh "Pichilemu")).1 !! "copernicus_dem.tif" =
    files (fresh "Pichilemu") !! "copernicus_dem.tif" /\
  StacSearch (bbox_buf (total_bounds region))
    ∈ calls (download_srtm_tiles empty_catalog (fresh "Pichilemu")).1.
Proof.
  apply (empty_catalog_fails empty_catalog (fresh "Pichilemu") region);
    by vm_compute.
Defined.

(** ** The size of a tile *)

Section Size.

Context (w : World).

(** In the two loops a tile that is there is taken, small or not. *)
Lemma accept_any_size (p : Pass) (code url : string) (st : St) (data : bytes) :
  files st !! hgt_path code = Some data ->
  exists st',
    accept p code url st = (st', Ok true) /\
    files st' = files st /\
    hgt_files st' = hgt_files st ++ [hgt_path code] /\
    log st' = log st ++
      (if Z.of_nat (length data) <? 2000000
       then [WarnTileSize p code (Z.of_nat (length data))] else []) ++
      [InfoTileDownloaded p code url].
Proof.
  intros Hd. unfold accept, bind, exists_, st_size, read_bytes, bind;
    cbv beta zeta.
  rewrite Hd, bool_decide_eq_true_2 by done. simpl. rewrite Hd. simpl.
  destruct (Z.of_nat (length data) <? 2000000); simpl;
    eexists; repeat split; simpl; by rewrite <- ?app_assoc.
Qed.

Lemma forced_download_unfold (b : BBox) (st : St) (r : Response) (raw : bytes) :
  http_get w (length (calls st)) (mapzen_url b) = Some r ->
  status_code r = 200 ->
  gunzip w (content r) = Some raw ->
  forced_download w b st =
  (logger (InfoForcing (code_force b)) ;;
   call (TileGet (code_force b) (mapzen_url b)) (fun _ => Some tt) ;;
   write_bytes (code_force b +:+ ".hgt.gz") (content r) ;;
   write_bytes (hgt_path (code_force b)) raw ;;
   logger (InfoForcedSize (code_force b) (Z.of_nat (length raw))) ;;
   if Z.of_nat (length raw) >? 1000000
   then hgt_files_append (hgt_path (code_force b)) else ret tt) st.
Proof.
  intros Hget Hstatus Hgz.
  unfold forced_download, bind, catch, call, gzip_read, st_size, read_bytes, bind;
    simpl.
  rewrite Hget; simpl. rewrite Hstatus; simpl.
  rewrite lookup_insert_eq; simpl. rewrite Hgz; simpl.
  rewrite lookup_insert_eq; simpl.
  by destruct (Z.of_nat (length raw) >? 1000000).
Qed.

End Size.

(** C5, as the code has it: in the two loops over the mirrors, a tile
    whose file is there after a 200 answer is put on [hgt_files]
    whatever its size, with a warning when the size is below 2,000,000
    bytes.  In the last, forced attempt the size is logged without a
    warning, and the tile is put on [hgt_files] only when its size is
    above 1,000,000 bytes. *)
Theorem size_anomaly_handling (w : World) :
  (forall (p : Pass) (code url : string) (st stm : St) (r : Response) (data : bytes),
      http_get w (length (calls st)) url = Some r ->
      status_code r = 200 ->
      materialize w p code url r (record_call (TileGet code url) st) = (stm, Ok tt) ->
      files stm !! hgt_path code = Some data ->
      exists st',
        try_url w p code url st = (st', Ok true) /\
        files st' = files stm /\
        hgt_files st' = hgt_files stm ++ [hgt_path code] /\
        log st' = log stm ++
          (if Z.of_nat (length data) <? 2000000
           then [WarnTileSize p code (Z.of_nat (length data))] else []) ++
          [InfoTileDownloaded p code url]) /\
  (forall (b : BBox) (st : St) (r : Response) (raw : bytes),
      http_get w (length (calls st)) (mapzen_url b) = Some r ->
      status_code r = 200 ->
      gunzip w (content r) = Some raw ->
      files (forced_download w b st).1 !! hgt_path (code_force b) = Some raw /\
      hgt_files (forced_download w b st).1 =
        hgt_files st ++
        (if Z.of_nat (length raw) >? 1000000 then [hgt_path (code_force b)] else []) /\
      log (forced_download w b st).1 =
        log st ++ [InfoForcing (code_force b);
                   InfoForcedSize (code_force b) (Z.of_nat (length raw))]).
Proof.
  split.
  - intros p code url st stm r data Hget Hstatus Hmat Hfile.
    destruct (accept_any_size p code url stm data Hfile) as (st' & Ea & Hf & Hh & Hl).
    exists st'. split; [| done].
    unfold try_url, catch, bind at 1, call. rewrite Hget; simpl.
    rewrite Hstatus; simpl. unfold bind. by rewrite Hmat, Ea.
  - intros b st r raw Hget Hstatus Hgz.
    rewrite (forced_download_unfold w b st r raw) by done.
    unfold bind; simpl.
    destruct (Z.of_nat (length raw) >? 1000000); simpl;
      rewrite lookup_insert_eq, <- ?app_assoc, ?app_nil_r; done.
Qed.

Lemma size_anomaly_handling_witness :
  (exists st',
      try_url short_gz First "S35W072" "https://srtm.kurviger.de/SRTM3/S35W072.hgt.gz"
        (fresh "Pichilemu") = (st', Ok true) /\
      hgt_files st' = ["S35W072.hgt"] /\
      log st' = [WarnTileSize First "S35W072" 2;
                 InfoTileDownloaded First "S35W072"
                   "https://srtm.kurviger.de/SRTM3/S35W072.hgt.gz"]) /\
  files (forced_download short_gz box_s35w072 (fresh "Pichilemu")).1
    !! hgt_path (code_force box_s35w072) = Some two_bytes /\
  hgt_files (forced_download short_gz box_s35w072 (fresh "Pichilemu")).1 = [].
Proof.
  pose (url := "https://srtm.kurviger.de/SRTM3/S35W072.hgt.gz").
  pose (r := mkResponse 200 [Byte.x1f; Byte.x8b]).
  pose (stm := (materialize short_gz First "S35W072" url r
                  (record_call (TileGet "S35W072" url) (fresh "Pichilemu"))).1).
  assert (http_get short_gz (length (calls (fresh "Pichilemu"))) url = Some r)
    as H1 by reflexivity.
  assert (status_code r = 200) as H2 by reflexivity.
  assert (materialize short_gz First "S35W072" url r
            (record_call (TileGet "S35W072" url) (fresh "Pichilemu")) = (stm, Ok tt))
    as H3 by (vm_compute; reflexivity).
  assert (files stm !! hgt_path "S35W072" = Some two_bytes)
    as H4 by (vm_compute; reflexivity).
  assert (http_get short_gz (length (calls (fresh "Pichilemu"))) (mapzen_url box_s35w072)
          = Some r) as H5 by reflexivity.
  assert (gunzip short_gz (content r) = Some two_bytes) as H6 by reflexivity.
  split.
  - destruct (proj1 (size_anomaly_handling short_gz) First "S35W072" url
                (fresh "Pichilemu") stm r two_bytes H1 H2 H3 H4)
      as (st' & E & _ & Hh & Hl).
    exists st'. split; [exact E | split; [exact Hh | exact Hl]].
  - destruct (proj2 (size_anomaly_handling short_gz) box_s35w072 (fresh "Pichilemu")
                r two_bytes H5 H2 H6) as (Hf & Hh & _).
    split; [exact Hf | exact Hh].
Defined.

(** C5 fails as stated: in the forced attempt a grid of two bytes is
    written to disk and left off [hgt_files]. *)
Lemma size_anomaly_handling_counterexample :
  files (forced_download short_gz box_s35w072 (fresh "Pichilemu")).1 !! "S35W072.hgt"
    = Some two_bytes /\
  hgt_files (forced_download short_gz box_s35w072 (fresh "Pichilemu")).1 = [] /\
  log (forced_download short_gz box_s35w072 (fresh "Pichilemu")).1
    = [InfoForcing "S35W072"; InfoForcedSize "S35W072" 2].
Proof. by vm_compute. Qed.

(** ** A raw answer in the two loops *)

Section RawAnswer.

Lemma substring_skip (s t : string) (n k : nat) :
  String.substring (String.length s + n) k (s +:+ t) = String.substring n k t.
Proof. induction s as [|c s IH]; simpl; [done | exact IH]. Qed.

Lemma endswith_append (s t suffix : string) :
  (String.length suffix <= String.length t)%nat ->
  PyStr.endswith (s +:+ t) suffix = PyStr.endswith t suffix.
Proof.
  intros Hk. unfold PyStr.endswith. rewrite length_append.
  rewrite (leb_correct _ _ Hk).
  rewrite leb_correct by lia.
  replace (String.length s + String.length t - String.length suffix)%nat
    with (String.length s + (String.length t - String.length suffix))%nat by lia.
  by rewrite substring_skip.
Qed.

Lemma raw_url_endswith (code suffix : string) :
  (String.length suffix <= 4)%nat ->
  PyStr.endswith (raw_url code) suffix = PyStr.endswith ".hgt" suffix.
Proof.
  intros Hk. unfold raw_url.
  rewrite endswith_append by (rewrite length_append; simpl; lia).
  by rewrite endswith_append by (simpl; lia).
Qed.

End RawAnswer.

(** C1 at its failing input: a 200 answer of the third mirror, the raw
    [.hgt] file, for a tile that is not on disk.  The first loop writes
    nothing and goes on to the next mirror; the second loop writes the
    answer to the grid file of the tile and takes it. *)
Theorem raw_answer_dropped_by_first_loop
    (w : World) (code : string) (st : St) (r : Response) :
  files st !! hgt_path code = None ->
  http_get w (length (calls st)) (raw_url code) = Some r ->
  status_code r = 200 ->
  try_url w First code (raw_url code) st =
    (record_call (TileGet code (raw_url code)) st, Ok false) /\
  exists st',
    try_url w Second code (raw_url code) st = (st', Ok true) /\
    files st' !! hgt_path code = Some (content r) /\
    hgt_files st' = hgt_files st ++ [hgt_path code].
Proof.
  intros Hnone Hget Hstatus.
  assert (PyStr.endswith (raw_url code) ".gz" = false) as Egz
    by (by rewrite raw_url_endswith by (simpl; lia)).
  assert (PyStr.endswith (raw_url code) ".zip" = false) as Ezip
    by (by rewrite raw_url_endswith by (simpl; lia)).
  assert (PyStr.endswith (raw_url code) ".hgt" = true) as Ehgt
    by (by rewrite raw_url_endswith by (simpl; lia)).
  split.
  - unfold try_url, catch, bind at 1, call. rewrite Hget; simpl.
    rewrite Hstatus; simpl.
    unfold materialize, accept, bind, exists_; cbv beta zeta.
    rewrite Egz, Ezip; simpl. rewrite Hnone.
    by rewrite bool_decide_eq_false_2 by (by intros [? ?]).
  - set (stw := (write_bytes (hgt_path code) (content r)
                   (record_call (TileGet code (raw_url code)) st)).1).
    assert (files stw !! hgt_path code = Some (content r)) as Hf
      by apply lookup_insert_eq.
    destruct (accept_any_size Second code (raw_url code) stw (content r) Hf)
      as (st' & Ea & Hfs & Hh & _).
    exists st'. split; [| split; [by rewrite Hfs | done]].
    unfold try_url, catch, bind at 1, call. rewrite Hget; simpl.
    rewrite Hstatus; simpl.
    unfold materialize, bind; cbv beta zeta.
    rewrite Egz, Ezip, Ehgt.
    change (write_bytes (hgt_path code) (content r)
              (record_call (TileGet code (raw_url code)) st)) with (stw, Ok tt).
    cbv beta iota. by rewrite Ea.
Qed.

Lemma raw_answer_dropped_by_first_loop_witness :
  try_url raw_only First "S35W072" (raw_url "S35W072") (fresh "Pichilemu") =
    (record_call (TileGet "S35W072" (raw_url "S35W072")) (fresh "Pichilemu"), Ok false) /\
  exists st',
    try_url raw_only Second "S35W072" (raw_url "S35W072") (fresh "Pichilemu")
      = (st', Ok true) /\
    files st' !! hgt_path "S35W072" = Some two_bytes /\
    hgt_files st' = ["S35W072.hgt"].
Proof.
  apply (raw_answer_dropped_by_first_loop raw_only "S35W072" (fresh "Pichilemu")
           (mkResponse 200 two_bytes)); reflexivity.
Defined.

(** The same answer in a whole turn over the mirrors of the tile: the
    first loop asks the five mirrors and gives the tile up, the second
    loop stops at the third mirror with the tile on disk. *)
Example raw_mirror_whole_tile :
  hgt_files (fetch_tile raw_only First "S35W072" (fresh "Pichilemu")).1 = [] /\
  files (fetch_tile raw_only First "S35W072" (fresh "Pichilemu")).1 = ∅ /\
  length (calls (fetch_tile raw_only First "S35W072" (fresh "Pichilemu")).1) = 5%nat /\
  log (fetch_tile raw_only First "S35W072" (fresh "Pichilemu")).1
    = [WarnTileFailed First "S35W072"] /\
  hgt_files (fetch_tile raw_only Second "S35W072" (fresh "Pichilemu")).1
    = ["S35W072.hgt"] /\
  files (fetch_tile raw_only Second "S35W072" (fresh "Pichilemu")).1 !! "S35W072.hgt"
    = Some two_bytes /\
  length (calls (fetch_tile raw_only Second "S35W072" (fresh "Pichilemu")).1) = 3%nat.
Proof. by vm_compute. Qed.

(** ** The administrative service *)

Section Wfs.

Context (w : World).

Lemma download_boundaries_unfold (override : option string) (st : St) :
  download_boundaries w override st =
  let url := wfs_endpoint override in
  let st1 := record_call (WfsGet url (cql_filter (comuna st)))
               (logger InfoWfsStart st).1 in
  match wfs_get w url (cql_filter (comuna st)) with
  | Some response =>
      if wfs_status_code response =? 200
      then ((logger InfoWfsSaved
               (write_bytes "comuna_boundaries.geojson" (wfs_text response) st1).1).1,
            Ok true)
      else ((logger WarnWfsStatus st1).1, Ok false)
  | None => ((logger ErrorWfs st1).1, Ok false)
  end.
Proof.
  unfold download_boundaries, catch, bind, call, get_st; simpl.
  destruct (wfs_get w _ _) as [response|]; simpl; [| done].
  by destruct (wfs_status_code response =? 200).
Qed.

Lemma total_download_boundaries (override : option string) :
  total (download_boundaries w override).
Proof.
  apply total_catch, total_bind; [apply total_logger | intros _; apply total_ret].
Qed.


Lemma total_save_osm_boundary_fallback : total (save_osm_boundary_fallback w).
Proof.
  apply total_bind; [apply total_get_st | intros st].
  destruct (boundary_gdf st) as [gdf|].
  - destruct (gdf_len gdf =? 0)%nat.
    + apply total_bind; [apply total_logger | intros _; apply total_ret].
    + apply total_catch, total_bind; [apply total_logger | intros _; apply total_ret].
  - apply total_bind; [apply total_logger | intros _; apply total_ret].
Qed.


(** The boundary block when the service is asked. *)
Lemma resolve_boundaries_unfold (o : Options) (st st1 : St) (okw : bool) :
  skip_wfs o = false ->
  download_boundaries w (wfs_url o) st = (st1, Ok okw) ->
  resolve_boundaries w o st =
  if okw then (st1, Ok (mkOutcome true false None))
  else
    (okd <~ download_boundaries_dpa_zip w (dpa_url o) (opt_comuna o) ;;
     if okd : bool then ret (mkOutcome false okd None)
     else
       logger InfoUsingOsmFallback ;;
       okf <~ save_osm_boundary_fallback w ;;
       ret (mkOutcome false okd (Some okf)))
      (logger WarnWfsNotDownloaded st1).1.
Proof.
  intros Hskip E. unfold resolve_boundaries. rewrite Hskip.
  unfold bind at 1. unfold bind at 1. rewrite E.
  destruct okw; simpl; [done |].
  unfold bind at 1. simpl. done.
Qed.

Lemma dpa_call_made (url name : string) (st : St) :
  DpaGet url ∈ calls (download_boundaries_dpa_zip w url name st).1.
Proof.
  unfold download_boundaries_dpa_zip, bind at 1, catch, bind at 1, call; simpl.
  set (stc := record_call (DpaGet url) _).
  assert (DpaGet url ∈ calls stc) as Hc.
  { simpl. apply elem_of_app. right. by left. }
  destruct (dpa_get w url) as [r|]; simpl; [| done].
  destruct (negb (status_code r =? 200)); simpl; [done |].
  unfold bind at 1.
  destruct (dpa_extract w (content r) name) as [[geojson|]|]; simpl; done.
Qed.

End Wfs.

Lemma respects_save_osm_boundary_fallback (w : World) :
  respects anything anything anything (save_osm_boundary_fallback w).
Proof. unfold save_osm_boundary_fallback. respects_auto; done. Qed.

(** C9, as the code has it: the query of the administrative service
    succeeds exactly when the request returns with status 200; the body
    is then written as it is to [comuna_boundaries.geojson], and the
    feature collection in it is not looked at.  With the service asked,
    the official archive is tried exactly when the query did not
    succeed. *)
Theorem wfs_success_is_status_200 (w : World) (o : Options) (st : St) :
  skip_wfs o = false ->
  let answer := wfs_get w (wfs_endpoint (wfs_url o)) (cql_filter (comuna st)) in
  let ok := match answer with
            | Some response => wfs_status_code response =? 200
            | None => false
            end in
  (download_boundaries w (wfs_url o) st).2 = Ok ok /\
  files (download_boundaries w (wfs_url o) st).1 !! "comuna_boundaries.geojson" =
    match answer with
    | Some response =>
        if wfs_status_code response =? 200 then Some (wfs_text response)
        else files st !! "comuna_boundaries.geojson"
    | None => files st !! "comuna_boundaries.geojson"
    end /\
  if ok
  then resolve_boundaries w o st =
       ((download_boundaries w (wfs_url o) st).1, Ok (mkOutcome true false None))
  else DpaGet (dpa_url o) ∈ calls (resolve_boundaries w o st).1.
Proof.
  intros Hskip answer ok.
  destruct (total_run _ st (total_download_boundaries w (wfs_url o))) as (st1 & okw & E).
  pose proof (download_boundaries_unfold w (wfs_url o) st) as U.
  rewrite E in U |- *. cbv zeta in U. fold answer in U.
  assert (okw = ok /\
          files st1 !! "comuna_boundaries.geojson" =
            match answer with
            | Some response =>
                if wfs_status_code response =? 200 then Some (wfs_text response)
                else files st !! "comuna_boundaries.geojson"
            | None => files st !! "comuna_boundaries.geojson"
            end) as [-> Hfiles].
  { unfold ok. destruct answer as [response|]; [| by injection U as -> ->].
    destruct (wfs_status_code response =? 200); injection U as -> ->; simpl;
      [by rewrite lookup_insert_eq | done]. }
  simpl. split; [done | split; [done |]].
  rewrite (resolve_boundaries_unfold w o st st1 ok Hskip E).
  destruct ok; [done |].
  set (st2 := (logger WarnWfsNotDownloaded st1).1).
  pose proof (dpa_call_made w (dpa_url o) (opt_comuna o) st2) as Hd.
  unfold bind at 1.
  destruct (download_boundaries_dpa_zip w (dpa_url o) (opt_comuna o) st2)
    as [st3 [[|]|]]; simpl in *; try done.
  eapply frame_calls_mono; [| exact Hd].
  apply (respects_bind anything anything anything); [apply respects_logger | intros _].
  apply respects_bind; [apply respects_save_osm_boundary_fallback | intros okf].
  apply respects_ret.
Qed.

Lemma wfs_success_is_status_200_witness :
  (download_boundaries no_feature (wfs_url ide_srtm) (fresh "Pichilemu")).2 = Ok true /\
  files (download_boundaries no_feature (wfs_url ide_srtm) (fresh "Pichilemu")).1
    !! "comuna_boundaries.geojson" = Some two_bytes /\
  resolve_boundaries no_feature ide_srtm (fresh "Pichilemu") =
    ((download_boundaries no_feature (wfs_url ide_srtm) (fresh "Pichilemu")).1,
     Ok (mkOutcome true false None)).
Proof.
  apply (wfs_success_is_status_200 no_feature ide_srtm (fresh "Pichilemu")).
  reflexivity.
Defined.

(** C9 fails as stated: an answer with status 200 whose feature
    collection is empty counts as a success, and the official archive is
    not asked. *)
Lemma wfs_success_is_status_200_counterexample :
  wfs_get no_feature (wfs_endpoint None) (cql_filter "Pichilemu")
    = Some (mkWfs 200 two_bytes 0) /\
  (download_boundaries no_feature None (fresh "Pichilemu")).2 = Ok true /\
  (resolve_boundaries no_feature ide_srtm (fresh "Pichilemu")).2
    = Ok (mkOutcome true false None) /\
  calls (resolve_boundaries no_feature ide_srtm (fresh "Pichilemu")).1
    = [WfsGet "https://www.ide.cl/geoserver/wfs" "comuna='PICHILEMU'"].
Proof. by vm_compute. Qed.


(** * Further properties of the code *)

(** ** Rules for pre- and postconditions *)

Section Triples.

Lemma triple_ret {A} (P : St -> Prop) (a : A) (Q : A -> St -> Prop) (R : St -> Prop) :
  (forall st, P st -> Q a st) -> triple P (ret a) Q R.
Proof. intros H st HP. by apply H. Qed.

Lemma triple_raise {A} (P : St -> Prop) (Q : A -> St -> Prop) (R : St -> Prop) :
  (forall st, P st -> R st) -> triple P (@raise A) Q R.
Proof. intros H st HP. by apply H. Qed.

Lemma triple_lift {A} (P : St -> Prop) (o : option A) (Q : A -> St -> Prop) (R : St -> Prop) :
  (forall a st, o = Some a -> P st -> Q a st) ->
  (forall st, o = None -> P st -> R st) ->
  triple P (lift o) Q R.
Proof. intros HQ HR st HP. destruct o; simpl; auto. Qed.

Lemma triple_bind {A B} (P : St -> Prop) (m : M A) (k : A -> M B)
    (Qm : A -> St -> Prop) (Q : B -> St -> Prop) (R : St -> Prop) :
  triple P m Qm R -> (forall a, triple (Qm a) (k a) Q R) ->
  triple P (bind m k) Q R.
Proof.
  intros Hm Hk st HP. unfold bind. specialize (Hm st HP).
  destruct (m st) as [st' [a|]]; [by apply Hk | done].
Qed.

Lemma triple_catch {A} (P : St -> Prop) (m h : M A)
    (Q : A -> St -> Prop) (Rm R : St -> Prop) :
  triple P m Q Rm -> triple Rm h Q R -> triple P (catch m h) Q R.
Proof.
  intros Hm Hh st HP. unfold catch. specialize (Hm st HP).
  destruct (m st) as [st' [a|]]; [done | by apply Hh].
Qed.

Lemma triple_conseq {A} (P P' : St -> Prop) (m : M A)
    (Q Q' : A -> St -> Prop) (R R' : St -> Prop) :
  (forall st, P' st -> P st) ->
  (forall a st, Q a st -> Q' a st) ->
  (forall st, R st -> R' st) ->
  triple P m Q R -> triple P' m Q' R'.
Proof.
  intros HP HQ HR Hm st H. specialize (Hm st (HP st H)).
  destruct (m st) as [st' [a|]]; auto.
Qed.

(** A computation that keeps an invariant in all its outcomes. *)
Lemma triple_preserves {A} (I : St -> Prop) (m : M A) :
  preserves I m -> triple I m (fun _ => I) I.
Proof.
  intros Hm st HI. specialize (Hm st HI). by destruct (m st) as [st' [a|]].
Qed.

Lemma preserves_catch (I : St -> Prop) {A} (m h : M A) :
  preserves I m -> preserves I h -> preserves I (catch m h).
Proof.
  intros Hm Hh st HI. unfold catch. specialize (Hm st HI).
  destruct (m st) as [st' [a|]]; simpl in *; [done | by apply Hh].
Qed.


End Triples.

(** ** The order of the mirrors *)

Lemma frame_nothing_calls (W : string -> Prop) (H : string -> Prop) (st st' : St) :
  frame W nothing H st st' -> calls st' = calls st.
Proof.
  intros [_ _ _ (cs & -> & Fc) _ _].
  destruct cs as [|c cs]; [by rewrite app_nil_r | by inversion Fc].
Qed.

Lemma frame_nothing_hgt (W : string -> Prop) (C : Call -> Prop) (st st' : St) :
  frame W C nothing st st' -> hgt_files st' = hgt_files st.
Proof.
  intros [_ _ _ _ _ (hs & -> & Fh)].
  destruct hs as [|h hs]; [by rewrite app_nil_r | by inversion Fh].
Qed.

Section MirrorOrder.

Context (w : World).

(** [accept] looks at the disk only: it takes the tile exactly when its
    file is there. *)
Lemma accept_spec (p : Pass) (code url : string) (st : St) :
  exists st',
    accept p code url st =
      (st', Ok (bool_decide (is_Some (files st !! hgt_path code)))) /\
    calls st' = calls st /\ files st' = files st /\
    hgt_files st' =
      hgt_files st ++
      (if bool_decide (is_Some (files st !! hgt_path code))
       then [hgt_path code] else []).
Proof.
  destruct (files st !! hgt_path code) as [data|] eqn:E.
  - destruct (accept_any_size p code url st data E) as (st' & Ea & Hf & Hh & _).
    exists st'. rewrite bool_decide_eq_true_2 by done.
    repeat split; try done.
    pose proof (respects_accept p code url st) as Hfr. rewrite Ea in Hfr.
    by apply (frame_nothing_calls _ _ _ _ Hfr).
  - exists st. rewrite bool_decide_eq_false_2 by (by intros [? ?]).
    unfold accept, bind, exists_; cbv beta zeta. rewrite E.
    rewrite bool_decide_eq_false_2 by (by intros [? ?]).
    by rewrite app_nil_r.
Qed.

(** One turn of the loop over the mirrors makes one request, and puts
    the tile on the list exactly when it answers [true]. *)
Lemma try_url_exact (p : Pass) (code url : string) (st : St) :
  exists st' d,
    try_url w p code url st = (st', Ok d) /\
    calls st' = calls st ++ [TileGet code url] /\
    hgt_files st' = hgt_files st ++ (if d : bool then [hgt_path code] else []) /\
    (d = true -> is_Some (files st' !! hgt_path code)).
Proof.
  unfold try_url, catch, bind, call.
  set (stc := record_call (TileGet code url) st).
  destruct (http_get w (length (calls st)) url) as [r|]; simpl;
    [| exists stc, false; by rewrite app_nil_r].
  destruct (negb (status_code r =? 200)); simpl;
    [exists stc, false; by rewrite app_nil_r |].
  pose proof (respects_materialize w p code url r stc) as Hm.
  destruct (materialize w p code url r stc) as [stm [[]|]]; simpl in *.
  - destruct (accept_spec p code url stm) as (sta & Ea & Hc & Hf & Hh).
    rewrite Ea. exists sta, (bool_decide (is_Some (files stm !! hgt_path code))).
    split; [done |]. rewrite Hc, Hh, Hf.
    rewrite (frame_nothing_calls _ _ _ _ Hm), (frame_nothing_hgt _ _ _ _ Hm).
    repeat split; try done. by intros ?%bool_decide_eq_true.
  - exists stm, false.
    rewrite (frame_nothing_calls _ _ _ _ Hm), (frame_nothing_hgt _ _ _ _ Hm).
    by rewrite app_nil_r.
Qed.

Lemma try_urls_exact (p : Pass) (code : string) (urls : list string) (st : St) :
  exists st' d n,
    try_urls w p code urls st = (st', Ok d) /\
    calls st' = calls st ++ map (TileGet code) (take n urls) /\
    hgt_files st' = hgt_files st ++ (if d : bool then [hgt_path code] else []) /\
    (if d then (1 <= n <= length urls)%nat /\ is_Some (files st' !! hgt_path code)
     else n = length urls).
Proof.
  revert st. induction urls as [|url rest IH]; intros st; simpl.
  - exists st, false, 0%nat. by rewrite !app_nil_r.
  - destruct (try_url_exact p code url st) as (st1 & d1 & E1 & Hc1 & Hh1 & Hf1).
    rewrite (bind_ok _ _ _ _ _ E1). destruct d1.
    + exists st1, true, 1%nat. simpl. destruct rest; simpl;
        (repeat split; try done; try lia; by apply Hf1).
    + destruct (IH st1) as (st2 & d2 & n & E2 & Hc2 & Hh2 & Hn).
      exists st2, d2, (S n). split; [done |].
      rewrite Hc2, Hc1, Hh2, Hh1, app_nil_r, <- app_assoc. simpl.
      repeat split; try done.
      destruct d2; [| by rewrite Hn]. destruct Hn as [[? ?] ?].
      repeat split; try done; lia.
Qed.

(** A member that cannot be read stops the extraction before anything
    is written. *)
Lemma extract_hgt_raised (base : string) members (st st' : St) :
  extract_hgt base members st = (st', Raised) -> st' = st.
Proof.
  induction members as [|[member data] rest IH]; simpl; [done |].
  destruct (PyStr.endswith _ _); [| done].
  destruct data; [done |]. by intros [= <-].
Qed.

(** When [materialize] raises, the grid file of the tile is as it
    was. *)
Lemma materialize_raised (p : Pass) (code url : string) (r : Response) (st st' : St) :
  materialize w p code url r st = (st', Raised) ->
  files st' !! hgt_path code = files st !! hgt_path code.
Proof.
  assert (hgt_path code <> code +:+ ".hgt.gz") as Ngz.
  { unfold hgt_path. apply (append_last_ne code code ".hg" ".hgt.g" "t" "z"). done. }
  assert (hgt_path code <> code +:+ ".zip") as Nzip.
  { unfold hgt_path. apply (append_last_ne code code ".hg" ".zi" "t" "p"). done. }
  unfold materialize; cbv zeta.
  destruct (PyStr.endswith url ".gz"); [| destruct (PyStr.endswith url ".zip")].
  - unfold bind, write_bytes, set_files, gzip_read, read_bytes, bind, unlink, set_files;
      cbn [fst snd files]. rewrite lookup_insert_eq. cbn [lift ret].
    destruct (gunzip w (content r)) as [raw|]; cbn [lift ret raise fst snd files];
      [done |].
    intros [= <-]. cbn [files]. by rewrite lookup_insert_ne.
  - unfold bind at 1 2 3, write_bytes at 1, set_files at 1, read_bytes;
      cbn [fst snd files]. rewrite lookup_insert_eq. cbn [lift ret].
    destruct (unzip w (content r)) as [members|]; cbn [lift ret raise fst snd files].
    + set (st1 := {| comuna := _ |}).
      unfold bind.
      destruct (extract_hgt (hgt_path code) members st1) as [st2 [[]|]] eqn:Ex;
        [done |].
      intros [= <-]. rewrite (extract_hgt_raised _ _ _ _ Ex). unfold st1; cbn [files].
      by rewrite lookup_insert_ne.
    + intros [= <-]. cbn [files]. by rewrite lookup_insert_ne.
  - destruct p; [done |]. by destruct (PyStr.endswith url ".hgt").
Qed.

(** A turn that answers [false] leaves the grid file missing. *)
Lemma try_url_false (p : Pass) (code url : string) (st st1 : St) :
  files st !! hgt_path code = None ->
  try_url w p code url st = (st1, Ok false) ->
  files st1 !! hgt_path code = None.
Proof.
  intros Hnone. unfold try_url, catch, bind, call.
  set (stc := record_call (TileGet code url) st).
  destruct (http_get w (length (calls st)) url) as [r|]; simpl;
    [| by intros [= <-]].
  destruct (negb (status_code r =? 200)); simpl; [by intros [= <-] |].
  destruct (materialize w p code url r stc) as [stm [[]|]] eqn:Em; simpl in *.
  - destruct (accept_spec p code url stm) as (sta & Ea & Hc & Hf & Hh).
    rewrite Ea. intros [= <- Hd]. rewrite Hf.
    apply bool_decide_eq_false in Hd.
    destruct (files stm !! hgt_path code); [exfalso; apply Hd; eauto | done].
  - intros [= <-]. by rewrite (materialize_raised _ _ _ _ _ _ Em).
Qed.

Lemma turns_cons (p : Pass) (code url : string) (rest : list string) (st st1 : St)
    (d : bool) :
  try_url w p code url st = (st1, Ok d) ->
  turns w p code (url :: rest) st = turns w p code rest st1.
Proof. intros E. simpl. by rewrite (bind_ok _ _ _ _ _ E). Qed.

(** The loop stops at the first mirror whose turn leaves the grid file
    on disk. *)
Lemma try_urls_first (p : Pass) (code : string) (urls : list string) (st : St) :
  files st !! hgt_path code = None ->
  exists st' d n,
    try_urls w p code urls st = (st', Ok d) /\
    calls st' = calls st ++ map (TileGet code) (take n urls) /\
    hgt_files st' = hgt_files st ++ (if d : bool then [hgt_path code] else []) /\
    (if d then (1 <= n <= length urls)%nat /\ is_Some (files st' !! hgt_path code)
     else n = length urls /\ files st' !! hgt_path code = None) /\
    turns w p code (take n urls) st = (st', Ok tt) /\
    (forall k, (k < n)%nat ->
       files (turns w p code (take k urls) st).1 !! hgt_path code = None).
Proof.
  revert st. induction urls as [|url rest IH]; intros st Hnone.
  - exists st, false, 0%nat. simpl. rewrite !app_nil_r.
    repeat split; try done. intros k Hk. lia.
  - destruct (try_url_exact p code url st) as (st1 & d1 & E1 & Hc1 & Hh1 & Hf1).
    cbn [try_urls]. rewrite (bind_ok _ _ _ _ _ E1). destruct d1.
    + exists st1, true, 1%nat.
      assert (take 1 (url :: rest) = [url]) as -> by (by destruct rest).
      rewrite (turns_cons _ _ _ _ _ _ _ E1).
      split; [done |]. split; [exact Hc1 |]. split; [exact Hh1 |].
      split; [split; [simpl; lia | by apply Hf1] |]. split; [done |].
      intros k Hk. assert (k = 0%nat) as -> by lia. by rewrite take_0.
    + pose proof (try_url_false p code url st st1 Hnone E1) as Hnone1.
      destruct (IH st1 Hnone1) as (st2 & d2 & n & E2 & Hc2 & Hh2 & Hn & Ht & Hk).
      exists st2, d2, (S n). split; [done |].
      change (take (S n) (url :: rest)) with (url :: take n rest).
      rewrite (turns_cons _ _ _ _ _ _ _ E1).
      rewrite Hc2, Hc1, Hh2, Hh1, app_nil_r, <- app_assoc.
      split; [done |]. split; [done |]. split; [| split; [done |]].
      * destruct d2; [| destruct Hn as [-> ?]; by split].
        destruct Hn as [[? ?] ?]. repeat split; try done; simpl; lia.
      * intros [|k] Hlt; [by rewrite take_0 |].
        change (take (S k) (url :: rest)) with (url :: take k rest).
        rewrite (turns_cons _ _ _ _ _ _ _ E1). apply Hk. lia.
Qed.

End MirrorOrder.

(** X1: for a tile whose file is not on disk, one turn of either tile
    loop asks the mirrors in the listed order, each at most once, and
    stops at the first mirror whose turn leaves the file of the tile on
    disk: the calls made are those for the first [n] of the five
    mirrors, the directory is the one the turns on these [n] mirrors
    leave, and after each smaller number of turns the file is still
    missing.  If a mirror gave the file, the tile is put on [hgt_files]
    once; otherwise all five mirrors were asked, the file is still
    missing, and a warning is logged. *)
Theorem mirrors_asked_in_order (w : World) (p : Pass) (code : string) (st : St) :
  files st !! hgt_path code = None ->
  exists (n : nat) (d : bool),
    (fetch_tile w p code st).2 = Ok tt /\
    calls (fetch_tile w p code st).1 =
      calls st ++ map (TileGet code) (take n (mirror_urls code)) /\
    hgt_files (fetch_tile w p code st).1 =
      hgt_files st ++ (if d then [hgt_path code] else []) /\
    (if d
     then (1 <= n <= 5)%nat /\
          is_Some (files (fetch_tile w p code st).1 !! hgt_path code)
     else n = 5%nat /\
          last (log (fetch_tile w p code st).1) = Some (WarnTileFailed p code) /\
          files (fetch_tile w p code st).1 !! hgt_path code = None) /\
    files (fetch_tile w p code st).1 =
      files (turns w p code (take n (mirror_urls code)) st).1 /\
    (forall k : nat,
        (k < n)%nat ->
        files (turns w p code (take k (mirror_urls code)) st).1 !! hgt_path code
          = None).
Proof.
  intros Hnone.
  destruct (try_urls_first w p code (mirror_urls code) st Hnone)
    as (st1 & d & n & E & Hc & Hh & Hn & Ht & Hk).
  exists n, d.
  assert (fetch_tile w p code st =
          (if d then ret tt else logger (WarnTileFailed p code)) st1) as ->.
  { unfold fetch_tile, bind at 1, exists_; cbv beta zeta. rewrite Hnone.
    rewrite bool_decide_eq_false_2 by (by intros [? ?]).
    by rewrite (bind_ok _ _ _ _ _ E). }
  rewrite Ht. destruct d; simpl.
  - rewrite Hc, Hh. repeat split; try done; apply Hn.
  - rewrite Hc, Hh. destruct Hn as [Hn5 Hf].
    repeat split; try done. apply last_snoc.
Qed.

Lemma mirrors_asked_in_order_witness :
  exists (n : nat) (d : bool),
    (fetch_tile raw_only Second "S35W072" (fresh "Pichilemu")).2 = Ok tt /\
    calls (fetch_tile raw_only Second "S35W072" (fresh "Pichilemu")).1 =
      calls (fresh "Pichilemu") ++
      map (TileGet "S35W072") (take n (mirror_urls "S35W072")) /\
    hgt_files (fetch_tile raw_only Second "S35W072" (fresh "Pichilemu")).1 =
      hgt_files (fresh "Pichilemu") ++ (if d then [hgt_path "S35W072"] else []) /\
    (if d
     then (1 <= n <= 5)%nat /\
          is_Some (files (fetch_tile raw_only Second "S35W072" (fresh "Pichilemu")).1
                     !! hgt_path "S35W072")
     else n = 5%nat /\
          last (log (fetch_tile raw_only Second "S35W072" (fresh "Pichilemu")).1)
            = Some (WarnTileFailed Second "S35W072") /\
          files (fetch_tile raw_only Second "S35W072" (fresh "Pichilemu")).1
            !! hgt_path "S35W072" = None) /\
    files (fetch_tile raw_only Second "S35W072" (fresh "Pichilemu")).1 =
      files (turns raw_only Second "S35W072" (take n (mirror_urls "S35W072"))
               (fresh "Pichilemu")).1 /\
    (forall k : nat,
        (k < n)%nat ->
        files (turns raw_only Second "S35W072" (take k (mirror_urls "S35W072"))
                 (fresh "Pichilemu")).1 !! hgt_path "S35W072" = None).
Proof.
  apply (mirrors_asked_in_order raw_only Second "S35W072" (fresh "Pichilemu")).
  reflexivity.
Defined.


(** ** The calls of the elevation stage *)

Section PlannedCalls.

Context (w : World).

Lemma calls_from_refl (C : Call -> Prop) (st : St) : calls_from (calls st) C st.
Proof. exists []. by rewrite app_nil_r. Qed.

Lemma frame_calls_from W C C' H (c0 : list Call) (st st' : St) :
  (forall c, C c -> C' c) ->
  frame W C H st st' -> calls_from c0 C' st -> calls_from c0 C' st'.
Proof.
  intros HC [_ _ _ (cs & Hc & Fc) _ _] (cs0 & H0 & F0).
  exists (cs0 ++ cs). split; [by rewrite Hc, H0, app_assoc |].
  apply Forall_app. split; [done |]. eapply Forall_impl; eauto.
Qed.

Lemma respects_calls_from {A} W C C' H (c0 : list Call) (m : M A) :
  (forall c, C c -> C' c) ->
  respects W C H m -> preserves (calls_from c0 C') m.
Proof. intros HC Hm st. by apply (frame_calls_from W C C' H). Qed.

(** One turn of a tile loop asks mirrors of its tile only. *)
Lemma fetch_tile_calls (p : Pass) (code : string) (st : St) :
  exists n, calls (fetch_tile w p code st).1 =
            calls st ++ map (TileGet code) (take n (mirror_urls code)).
Proof.
  destruct (files st !! hgt_path code) as [data|] eqn:E.
  - exists 0%nat. rewrite (fetch_tile_existing w code p st data E). simpl.
    by rewrite app_nil_r.
  - destruct (try_urls_exact w p code (mirror_urls code) st)
      as (st1 & d & n & E1 & Hc & _).
    exists n. unfold fetch_tile, bind at 1, exists_; cbv beta zeta. rewrite E.
    rewrite bool_decide_eq_false_2 by (by intros [? ?]).
    rewrite (bind_ok _ _ _ _ _ E1). by destruct d.
Qed.

Context (b : BBox) (Cplan : Call -> Prop).
Hypothesis planned_in_C : forall c, planned_request b c -> Cplan c.

Lemma planned_fetch_tile (c0 : list Call) (p : Pass) (code : string) :
  code ∈ codes b \/ code ∈ full_codes b ->
  preserves (calls_from c0 Cplan) (fetch_tile w p code).
Proof.
  intros Hin st (cs0 & H0 & F0).
  destruct (fetch_tile_calls p code st) as (n & Hc).
  exists (cs0 ++ map (TileGet code) (take n (mirror_urls code))).
  split; [by rewrite Hc, H0, app_assoc |].
  apply Forall_app. split; [done |].
  apply Forall_forall. intros c (url & -> & Hu)%list_elem_of_fmap.
  apply planned_in_C. exists code, url. repeat split; [done |].
  eapply subseteq_take, Hu.
Qed.

Lemma planned_fetch_tiles (c0 : list Call) (p : Pass) (cs : list string) :
  (forall code, code ∈ cs -> code ∈ codes b \/ code ∈ full_codes b) ->
  preserves (calls_from c0 Cplan) (fetch_tiles w p cs).
Proof.
  induction cs as [|c rest IH]; intros Hcs; simpl; [apply preserves_ret |].
  apply preserves_bind; [apply planned_fetch_tile, Hcs; by left | intros _].
  apply IH. intros code Hin. apply Hcs. by right.
Qed.

Lemma respects_forced_download_exact :
  respects (tile_paths (code_force b))
    (eq (TileGet (code_force b) (mapzen_url b)))
    (eq (hgt_path (code_force b))) (forced_download w b).
Proof.
  unfold forced_download; cbv zeta.
  respects_auto; try apply respects_gzip_read; unfold tile_paths; eauto.
Qed.

Lemma mapzen_url_mirror : mapzen_url b ∈ mirror_urls (code_force b).
Proof. unfold mirror_urls, mapzen_url. do 4 right. left. Qed.

Lemma planned_acquire_tiles (c0 : list Call) :
  preserves (calls_from c0 Cplan) (acquire_tiles w b).
Proof.
  unfold acquire_tiles.
  repeat (apply preserves_bind; [by intros st | intros _]).
  apply preserves_bind; [apply planned_fetch_tiles; by left | intros _].
  apply preserves_bind; [| intros _].
  { unfold retry_full_range.
    apply preserves_bind; [apply preserves_get_st | intros st].
    destruct (hgt_files st); [| apply preserves_ret].
    repeat (apply preserves_bind; [by intros s | intros _]).
    apply planned_fetch_tiles; by right. }
  apply preserves_bind; [apply preserves_get_st | intros st].
  destruct (hgt_files st); [| apply preserves_ret].
  apply preserves_bind; [by intros s | intros _].
  eapply respects_calls_from; [| apply respects_forced_download_exact].
  intros c <-. apply planned_in_C. exists (code_force b), (mapzen_url b).
  repeat split; [left; apply code_force_planned | apply mapzen_url_mirror].
Qed.

Lemma respects_read_all W C H (paths : list string) : respects W C H (read_all paths).
Proof.
  induction paths as [|p rest IH]; simpl; [apply respects_ret |].
  respects_auto. exact IH.
Qed.

Lemma respects_reproject_dem (dem_path : string) (epsg : Z) :
  respects anything nothing nothing (_reproject_dem w dem_path epsg).
Proof. unfold _reproject_dem; cbv zeta. respects_auto; done. Qed.

Lemma respects_mosaic_and_clip (boundary : GeoDataFrame) :
  respects anything nothing nothing (mosaic_and_clip w boundary).
Proof.
  unfold mosaic_and_clip; cbv zeta.
  apply respects_catch; [| respects_auto].
  apply respects_bind; [apply respects_get_st | intros st].
  apply respects_bind; [| intros _].
  - destruct (hgt_files st) as [|t [|t' rest]].
    + respects_auto; try apply (respects_read_all _ _ _ []); done.
    + respects_auto; done.
    + respects_auto; try apply respects_read_all; done.
  - apply respects_bind; [| intros _; apply respects_ret].
    apply respects_catch; [apply respects_reproject_dem | apply respects_ret].
Qed.

Lemma respects_copernicus_fallback (boundary : GeoDataFrame) :
  respects anything (eq (StacSearch (bbox_buf (total_bounds boundary)))) nothing
    (copernicus_fallback w boundary).
Proof.
  unfold copernicus_fallback; cbv zeta.
  apply respects_catch; [| respects_auto].
  apply respects_bind; [by apply respects_call | intros items].
  destruct items as [|item rest]; [respects_auto |].
  apply respects_bind; [apply respects_lift | intros clipped].
  apply respects_bind; [by apply respects_write_bytes | intros _].
  apply respects_bind; [apply respects_logger | intros _].
  apply respects_bind; [| intros _; apply respects_ret].
  apply respects_catch; [| apply respects_ret].
  eapply respects_weaken; [| | | apply respects_reproject_dem]; done.
Qed.

End PlannedCalls.

(** X2: every recorded request [download_srtm_tiles] makes is a request
    for a tile of the corner plan or of the full range of the boundary
    it loaded, sent to one of the five mirrors of that tile, or the
    search of the catalog over the box of that boundary widened by 0.05
    degrees; no request goes to the administrative service or to the
    official archive.  With no boundary, or an empty one, no tile is
    requested and the catalog is not searched.  Geocoding the region
    name, opening the catalog, signing an item and reading its asset
    are not recorded, and this says nothing of them. *)
Theorem elevation_calls_planned (w : World) (st : St) :
  exists cs,
    calls (download_srtm_tiles w st).1 = calls st ++ cs /\
    forall c, c ∈ cs ->
      exists boundary,
        _load_boundary_for_dem w st = Some boundary /\
        gdf_empty boundary = false /\
        elevation_call boundary c.
Proof.
  unfold download_srtm_tiles, bind at 1, get_st.
  destruct (_load_boundary_for_dem w st) as [boundary|];
    [| exists []; split; [by rewrite app_nil_r | by inversion 1]].
  destruct (gdf_empty boundary) eqn:Hne;
    [exists []; split; [by rewrite app_nil_r | by inversion 1] |].
  assert (preserves (calls_from (calls st) (elevation_call boundary))
            (acquire_tiles w (total_bounds boundary) ;;
             st1 <~ get_st ;;
             match hgt_files st1 with
             | [] => copernicus_fallback w boundary
             | _ :: _ => mosaic_and_clip w boundary
             end)) as Hp.
  { apply preserves_bind; [| intros _].
    - apply planned_acquire_tiles. intros c Hc. by left.
    - apply preserves_bind; [apply preserves_get_st | intros st1].
      destruct (hgt_files st1).
      + eapply respects_calls_from; [| apply respects_copernicus_fallback].
        intros c <-. by right.
      + eapply respects_calls_from; [| apply respects_mosaic_and_clip]. done. }
  destruct (Hp st (calls_from_refl _ st)) as (cs & Hc & Fc).
  exists cs. split; [done |]. intros c Hin. exists boundary.
  repeat split; try done. rewrite Forall_forall in Fc. by apply Fc.
Qed.

(** ** The final rasters *)

Section FinalRasters.

Context (w : World) (v c : option bytes).

Lemma respects_final_kept {A} W C H (m : M A) :
  respects W C H m -> ~ W "srtm_dem.tif" -> ~ W "copernicus_dem.tif" ->
  preserves (final_kept v c) m.
Proof.
  intros Hm H1 H2 st [Hv Hc]. pose proof (Hm st) as Hf. split.
  - by rewrite (frame_files _ _ _ _ _ Hf).
  - by rewrite (frame_files _ _ _ _ _ Hf).
Qed.

Lemma respects_srtm_written {A} W C H (m : M A) :
  respects W C H m -> ~ W "srtm_dem.tif" -> ~ W "copernicus_dem.tif" ->
  preserves (srtm_written c) m.
Proof.
  intros Hm H1 H2 st [Hv Hc]. pose proof (Hm st) as Hf. split.
  - by rewrite (frame_files _ _ _ _ _ Hf).
  - by rewrite (frame_files _ _ _ _ _ Hf).
Qed.

Lemma respects_copernicus_written {A} W C H (m : M A) :
  respects W C H m -> ~ W "srtm_dem.tif" -> ~ W "copernicus_dem.tif" ->
  preserves (copernicus_written v) m.
Proof.
  intros Hm H1 H2 st [Hv Hc]. pose proof (Hm st) as Hf. split.
  - by rewrite (frame_files _ _ _ _ _ Hf).
  - by rewrite (frame_files _ _ _ _ _ Hf).
Qed.

(** The reprojection writes the sibling file only. *)
Lemma respects_reproject_srtm :
  respects (eq "srtm_dem_32719.tif") nothing nothing
    (_reproject_dem w "srtm_dem.tif" 32719).
Proof. unfold _reproject_dem; cbv zeta. respects_auto; by vm_compute. Qed.

Lemma respects_reproject_copernicus :
  respects (eq "copernicus_dem_32719.tif") nothing nothing
    (_reproject_dem w "copernicus_dem.tif" 32719).
Proof. unfold _reproject_dem; cbv zeta. respects_auto; by vm_compute. Qed.

Lemma srtm_not_tile_file (code : string) : ~ tile_paths code "srtm_dem.tif".
Proof.
  unfold tile_paths, hgt_path. intros [E | [E | E]]; symmetry in E.
  - by apply (append_last_ne code "srtm_dem" ".hg" ".ti" "t" "f") in E.
  - by apply (append_last_ne code "srtm_dem" ".hgt.g" ".ti" "z" "f") in E.
  - by apply (append_last_ne code "srtm_dem" ".zi" ".ti" "p" "f") in E.
Qed.

(** A step that keeps a predicate [I], inside a longer computation. *)
Lemma triple_keep {A B} (I : St -> Prop) (m : M A) (k : A -> M B)
    (Q : B -> St -> Prop) (R : St -> Prop) :
  preserves I m -> (forall st, I st -> R st) ->
  (forall a, triple I (k a) Q R) ->
  triple I (bind m k) Q R.
Proof.
  intros Hm HR Hk. apply triple_bind with (Qm := fun _ => I); [| done].
  eapply triple_conseq; [| | | apply triple_preserves, Hm]; auto.
Qed.

Lemma triple_write_srtm (data : bytes) (R : St -> Prop) :
  triple (final_kept v c) (write_bytes "srtm_dem.tif" data)
    (fun _ => srtm_written c) R.
Proof.
  intros st [Hv Hc]. unfold write_bytes, set_files. split; simpl.
  - rewrite lookup_insert_eq. by eexists.
  - by rewrite lookup_insert_ne.
Qed.

Lemma triple_write_copernicus (data : bytes) (R : St -> Prop) :
  triple (final_kept v c) (write_bytes "copernicus_dem.tif" data)
    (fun _ => copernicus_written v) R.
Proof.
  intros st [Hv Hc]. unfold write_bytes, set_files. split; simpl.
  - by rewrite lookup_insert_ne.
  - rewrite lookup_insert_eq. by eexists.
Qed.

(** A step that cannot raise and keeps [I]. *)
Lemma triple_total {A} (I : St -> Prop) (m : M A) (R : St -> Prop) :
  preserves I m -> total m -> triple I m (fun _ => I) R.
Proof.
  intros Hp Ht st HI. specialize (Hp st HI). destruct (Ht st) as [a Ha].
  destruct (m st) as [st' [a'|]]; simpl in *; [done | discriminate].
Qed.

Ltac keep_final W :=
  apply triple_keep;
  [ eapply (respects_final_kept W anything anything); [respects_auto | |]; try done;
    try (by intros []); try apply respects_read_all
  | done
  | intros ? ].

Lemma total_tail_multi :
  total (unlink "srtm_mosaic_tmp.tif" ;; logger InfoMosaicSaved).
Proof. apply total_bind; [by intros s; exists tt | intros _; apply total_logger]. Qed.

(** The mosaic stage ends with the raster written, or with the final
    rasters untouched and the answer [False]. *)
Lemma mosaic_and_clip_spec (boundary : GeoDataFrame) :
  triple (final_kept v c) (mosaic_and_clip w boundary)
    (fun ok st => if ok : bool then srtm_written c st else final_kept v c st)
    (fun _ => False).
Proof.
  unfold mosaic_and_clip; cbv zeta.
  apply triple_catch with (Rm := final_kept v c).
  2:{ apply triple_bind with (Qm := fun _ => final_kept v c).
      - apply triple_total; [by intros st | apply total_logger].
      - intros _. by apply triple_ret. }
  apply triple_keep; [by intros st | done | intros st].
  apply triple_bind with (Qm := fun _ => srtm_written c).
  - destruct (hgt_files st) as [|t [|t' rest]].
    + keep_final (@nothing string). keep_final (@nothing string).
      keep_final (@nothing string). keep_final (eq "srtm_mosaic_tmp.tif").
      keep_final (@nothing string).
      apply triple_bind with (Qm := fun _ => srtm_written c);
        [apply triple_write_srtm | intros _].
      apply triple_total; [| apply total_tail_multi].
      eapply (respects_srtm_written (eq "srtm_mosaic_tmp.tif") anything anything); [respects_auto | |]; done.
    + keep_final (@nothing string). keep_final (@nothing string).
      keep_final (@nothing string).
      apply triple_bind with (Qm := fun _ => srtm_written c);
        [apply triple_write_srtm | intros _].
      apply triple_total; [by intros s | apply total_logger].
    + keep_final (@nothing string). keep_final (@nothing string).
      keep_final (@nothing string). keep_final (eq "srtm_mosaic_tmp.tif").
      keep_final (@nothing string).
      apply triple_bind with (Qm := fun _ => srtm_written c);
        [apply triple_write_srtm | intros _].
      apply triple_total; [| apply total_tail_multi].
      eapply (respects_srtm_written (eq "srtm_mosaic_tmp.tif") anything anything); [respects_auto | |]; done.
  - intros _.
    apply triple_bind with (Qm := fun _ => srtm_written c).
    + apply triple_total; [| apply total_catch, total_ret].
      apply preserves_catch; [| by intros s].
      eapply respects_srtm_written; [apply respects_reproject_srtm | |]; done.
    + intros _. by apply triple_ret.
Qed.

(** The catalog branch ends with the satellite raster written, or with
    the final rasters untouched and the answer [False]. *)
Lemma copernicus_fallback_spec (boundary : GeoDataFrame) :
  triple (final_kept v c) (copernicus_fallback w boundary)
    (fun ok st => if ok : bool then copernicus_written v st else final_kept v c st)
    (fun _ => False).
Proof.
  unfold copernicus_fallback; cbv zeta.
  apply triple_catch with (Rm := final_kept v c).
  2:{ apply triple_bind with (Qm := fun _ => final_kept v c).
      - apply triple_total; [by intros st | apply total_logger].
      - intros _. by apply triple_ret. }
  apply triple_keep; [| done | intros items].
  { eapply (respects_final_kept (@nothing string) anything anything);
      [| by intros [] | by intros []].
    by apply respects_call. }
  destruct items as [|item rest].
  - apply triple_keep; [by intros st | done | intros _]. by apply triple_ret.
  - keep_final (@nothing string).
    apply triple_bind with (Qm := fun _ => copernicus_written v);
      [apply triple_write_copernicus | intros _].
    apply triple_bind with (Qm := fun _ => copernicus_written v).
    { apply triple_total; [by intros s | apply total_logger]. }
    intros _.
    apply triple_bind with (Qm := fun _ => copernicus_written v).
    + apply triple_total; [| apply total_catch, total_ret].
      apply preserves_catch; [| by intros s].
      eapply respects_copernicus_written; [apply respects_reproject_copernicus | |]; done.
    + intros _. by apply triple_ret.
Qed.

End FinalRasters.

Lemma final_kept_acquire_tiles (w : World) (v c : option bytes) (b : BBox) :
  preserves (final_kept v c) (acquire_tiles w b).
Proof.
  intros st [Hv Hc]. split.
  - by apply (kept_acquire_tiles w "srtm_dem.tif" v srtm_not_tile_file b st).
  - by apply (kept_acquire_tiles w "copernicus_dem.tif" c copernicus_not_tile_file b st).
Qed.

Lemma download_srtm_tiles_spec (w : World) (v c : option bytes) :
  triple (final_kept v c) (download_srtm_tiles w)
    (fun ok st =>
       if ok : bool then srtm_written c st \/ copernicus_written v st
       else final_kept v c st)
    (fun _ => False).
Proof.
  unfold download_srtm_tiles.
  apply triple_bind with (Qm := fun st0 st => final_kept v c st); [by intros st | intros st0].
  assert (triple (final_kept v c) (logger WarnNoBoundary ;; ret false)
            (fun ok st =>
               if ok : bool then srtm_written c st \/ copernicus_written v st
               else final_kept v c st)
            (fun _ => False)) as Hwarn.
  { apply triple_bind with (Qm := fun _ => final_kept v c); [by intros st |].
    intros _. by apply triple_ret. }
  destruct (_load_boundary_for_dem w st0) as [boundary|]; [| done].
  destruct (gdf_empty boundary); [done |].
  apply triple_bind with (Qm := fun _ => final_kept v c).
  { apply triple_total; [apply final_kept_acquire_tiles | apply total_acquire_tiles]. }
  intros _.
  apply triple_bind with (Qm := fun _ => final_kept v c); [by intros st | intros st1].
  destruct (hgt_files st1).
  - eapply triple_conseq; [| | | apply copernicus_fallback_spec]; try done.
    intros [|] s1; simpl; auto.
  - eapply triple_conseq; [| | | apply mosaic_and_clip_spec]; try done.
    intros [|] s1; simpl; auto.
Qed.

(** X3: for a boundary whose bounds are finite numbers, as every box
    of this development is, [download_srtm_tiles] does not raise.  When
    it returns [True], it has written [srtm_dem.tif] (leaving
    [copernicus_dem.tif] as it was) or [copernicus_dem.tif] (leaving
    [srtm_dem.tif] as it was); when it returns [False], both files are
    as they were before the call.  Writing a file that has been
    computed is taken to succeed.  A frame with a row and bounds that
    are NaN or infinite is outside the statement: [math.floor] raises
    on it where the plan begins, outside every [try], before any
    request or write. *)
Theorem elevation_result_and_rasters (w : World) (st : St) :
  match (download_srtm_tiles w st).2 with
  | Ok true =>
      (is_Some (files (download_srtm_tiles w st).1 !! "srtm_dem.tif") /\
       files (download_srtm_tiles w st).1 !! "copernicus_dem.tif"
         = files st !! "copernicus_dem.tif") \/
      (is_Some (files (download_srtm_tiles w st).1 !! "copernicus_dem.tif") /\
       files (download_srtm_tiles w st).1 !! "srtm_dem.tif"
         = files st !! "srtm_dem.tif")
  | Ok false =>
      files (download_srtm_tiles w st).1 !! "srtm_dem.tif"
        = files st !! "srtm_dem.tif" /\
      files (download_srtm_tiles w st).1 !! "copernicus_dem.tif"
        = files st !! "copernicus_dem.tif"
  | Raised => False
  end.
Proof.
  pose proof (download_srtm_tiles_spec w _ _ st (conj eq_refl eq_refl)) as H.
  destruct (download_srtm_tiles w st) as [st' [[|]|]]; simpl; [| done | done].
  destruct H as [[H1 H2] | [H1 H2]]; [left | right]; done.
Qed.

(** ** A tile left by the forced attempt *)

(** X4: a grid of at most 1,000,000 bytes that the forced attempt gets
    is written to the grid file of the tile and left off [hgt_files];
    the next run over that directory finds the file, makes no request
    for the tile and puts it on [hgt_files], whatever its size. *)
Theorem rejected_tile_taken_on_rerun
    (w w' : World) (b : BBox) (st : St) (r : Response) (raw : bytes) (name : string) :
  http_get w (length (calls st)) (mapzen_url b) = Some r ->
  status_code r = 200 ->
  gunzip w (content r) = Some raw ->
  Z.of_nat (length raw) <= 1000000 ->
  hgt_files (forced_download w b st).1 = hgt_files st /\
  let rerun := (acquire_tiles w' b
                  (DataDownloader name (files (forced_download w b st).1))).1 in
  files rerun !! hgt_path (code_force b) = Some raw /\
  hgt_path (code_force b) ∈ hgt_files rerun /\
  forall url, TileGet (code_force b) url ∉ calls rerun.
Proof.
  intros Hget Hstatus Hgz Hsmall.
  rewrite (forced_download_unfold w b st r raw) by done.
  assert ((Z.of_nat (length raw) >? 1000000) = false) as -> by lia.
  unfold bind; simpl. split; [done |].
  set (dir := <[hgt_path (code_force b) := raw]> _).
  assert (files (DataDownloader name dir) !! hgt_path (code_force b) = Some raw)
    as Hthere by apply lookup_insert_eq.
  destruct (acquire_untouched w' b (code_force b) raw (DataDownloader name dir) Hthere)
    as [[Hf (added & Hc & Hn)] Hin].
  split; [done |]. split; [apply Hin; apply code_force_planned |].
  intros url. rewrite Hc. simpl. apply Hn.
Qed.

Lemma rejected_tile_taken_on_rerun_witness :
  hgt_files (forced_download short_gz box_s35w072 (fresh "Pichilemu")).1
    = hgt_files (fresh "Pichilemu") /\
  let rerun := (acquire_tiles raw_only box_s35w072
                  (DataDownloader "Pichilemu"
                     (files (forced_download short_gz box_s35w072
                               (fresh "Pichilemu")).1))).1 in
  files rerun !! hgt_path (code_force box_s35w072) = Some two_bytes /\
  hgt_path (code_force box_s35w072) ∈ hgt_files rerun /\
  forall url, TileGet (code_force box_s35w072) url ∉ calls rerun.
Proof.
  apply (rejected_tile_taken_on_rerun short_gz raw_only box_s35w072
           (fresh "Pichilemu") (mkResponse 200 [Byte.x1f; Byte.x8b]) two_bytes
           "Pichilemu"); try reflexivity.
  simpl. lia.
Defined.

(** ** The boundary block *)

Section BoundaryBlock.

Context (w : World).

Lemma respects_download_boundaries (o : Options) (name : string) :
  respects boundary_file anything anything (download_boundaries w (wfs_url o)).
Proof.
  unfold download_boundaries; cbv zeta. respects_auto; try done.
  unfold boundary_file. auto.
Qed.

Lemma respects_download_boundaries_dpa_zip (url name : string) :
  respects boundary_file anything anything (download_boundaries_dpa_zip w url name).
Proof.
  unfold download_boundaries_dpa_zip. respects_auto; try done.
  unfold boundary_file. auto.
Qed.

Lemma respects_fallback_boundary_file :
  respects boundary_file nothing anything (save_osm_boundary_fallback w).
Proof.
  unfold save_osm_boundary_fallback. respects_auto; try done.
  unfold boundary_file. auto.
Qed.

Lemma respects_resolve_boundaries (o : Options) :
  respects boundary_file anything anything (resolve_boundaries w o).
Proof.
  unfold resolve_boundaries.
  apply respects_bind; [| intros okw].
  - destruct (skip_wfs o); [respects_auto |].
    apply respects_bind; [apply (respects_download_boundaries o "") | intros okw].
    respects_auto.
  - destruct (skip_wfs o || negb okw); [| apply respects_ret].
    apply respects_bind; [apply respects_download_boundaries_dpa_zip | intros okd].
    destruct okd; [apply respects_ret |].
    apply respects_bind; [apply respects_logger | intros _].
    apply respects_bind; [| intros okf; apply respects_ret].
    eapply respects_weaken; [| | | apply respects_fallback_boundary_file]; done.
Qed.

End BoundaryBlock.

(** X5: the boundary block of [main] changes nothing the elevation
    stage looks at: whatever the administrative service, the official
    archive and the fallback gave, [_load_boundary_for_dem] returns
    after the block what it would have returned before it, and the
    block has touched no file but the three boundary files. *)
Theorem boundary_block_leaves_elevation_boundary (w : World) (o : Options) (st : St) :
  _load_boundary_for_dem w (resolve_boundaries w o st).1
    = _load_boundary_for_dem w st /\
  forall p, ~ boundary_file p ->
    files (resolve_boundaries w o st).1 !! p = files st !! p.
Proof.
  destruct (respects_resolve_boundaries w o st) as [Hcom Hgdf Hfiles _ _ _].
  split; [| exact Hfiles].
  unfold _load_boundary_for_dem. by rewrite Hcom, Hgdf.
Qed.

Section Cascade.

Context (w : World).

Lemma download_boundaries_calls (override : option string) (st : St) :
  exists ok,
    (download_boundaries w override st).2 = Ok ok /\
    calls (download_boundaries w override st).1 =
      calls st ++ [WfsGet (wfs_endpoint override) (cql_filter (comuna st))].
Proof.
  rewrite download_boundaries_unfold. cbv zeta.
  destruct (wfs_get w _ _) as [response|]; [| by exists false].
  destruct (wfs_status_code response =? 200); by eexists.
Qed.

Lemma download_boundaries_dpa_zip_calls (url name : string) (st : St) :
  exists ok,
    (download_boundaries_dpa_zip w url name st).2 = Ok ok /\
    calls (download_boundaries_dpa_zip w url name st).1 = calls st ++ [DpaGet url].
Proof.
  unfold download_boundaries_dpa_zip, catch, bind, call; simpl.
  destruct (dpa_get w url) as [r|]; simpl; [| by exists false].
  destruct (negb (status_code r =? 200)); simpl; [by exists false |].
  destruct (dpa_extract w (content r) name) as [[geojson|]|]; simpl; by eexists.
Qed.

Lemma save_osm_boundary_fallback_calls (st : St) :
  exists ok,
    (save_osm_boundary_fallback w st).2 = Ok ok /\
    calls (save_osm_boundary_fallback w st).1 = calls st.
Proof.
  destruct (total_run _ st (total_save_osm_boundary_fallback w)) as (st' & ok & E).
  exists ok. rewrite E. split; [done |].
  pose proof (respects_fallback_boundary_file w st) as Hf. rewrite E in Hf.
  by apply (frame_nothing_calls _ _ _ _ Hf).
Qed.

Lemma resolve_boundaries_run (o : Options) (st : St) :
  exists st' r,
    resolve_boundaries w o st = (st', Ok r) /\
    calls st' =
      calls st ++
      (if skip_wfs o then []
       else [WfsGet (wfs_endpoint (wfs_url o)) (cql_filter (comuna st))]) ++
      (if ok_wfs r then [] else [DpaGet (dpa_url o)]) /\
    (skip_wfs o = true -> ok_wfs r = false) /\
    (ok_wfs r = true -> ok_dpa r = false /\ ok_fallback r = None) /\
    (ok_dpa r = true -> ok_fallback r = None) /\
    (ok_wfs r = false -> ok_dpa r = false -> ok_fallback r <> None).
Proof.
  assert (forall (st1 : St) (okw : bool),
    exists st' r,
      (okd <~ download_boundaries_dpa_zip w (dpa_url o) (opt_comuna o) ;;
       if okd : bool then ret (mkOutcome false okd None)
       else
         logger InfoUsingOsmFallback ;;
         okf <~ save_osm_boundary_fallback w ;;
         ret (mkOutcome false okd (Some okf))) st1 = (st', Ok r) /\
      calls st' = calls st1 ++ [DpaGet (dpa_url o)] /\
      ok_wfs r = false /\
      (ok_dpa r = true -> ok_fallback r = None) /\
      (ok_dpa r = false -> ok_fallback r <> None)) as Htail.
  { intros st1 _.
    destruct (download_boundaries_dpa_zip_calls (dpa_url o) (opt_comuna o) st1)
      as (okd & Ed & Hcd).
    destruct (download_boundaries_dpa_zip w (dpa_url o) (opt_comuna o) st1)
      as [st2 od] eqn:E2. simpl in Ed, Hcd. subst od.
    rewrite (bind_ok _ _ _ _ _ E2). destruct okd.
    - exists st2. eexists. by repeat split.
    - destruct (save_osm_boundary_fallback_calls (logger InfoUsingOsmFallback st2).1)
        as (okf & Ef & Hcf).
      destruct (save_osm_boundary_fallback w (logger InfoUsingOsmFallback st2).1)
        as [st3 o3] eqn:E3. simpl in Ef, Hcf. subst o3.
      exists st3. eexists. split.
      + unfold bind at 1. simpl. by rewrite (bind_ok _ _ _ _ _ E3).
      + simpl. rewrite Hcf. simpl. by rewrite Hcd. }
  destruct (skip_wfs o) eqn:Hskip.
  - destruct (Htail (logger InfoSkipWfs st).1 false)
      as (st' & r & E & Hc & Hw & Hd & Hf).
    exists st', r. split.
    + unfold resolve_boundaries. rewrite Hskip. exact E.
    + rewrite Hc, Hw. simpl. repeat split; try done.
  - destruct (download_boundaries_calls (wfs_url o) st) as (okw & Ew & Hcw).
    destruct (download_boundaries w (wfs_url o) st) as [st1 ow] eqn:E1.
    simpl in Ew, Hcw. subst ow.
    rewrite (resolve_boundaries_unfold w o st st1 okw Hskip E1).
    destruct okw.
    + exists st1. eexists. split; [done |]. simpl.
      rewrite Hcw. by repeat split.
    + destruct (Htail (logger WarnWfsNotDownloaded st1).1 false)
        as (st' & r & E & Hc & Hw & Hd & Hf).
      exists st', r. split; [exact E |].
      rewrite Hc, Hw. simpl. rewrite Hcw, <- app_assoc. by repeat split.
Qed.

End Cascade.

(** X6: the boundary block never raises and asks its sources in a
    fixed order, each at most once: the administrative service unless
    it is skipped, then the official archive only if the service was
    skipped or did not succeed, then the fallback (which makes no call)
    only if the archive failed too.  A source that succeeds ends the
    block. *)
Theorem boundary_sources_in_order (w : World) (o : Options) (st : St) :
  exists r : BoundaryOutcome,
    (resolve_boundaries w o st).2 = Ok r /\
    calls (resolve_boundaries w o st).1 =
      calls st ++
      (if skip_wfs o then []
       else [WfsGet (wfs_endpoint (wfs_url o)) (cql_filter (comuna st))]) ++
      (if ok_wfs r then [] else [DpaGet (dpa_url o)]) /\
    (skip_wfs o = true -> ok_wfs r = false) /\
    (ok_wfs r = true -> ok_dpa r = false /\ ok_fallback r = None) /\
    (ok_dpa r = true -> ok_fallback r = None) /\
    (ok_wfs r = false -> ok_dpa r = false -> ok_fallback r <> None).
Proof.
  destruct (resolve_boundaries_run w o st) as (st' & r & E & H).
  exists r. by rewrite E.
Qed.

(** ** The size and the gaps of the first plan *)

Section PlanShape.

Lemma size_pair (a c : Z) : (1 <= length (elements ({[ a; c ]} : gset Z)) <= 2)%nat.
Proof.
  change (length (elements ({[ a; c ]} : gset Z))) with (size ({[ a; c ]} : gset Z)).
  destruct (decide (a = c)) as [-> | Hne].
  - rewrite union_idemp_L, size_singleton. lia.
  - rewrite size_union by set_solver. rewrite !size_singleton. lia.
Qed.

Lemma size_list_to_set_le (l : list string) :
  (size (list_to_set l : gset string) <= length l)%nat.
Proof.
  induction l as [|x l IH].
  - rewrite list_to_set_nil, size_empty. simpl. lia.
  - rewrite list_to_set_cons. cbn [length].
    destruct (decide (x ∈ (list_to_set l : gset string))) as [Hin | Hout].
    + rewrite (subseteq_union_1_L {[x]}) by (by apply singleton_subseteq_l).
      lia.
    + rewrite size_union by set_solver. rewrite size_singleton. lia.
Qed.

Lemma length_pairs (lats lons : list Z) :
  length (la ← lats; lo ← lons; [tile_code la lo]) = (length lats * length lons)%nat.
Proof.
  induction lats as [|la lats IH]; [done |].
  rewrite bind_cons, length_app, IH. cbn [length Nat.mul]. f_equal.
  clear IH. induction lons as [|lo lons IH']; [done |].
  rewrite bind_cons. cbn [length app]. by rewrite IH'.
Qed.

Lemma length_sorted (X : gset string) : length (sorted X) = size X.
Proof. unfold sorted. by rewrite merge_sort_Permutation. Qed.

(** Two corners in range with the same code are the same corner. *)
Lemma tile_code_inj (la lo la' lo' : Z) :
  -90 <= la <= 89 -> -180 <= lo <= 179 ->
  -90 <= la' <= 89 -> -180 <= lo' <= 179 ->
  tile_code la lo = tile_code la' lo' -> la = la' /\ lo = lo'.
Proof.
  intros H1 H2 H3 H4 E.
  pose proof (tile_code_decode la lo H1 H2) as D.
  rewrite E, tile_code_decode in D by done. by injection D as -> ->.
Qed.

Lemma hgt_path_inj (c c' : string) : hgt_path c = hgt_path c' -> c = c'.
Proof. apply append_inv_tail. Qed.

Lemma inner_cell_not_planned (b : BBox) (la lo : Z) :
  corners_in_range b -> inner_cell b la lo -> tile_code la lo ∉ codes b.
Proof.
  intros (R1 & R2 & R3 & R4) (Hla & Hlo & Hin)
    (la' & lo' & Hla' & Hlo' & E)%elem_of_codes.
  unfold lat_sw, lon_sw in *.
  assert (la' = Qfloor (miny b) \/ la' = Qfloor (maxy b - eps)) as Ha
    by (by apply elem_of_union in Hla' as [?%elem_of_singleton | ?%elem_of_singleton];
          [left | right]).
  assert (lo' = Qfloor (minx b) \/ lo' = Qfloor (maxx b - eps)) as Ho
    by (by apply elem_of_union in Hlo' as [?%elem_of_singleton | ?%elem_of_singleton];
          [left | right]).
  apply tile_code_inj in E as [-> ->]; lia.
Qed.

End PlanShape.

(** X7: the first plan has at least one tile and at most four,
    whatever the size of the box, and names no tile twice. *)
Theorem corner_plan_at_most_four (b : BBox) :
  (1 <= length (codes b) <= 4)%nat /\ NoDup (codes b).
Proof.
  split; [| apply NoDup_sorted]. split.
  - pose proof (code_force_planned b) as Hin.
    destruct (codes b); [by inversion Hin | simpl; lia].
  - unfold codes. rewrite length_sorted. unfold code_set.
    etrans; [apply size_list_to_set_le |].
    rewrite length_pairs.
    pose proof (size_pair (Qfloor (miny b)) (Qfloor (maxy b - eps))) as H1.
    pose proof (size_pair (Qfloor (minx b)) (Qfloor (maxx b - eps))) as H2.
    unfold lat_sw, lon_sw. nia.
Qed.

(** X8: a tile of the box that is none of the four candidate corners is
    in the full range but not in the first plan.  When a tile of the
    first plan is on disk already, the second attempt does not run: the
    inner tile is not requested and is not on [hgt_files], so the mosaic
    is made without it. *)
Theorem inner_tile_skipped
    (w : World) (b : BBox) (st : St) (code : string) (d : bytes) (la lo : Z) :
  corners_in_range b -> inner_cell b la lo ->
  code ∈ codes b -> files st !! hgt_path code = Some d ->
  (tile_code la lo ∈ full_codes b) /\
  (tile_code la lo ∉ codes b) /\
  (hgt_path (tile_code la lo) ∉ hgt_files (acquire_tiles w b st).1) /\
  exists cs, calls (acquire_tiles w b st).1 = calls st ++ cs /\
             forall url, TileGet (tile_code la lo) url ∉ cs.
Proof.
  intros Hr Hcell Hcode Hd.
  pose proof (inner_cell_not_planned b la lo Hr Hcell) as Hout.
  assert (0 < eps)%Q as Heps by reflexivity.
  split; [| split; [done |]].
  { destruct Hcell as (Hla & Hlo & _). apply elem_of_full_codes.
    exists la, lo.
    assert (Qfloor (maxy b - eps) <= Qceiling (maxy b)) by (apply Qfloor_le_ceiling; lra).
    assert (Qfloor (maxx b - eps) <= Qceiling (maxx b)) by (apply Qfloor_le_ceiling; lra).
    repeat split; lia. }
  assert (untouched code d (calls st) (at_first_pass b st)) as H1.
  { split; [done |]. exists []. split; [by rewrite app_nil_r | by inversion 1]. }
  pose proof (fetch_tiles_appends w code d _ First (codes b) _ H1 Hcode) as A2.
  pose proof (respects_fetch_tiles w First (codes b) (at_first_pass b st)) as F.
  rewrite acquire_tiles_unfold.
  destruct (total_run _ (at_first_pass b st) (total_fetch_tiles w First (codes b)))
    as (st2 & [] & E2).
  rewrite E2 in *; simpl in A2, F.
  rewrite (retry_keeps_hgt w b st2 _ A2).
  destruct F as [_ _ _ (cs & Hc & Fc) _ (hs & Hh & Fh)]. simpl in Hc, Hh.
  destruct (hgt_files st2) as [|h rest] eqn:E4; [by inversion A2 |]. simpl.
  split.
  - rewrite E4, Hh. intros Hin. rewrite Forall_forall in Fh.
    destruct (Fh _ Hin) as (c & Hcin & Hq). apply hgt_path_inj in Hq. by subst.
  - exists cs. split; [done |]. intros url Hin. rewrite Forall_forall in Fc.
    destruct (Fc _ Hin) as (c & Hcin & (u & E)). injection E as E1 _.
    subst c. by apply Hout.
Qed.

Lemma inner_tile_skipped_witness :
  (tile_code (-35) (-73) ∈ full_codes box_three_rows) /\
  (tile_code (-35) (-73) ∉ codes box_three_rows) /\
  (hgt_path (tile_code (-35) (-73)) ∉
    hgt_files (acquire_tiles raw_only box_three_rows
                 (with_tile "Pichilemu" "S37W073" two_bytes)).1) /\
  exists cs,
    calls (acquire_tiles raw_only box_three_rows
             (with_tile "Pichilemu" "S37W073" two_bytes)).1 =
    calls (with_tile "Pichilemu" "S37W073" two_bytes) ++ cs /\
    forall url, TileGet (tile_code (-35) (-73)) url ∉ cs.
Proof.
  assert (corners_in_range box_three_rows) as H1 by (vm_compute; intuition discriminate).
  assert (inner_cell box_three_rows (-35) (-73)) as H2
    by (vm_compute; intuition discriminate).
  assert ("S37W073" ∈ codes box_three_rows) as H3
    by (apply (bool_decide_unpack _); by vm_compute).
  assert (files (with_tile "Pichilemu" "S37W073" two_bytes) !! hgt_path "S37W073"
          = Some two_bytes) as H4 by reflexivity.
  exact (inner_tile_skipped raw_only box_three_rows _ "S37W073" two_bytes (-35) (-73)
           H1 H2 H3 H4).
Defined.

(** ** Stems of file names *)

Section Stems.

Lemma append_inv_head (s t t' : string) : s +:+ t = s +:+ t' -> t = t'.
Proof. induction s as [|c s IH]; simpl; [done |]. intros E. apply IH. by injection E. Qed.

Lemma append_empty_r (s : string) : s +:+ "" = s.
Proof.
  induction s as [|c s IH]; [done |].
  change (String c (s +:+ "") = String c s). by f_equal.
Qed.

(** What [drop_last_suffix] drops begins with a dot. *)
Lemma drop_last_suffix_some (s t : string) :
  PyStr.drop_last_suffix s = Some t -> exists e, s = t +:+ String "." e.
Proof.
  revert t. induction s as [|c s IH]; intros t; simpl; [done |].
  destruct (PyStr.drop_last_suffix s) as [t'|] eqn:E.
  - intros [= <-]. destruct (IH t' eq_refl) as (e & ->). by exists e.
  - destruct (Ascii.eqb_spec c "."); [| done].
    intros [= <-]. subst c. by exists s.
Qed.

Lemma drop_last_suffix_no_dot (s : string) :
  no_dot s = true -> PyStr.drop_last_suffix s = None.
Proof.
  induction s as [|c s IH]; simpl; [done |].
  intros [Hc Hs]%andb_true_iff. rewrite (IH Hs).
  by destruct (Ascii.eqb c ".").
Qed.

Lemma drop_last_suffix_ext (x ext : string) :
  no_dot ext = true -> PyStr.drop_last_suffix (x +:+ String "." ext) = Some x.
Proof.
  intros Hext. induction x as [|c x IH]; simpl.
  - by rewrite (drop_last_suffix_no_dot ext Hext).
  - by rewrite IH.
Qed.

(** The stem of [x.ext], for an extension without a dot. *)
Lemma stem_ext (x ext : string) :
  x <> "" -> no_dot ext = true -> PyStr.stem (x +:+ String "." ext) = x.
Proof.
  intros Hx Hext. destruct x as [|c x]; [done |]. simpl.
  by rewrite (drop_last_suffix_ext x ext Hext).
Qed.

(** A name is its stem followed by nothing or by a suffix that begins
    with a dot. *)
Lemma stem_split (name : string) :
  exists suffix, name = PyStr.stem name +:+ suffix /\
                 (suffix = "" \/ exists e, suffix = String "." e).
Proof.
  destruct name as [|c s]; [exists ""; by split; [| left] |]. simpl.
  destruct (PyStr.drop_last_suffix s) as [t|] eqn:E.
  - destruct (drop_last_suffix_some s t E) as (e & ->).
    exists (String "." e). split; [done | right; by exists e].
  - exists "". split; [| by left]. by rewrite (append_empty_r (String c s)).
Qed.

Lemma no_dot_digit (d : Z) : 0 <= d <= 9 -> Ascii.eqb (PyStr.digit_char d) "." = false.
Proof.
  intros H.
  assert (d = 0 \/ d = 1 \/ d = 2 \/ d = 3 \/ d = 4 \/ d = 5 \/ d = 6 \/
          d = 7 \/ d = 8 \/ d = 9) as Hd by lia.
  repeat (destruct Hd as [-> | Hd]; [reflexivity |]). by subst.
Qed.

(** The file of a tile in range has the tile's code for its stem. *)
Lemma stem_hgt_path (la lo : Z) :
  -90 <= la <= 89 -> -180 <= lo <= 179 ->
  PyStr.stem (hgt_path (tile_code la lo)) = tile_code la lo.
Proof.
  intros Hla Hlo. unfold hgt_path.
  change ".hgt" with (String "." "hgt").
  apply stem_ext; [| done].
  rewrite tile_code_chars by done. done.
Qed.

End Stems.

(** X9: the decoder of [process_data.py] reads the file names of the
    downloader: for a box whose candidate corners are on the globe, the
    stem of the file of every tile of the first plan decodes to the
    candidate corner the tile was named after; for the forced tile it
    decodes to the cell that holds the south-west corner of the box. *)
Theorem planned_tile_names_decode (b : BBox) :
  corners_in_range b ->
  (forall c, c ∈ codes b ->
     exists la lo, la ∈ lat_sw b /\ lo ∈ lon_sw b /\ c = tile_code la lo /\
       decode_tile_name (PyStr.stem (hgt_path c)) = Some (la, lo)) /\
  (exists la lo,
     decode_tile_name (PyStr.stem (hgt_path (code_force b))) = Some (la, lo) /\
     (inject_Z la <= miny b)%Q /\ (miny b < inject_Z (la + 1))%Q /\
     (inject_Z lo <= minx b)%Q /\ (minx b < inject_Z (lo + 1))%Q).
Proof.
  intros (R1 & R2 & R3 & R4). split.
  - intros c (la & lo & Hla & Hlo & ->)%elem_of_codes.
    exists la, lo. repeat split; try done.
    assert (-90 <= la <= 89) as Ha.
    { unfold lat_sw in Hla.
      apply elem_of_union in Hla as [->%elem_of_singleton | ->%elem_of_singleton]; lia. }
    assert (-180 <= lo <= 179) as Ho.
    { unfold lon_sw in Hlo.
      apply elem_of_union in Hlo as [->%elem_of_singleton | ->%elem_of_singleton]; lia. }
    rewrite stem_hgt_path by done. by apply tile_code_decode.
  - exists (Qfloor (miny b)), (Qfloor (minx b)). unfold code_force; cbv zeta.
    rewrite stem_hgt_path by done. rewrite tile_code_decode by done.
    repeat split; auto using Qfloor_le, Qlt_floor.
Qed.

Lemma planned_tile_names_decode_witness :
  (forall c, c ∈ codes box_three_rows ->
     exists la lo, la ∈ lat_sw box_three_rows /\ lo ∈ lon_sw box_three_rows /\
       c = tile_code la lo /\
       decode_tile_name (PyStr.stem (hgt_path c)) = Some (la, lo)) /\
  (exists la lo,
     decode_tile_name (PyStr.stem (hgt_path (code_force box_three_rows))) = Some (la, lo) /\
     (inject_Z la <= miny box_three_rows)%Q /\ (miny box_three_rows < inject_Z (la + 1))%Q /\
     (inject_Z lo <= minx box_three_rows)%Q /\ (minx box_three_rows < inject_Z (lo + 1))%Q).
Proof.
  apply (planned_tile_names_decode box_three_rows).
  vm_compute; intuition discriminate.
Defined.

(** ** Reprojection *)

Section Reproject.

Context (w : World).

Lemma reprojected_path_fresh (dem_path : string) (epsg : Z) :
  reprojected_path dem_path epsg <> dem_path.
Proof.
  unfold reprojected_path. intros E.
  destruct (stem_split dem_path) as (suffix & Hname & Hs).
  rewrite Hname in E at 2. apply append_inv_head in E.
  destruct Hs as [-> | (e & ->)]; simpl in E; [done |]. by injection E.
Qed.

Lemma reproject_dem_unfold (dem_path : string) (epsg : Z) (st : St) :
  _reproject_dem w dem_path epsg st =
  match files st !! dem_path with
  | None => (st, Raised)
  | Some src =>
      match raster_warp w src epsg with
      | WarpNoTransform => (st, Raised)
      | WarpBroken partial =>
          ((write_bytes (reprojected_path dem_path epsg) partial st).1, Raised)
      | WarpDone raster =>
          (write_bytes (reprojected_path dem_path epsg) raster ;;
           logger (InfoReprojected (reprojected_path dem_path epsg))) st
      end
  end.
Proof.
  unfold _reproject_dem, reprojected_path, bind at 1, read_bytes; cbv zeta.
  destruct (files st !! dem_path) as [src|]; simpl; [| done].
  by destruct (raster_warp w src epsg).
Qed.

End Reproject.

(** X10: [_reproject_dem] never writes over the raster it reads.  For a
    name that does not end in a dot, the output name differs from the
    input name; the input keeps its content and no file other than the
    output changes; a missing input raises with nothing changed; and a
    reprojection that returns has written the output. *)
Theorem reproject_keeps_source
    (w : World) (dem_path : string) (target_epsg : Z) (st : St) :
  PyStr.endswith dem_path "." = false ->
  reprojected_path dem_path target_epsg <> dem_path /\
  files (_reproject_dem w dem_path target_epsg st).1 !! dem_path = files st !! dem_path /\
  (forall q, q <> reprojected_path dem_path target_epsg ->
     files (_reproject_dem w dem_path target_epsg st).1 !! q = files st !! q) /\
  (files st !! dem_path = None ->
     _reproject_dem w dem_path target_epsg st = (st, Raised)) /\
  ((_reproject_dem w dem_path target_epsg st).2 = Ok tt ->
     is_Some (files (_reproject_dem w dem_path target_epsg st).1
                !! reprojected_path dem_path target_epsg)).
Proof.
  intros _.
  pose proof (reprojected_path_fresh dem_path target_epsg) as Hne.
  assert (forall q, q <> reprojected_path dem_path target_epsg ->
            files (_reproject_dem w dem_path target_epsg st).1 !! q = files st !! q)
    as Hother.
  { intros q Hq. rewrite reproject_dem_unfold.
    destruct (files st !! dem_path) as [src|]; [| done].
    destruct (raster_warp w src target_epsg); simpl; [done | |];
      by rewrite lookup_insert_ne. }
  split; [done |]. split; [by apply Hother |]. split; [done |]. split.
  - intros E. by rewrite reproject_dem_unfold, E.
  - rewrite reproject_dem_unfold.
    destruct (files st !! dem_path) as [src|]; [| done].
    destruct (raster_warp w src target_epsg); simpl; try done.
    intros _. rewrite lookup_insert_eq. by eexists.
Qed.

Lemma reproject_keeps_source_witness :
  reprojected_path "srtm_dem.tif" 32719 <> "srtm_dem.tif" /\
  files (_reproject_dem raw_only "srtm_dem.tif" 32719 (fresh "Pichilemu")).1
    !! "srtm_dem.tif" = files (fresh "Pichilemu") !! "srtm_dem.tif" /\
  (forall q, q <> reprojected_path "srtm_dem.tif" 32719 ->
     files (_reproject_dem raw_only "srtm_dem.tif" 32719 (fresh "Pichilemu")).1 !! q
     = files (fresh "Pichilemu") !! q) /\
  (files (fresh "Pichilemu") !! "srtm_dem.tif" = None ->
     _reproject_dem raw_only "srtm_dem.tif" 32719 (fresh "Pichilemu")
     = (fresh "Pichilemu", Raised)) /\
  ((_reproject_dem raw_only "srtm_dem.tif" 32719 (fresh "Pichilemu")).2 = Ok tt ->
     is_Some (files (_reproject_dem raw_only "srtm_dem.tif" 32719 (fresh "Pichilemu")).1
                !! reprojected_path "srtm_dem.tif" 32719)).
Proof.
  apply (reproject_keeps_source raw_only "srtm_dem.tif" 32719 (fresh "Pichilemu")).
  reflexivity.
Defined.

(** ** The sources of the command line *)

Section Sources.

Lemma normalize_source_fst (a : bool) (s : string) :
  (normalize_source a s).1 = canonical s.
Proof. unfold canonical, normalize_source. by repeat case_bool_decide. Qed.

Lemma normalize_source_snd (a : bool) (s : string) :
  (normalize_source a s).2 = a || bool_decide (s = "ine_censo2017").
Proof.
  destruct (decide (s = "ine_censo2017")) as [-> | Hne].
  - by destruct a.
  - rewrite (bool_decide_eq_false_2 _ Hne), orb_false_r.
    unfold normalize_source. repeat case_bool_decide; simpl; try done.
    exfalso. apply Hne. by apply list_elem_of_singleton.
Qed.

Lemma normalize_loop_spec (l acc : list string) (a : bool) :
  normalize_loop l acc a =
  (acc ++ map canonical l, a || bool_decide ("ine_censo2017" ∈ l)).
Proof.
  revert acc a. induction l as [|s l IH]; intros acc a; simpl.
  - by rewrite app_nil_r, orb_false_r.
  - pose proof (normalize_source_fst a s) as H1.
    pose proof (normalize_source_snd a s) as H2.
    destruct (normalize_source a s) as [name a']. simpl in H1, H2. subst.
    rewrite IH, <- app_assoc. simpl. f_equal.
    rewrite <- orb_assoc. f_equal.
    apply eq_true_iff_eq.
    rewrite orb_true_iff, !bool_decide_eq_true, elem_of_cons.
    split; (intros [E | Hin]; [by left | by right]).
Qed.

Lemma canonical_idemp (s : string) : canonical (canonical s) = canonical s.
Proof.
  unfold canonical, normalize_source.
  repeat case_bool_decide; simpl; try done;
    repeat case_bool_decide; simpl; try done;
    exfalso;
    repeat match goal with
           | H : _ ∈ _ :: _ |- _ => apply elem_of_cons in H as [H | H]
           | H : _ ∈ [] |- _ => by apply elem_of_nil in H
           end; try discriminate.
Qed.

Lemma canonical_not_micro (s : string) : canonical s <> "ine_censo2017".
Proof.
  unfold canonical, normalize_source.
  repeat case_bool_decide; simpl; try done.
  intros ->. match goal with H : _ ∉ [_] |- _ => apply H end. by left.
Qed.

Lemma elem_of_canonical (x : string) (l : list string) :
  x ∈ map canonical l <-> exists s, s ∈ l /\ canonical s = x.
Proof.
  rewrite list_elem_of_fmap.
  split; [intros (s & -> & Hs); by exists s | intros (s & Hs & <-); by exists s].
Qed.

Ltac canonical_cases :=
  unfold canonical, normalize_source;
  repeat case_bool_decide; simpl;
  repeat match goal with
         | H : _ ∈ _ |- _ => rewrite ?elem_of_cons, elem_of_nil in H
         | H : _ ∉ _ |- _ => rewrite ?elem_of_cons, elem_of_nil in H
         end;
  rewrite ?elem_of_cons, ?elem_of_nil;
  intuition (subst; try discriminate; try congruence).

Lemma canonical_osm (s : string) : canonical s = "osm" <-> s = "osm".
Proof. canonical_cases. Qed.

Lemma canonical_ide (s : string) : canonical s = "ide" <-> s = "ide".
Proof. canonical_cases. Qed.

Lemma canonical_censo (s : string) :
  canonical s = "censo" <->
  s ∈ ["censo"; "ine_manzanas_censales"; "manzanas"; "manzanas_censales"; "ine_censo2017"].
Proof. canonical_cases. Qed.

Lemma canonical_srtm (s : string) :
  canonical s = "srtm" <-> s ∈ ["srtm"; "dem"; "strm"].
Proof. canonical_cases. Qed.

Lemma canonical_copernicus (s : string) :
  canonical s = "copernicus" <-> s ∈ ["copernicus"; "sentinel"; "sentinel2"].
Proof. canonical_cases. Qed.

Lemma canonical_ide_minvu (s : string) :
  canonical s = "ide_minvu" <->
  s ∈ ["ide_minvu"; "minvu"; "uso_suelo"; "usosuelo"; "suelo"].
Proof. canonical_cases. Qed.

Lemma requested_sources_spec (l : list string) (dc : bool) :
  requested_sources l dc =
  (map canonical l ++
     (if dc && negb (bool_decide ("censo" ∈ map canonical l)) then ["censo"] else []),
   bool_decide ("ine_censo2017" ∈ l)).
Proof.
  unfold requested_sources. rewrite normalize_loop_spec. simpl.
  destruct (dc && _); by rewrite ?app_nil_r.
Qed.

Lemma elem_of_requested_sources (x : string) (l : list string) (dc : bool) :
  x ∈ (requested_sources l dc).1 <->
  (exists s, s ∈ l /\ canonical s = x) \/ (x = "censo" /\ dc = true).
Proof.
  rewrite requested_sources_spec. simpl.
  rewrite elem_of_app, elem_of_canonical. split.
  - intros [H | H]; [by left |]. right.
    destruct dc; simpl in H; [| by apply elem_of_nil in H].
    destruct (negb _); [| by apply elem_of_nil in H].
    by apply list_elem_of_singleton in H.
  - intros [H | [-> ->]]; [by left |]. simpl.
    case_bool_decide as Hin; simpl.
    + left. by apply elem_of_canonical.
    + right. by left.
Qed.

End Sources.

(** X11: the name of a stage is on [sources_list], the list the stage
    blocks of [main] test, exactly when the name or one of its aliases
    is among the tokens that enter the loop over the aliases; the
    deprecated flag [--download-censo] puts [censo] on the list as
    well, and [auto_micro] is set exactly when [ine_censo2017] is among
    the tokens.  Whether a block whose name is on the list is reached
    is another matter: an earlier block can stop [main]. *)
Theorem source_aliases_resolved (sources_list : list string) (download_censo : bool) :
  let final := (requested_sources sources_list download_censo).1 in
  ("osm" ∈ final <-> "osm" ∈ sources_list) /\
  ("ide" ∈ final <-> "ide" ∈ sources_list) /\
  ("censo" ∈ final <->
     download_censo = true \/
     exists s, s ∈ sources_list /\
       s ∈ ["censo"; "ine_manzanas_censales"; "manzanas"; "manzanas_censales";
            "ine_censo2017"]) /\
  ("srtm" ∈ final <->
     exists s, s ∈ sources_list /\ s ∈ ["srtm"; "dem"; "strm"]) /\
  ("copernicus" ∈ final <->
     exists s, s ∈ sources_list /\ s ∈ ["copernicus"; "sentinel"; "sentinel2"]) /\
  ("ide_minvu" ∈ final <->
     exists s, s ∈ sources_list /\
       s ∈ ["ide_minvu"; "minvu"; "uso_suelo"; "usosuelo"; "suelo"]) /\
  ((requested_sources sources_list download_censo).2 = true <->
     "ine_censo2017" ∈ sources_list).
Proof.
  cbv zeta. rewrite !elem_of_requested_sources.
  repeat split.
  - intros [(s & Hs & ->%canonical_osm) | [[=] _]]. done.
  - intros H. left. exists "osm". by rewrite canonical_osm.
  - intros [(s & Hs & ->%canonical_ide) | [[=] _]]. done.
  - intros H. left. exists "ide". by rewrite canonical_ide.
  - intros [(s & Hs & E%canonical_censo) | [_ ->]]; [right; by exists s | by left].
  - intros [-> | (s & Hs & E%canonical_censo)]; [by right | left; by exists s].
  - intros [(s & Hs & E%canonical_srtm) | [[=] _]]. by exists s.
  - intros (s & Hs & E%canonical_srtm). left. by exists s.
  - intros [(s & Hs & E%canonical_copernicus) | [[=] _]]. by exists s.
  - intros (s & Hs & E%canonical_copernicus). left. by exists s.
  - intros [(s & Hs & E%canonical_ide_minvu) | [[=] _]]. by exists s.
  - intros (s & Hs & E%canonical_ide_minvu). left. by exists s.
  - rewrite requested_sources_spec. simpl. by intros ?%bool_decide_eq_true.
  - rewrite requested_sources_spec. simpl. intros H. by apply bool_decide_eq_true.
Qed.

(** X12: resolving the aliases keeps the number and the order of the
    sources, and leaves no alias behind: resolving the resolved list
    again changes nothing and does not set [auto_micro]. *)
Theorem normalized_sources_stable (sources_list : list string) (download_censo : bool) :
  (normalize_loop sources_list [] false).1 = map canonical sources_list /\
  requested_sources (requested_sources sources_list download_censo).1 download_censo
  = ((requested_sources sources_list download_censo).1, false).
Proof.
  split; [by rewrite normalize_loop_spec |].
  rewrite (requested_sources_spec sources_list). cbn [fst].
  set (l1 := map canonical sources_list).
  assert (map canonical l1 = l1) as Hl1.
  { unfold l1. rewrite <- list_fmap_compose. apply list_fmap_ext.
    intros i s _. apply canonical_idemp. }
  assert (forall l2, Forall (fun s => canonical s = s) l2 ->
            "ine_censo2017" ∉ l2) as Hmicro.
  { intros l2 Hall Hin. rewrite Forall_forall in Hall.
    apply (canonical_not_micro "ine_censo2017"). by rewrite (Hall _ Hin). }
  destruct (download_censo && negb (bool_decide ("censo" ∈ l1))) eqn:E.
  - apply andb_true_iff in E as [-> _].
    rewrite requested_sources_spec. rewrite map_app, Hl1. simpl.
    assert ("censo" ∈ l1 ++ [canonical "censo"]) as Hin
      by (apply elem_of_app; right; by left).
    rewrite (bool_decide_eq_true_2 _ Hin). simpl. rewrite app_nil_r.
    f_equal. apply bool_decide_eq_false_2, Hmicro.
    apply Forall_app. split.
    + rewrite <- Hl1. apply Forall_fmap, Forall_forall. intros s _. apply canonical_idemp.
    + by repeat constructor.
  - rewrite app_nil_r, requested_sources_spec, Hl1, E, app_nil_r.
    f_equal. apply bool_decide_eq_false_2, Hmicro.
    rewrite <- Hl1. apply Forall_fmap, Forall_forall. intros s _. apply canonical_idemp.
Qed.

(** ** The files of the elevation stage *)

Section ElevationFiles.

Context (w : World) (q : string) (v : option bytes).

Lemma kept_fetch_tiles_planned (b : BBox) (p : Pass) (cs : list string) :
  ~ planned_path b q ->
  (forall code, code ∈ cs -> code ∈ codes b \/ code ∈ full_codes b) ->
  preserves (file_kept q v) (fetch_tiles w p cs).
Proof.
  intros Hq Hcs. eapply respects_kept; [apply respects_fetch_tiles |].
  intros (c & Hc & Hp). apply Hq. exists c. split; [by apply Hcs | done].
Qed.

Lemma kept_acquire_tiles_planned (b : BBox) :
  ~ planned_path b q -> preserves (file_kept q v) (acquire_tiles w b).
Proof.
  intros Hq. unfold acquire_tiles.
  repeat (apply preserves_bind; [by intros st | intros _]).
  apply preserves_bind; [apply (kept_fetch_tiles_planned b); [done | by left] | intros _].
  apply preserves_bind; [| intros _].
  { unfold retry_full_range.
    apply preserves_bind; [apply preserves_get_st | intros st].
    destruct (hgt_files st); [| apply preserves_ret].
    repeat (apply preserves_bind; [by intros s | intros _]).
    apply (kept_fetch_tiles_planned b); [done | by right]. }
  apply preserves_bind; [apply preserves_get_st | intros st].
  destruct (hgt_files st); [| apply preserves_ret].
  apply preserves_bind; [by intros s | intros _].
  eapply respects_kept; [apply respects_forced_download |].
  intros Hp. apply Hq. exists (code_force b). split; [left; apply code_force_planned | done].
Qed.

Lemma respects_mosaic_and_clip_files (boundary : GeoDataFrame) :
  respects raster_file nothing nothing (mosaic_and_clip w boundary).
Proof.
  assert (raster_file "srtm_dem.tif") as R1 by (by left).
  assert (raster_file "srtm_mosaic_tmp.tif") as R2 by (right; by left).
  assert (raster_file "srtm_dem_32719.tif") as R3 by (do 2 right; by left).
  unfold mosaic_and_clip; cbv zeta.
  apply respects_catch; [| respects_auto].
  apply respects_bind; [apply respects_get_st | intros st].
  apply respects_bind; [| intros _].
  - destruct (hgt_files st) as [|t [|t' rest]].
    + respects_auto; try apply (respects_read_all _ _ _ []); done.
    + respects_auto; done.
    + respects_auto; try apply respects_read_all; done.
  - apply respects_bind; [| intros _; apply respects_ret].
    apply respects_catch; [| apply respects_ret].
    eapply respects_weaken; [| | | apply respects_reproject_srtm]; try done.
    by intros ? <-.
Qed.

Lemma respects_copernicus_fallback_files (boundary : GeoDataFrame) :
  respects raster_file anything nothing (copernicus_fallback w boundary).
Proof.
  assert (raster_file "copernicus_dem.tif") as R1 by (do 3 right; by left).
  assert (raster_file "copernicus_dem_32719.tif") as R2 by (do 4 right; by left).
  unfold copernicus_fallback; cbv zeta.
  apply respects_catch; [| respects_auto].
  apply respects_bind; [by apply respects_call | intros items].
  destruct items as [|item rest]; [respects_auto |].
  apply respects_bind; [apply respects_lift | intros clipped].
  apply respects_bind; [by apply respects_write_bytes | intros _].
  apply respects_bind; [apply respects_logger | intros _].
  apply respects_bind; [| intros _; apply respects_ret].
  apply respects_catch; [| apply respects_ret].
  eapply respects_weaken; [| | | apply respects_reproject_copernicus]; try done.
  by intros ? <-.
Qed.

Lemma kept_elevation_body (boundary : GeoDataFrame) :
  ~ elevation_file (total_bounds boundary) q ->
  preserves (file_kept q v)
    (acquire_tiles w (total_bounds boundary) ;;
     st1 <~ get_st ;;
     match hgt_files st1 with
     | [] => copernicus_fallback w boundary
     | _ :: _ => mosaic_and_clip w boundary
     end).
Proof.
  intros Hq. apply preserves_bind; [| intros _].
  - apply kept_acquire_tiles_planned. intros Hp. apply Hq. by left.
  - apply preserves_bind; [apply preserves_get_st | intros st1].
    destruct (hgt_files st1).
    + eapply respects_kept; [apply respects_copernicus_fallback_files |].
      intros Hr. apply Hq. by right.
    + eapply respects_kept; [apply respects_mosaic_and_clip_files |].
      intros Hr. apply Hq. by right.
Qed.

Lemma download_srtm_tiles_unfold (st : St) :
  download_srtm_tiles w st =
  match _load_boundary_for_dem w st with
  | None => (logger WarnNoBoundary ;; ret false) st
  | Some boundary =>
      if gdf_empty boundary then (logger WarnNoBoundary ;; ret false) st
      else
        (acquire_tiles w (total_bounds boundary) ;;
         st1 <~ get_st ;;
         match hgt_files st1 with
         | [] => copernicus_fallback w boundary
         | _ :: _ => mosaic_and_clip w boundary
         end) st
  end.
Proof.
  unfold download_srtm_tiles. unfold bind at 1. unfold get_st. cbv beta iota.
  destruct (_load_boundary_for_dem w st) as [boundary|]; [| done].
  by destruct (gdf_empty boundary).
Qed.

End ElevationFiles.

(** X13: the elevation stage writes and deletes only files of its own:
    the grid, the compressed grid and the archive of a tile of one of
    the two plans of the boundary it loaded, and the five rasters of
    the mosaic and of the fallback.  Every other file of the directory
    is after the call as it was before; with no boundary the directory
    is not touched at all. *)
Theorem elevation_touches_own_files (w : World) (st : St) :
  match _load_boundary_for_dem w st with
  | Some boundary =>
      forall q, ~ elevation_file (total_bounds boundary) q ->
        files (download_srtm_tiles w st).1 !! q = files st !! q
  | None => files (download_srtm_tiles w st).1 = files st
  end.
Proof.
  rewrite download_srtm_tiles_unfold.
  destruct (_load_boundary_for_dem w st) as [boundary|]; [| done].
  intros q Hq. destruct (gdf_empty boundary); [done |].
  by apply (kept_elevation_body w q (files st !! q) boundary Hq st).
Qed.

(** ** What the boundary block writes *)

Section BoundaryFiles.

Context (w : World).

Lemma download_boundaries_files (override : option string) (st : St) :
  match download_boundaries w override st with
  | (st', Ok true) =>
      exists text, files st' = <["comuna_boundaries.geojson" := text]> (files st)
  | (st', Ok false) => files st' = files st
  | (_, Raised) => False
  end.
Proof.
  rewrite download_boundaries_unfold. cbv zeta.
  destruct (wfs_get w _ _) as [response|]; [| done].
  destruct (wfs_status_code response =? 200); [| done]. by eexists.
Qed.

Lemma download_boundaries_dpa_zip_files (url name : string) (st : St) :
  match download_boundaries_dpa_zip w url name st with
  | (st', Ok true) =>
      exists g, files st' = <["comuna_boundaries_oficial.geojson" := g]> (files st)
  | (st', Ok false) => files st' = files st
  | (_, Raised) => False
  end.
Proof.
  unfold download_boundaries_dpa_zip, catch, bind, call; simpl.
  destruct (dpa_get w url) as [r|]; simpl; [| done].
  destruct (negb (status_code r =? 200)); simpl; [done |].
  destruct (dpa_extract w (content r) name) as [[geojson|]|]; simpl; try done.
  by eexists.
Qed.

Lemma save_osm_boundary_fallback_files (st : St) :
  match save_osm_boundary_fallback w st with
  | (st', Ok true) =>
      exists d, files st' = <["osm_boundary.geojson" := d]> (files st)
  | (st', Ok false) => files st' = files st
  | (_, Raised) => False
  end.
Proof.
  unfold save_osm_boundary_fallback, bind at 1, get_st.
  destruct (boundary_gdf st) as [gdf|]; [| done].
  destruct (gdf_len gdf =? 0)%nat; [done |].
  unfold catch, bind. destruct (to_geojson w gdf) as [data|]; simpl; [| done].
  by eexists.
Qed.

(** The directory after the boundary block, by what the block found. *)
Lemma resolve_boundaries_files (o : Options) (st : St) :
  exists st' r,
    resolve_boundaries w o st = (st', Ok r) /\
    (ok_wfs r = true ->
       exists text, files st' = <["comuna_boundaries.geojson" := text]> (files st)) /\
    (ok_dpa r = true ->
       exists g, files st' = <["comuna_boundaries_oficial.geojson" := g]> (files st)) /\
    (ok_fallback r = Some true ->
       exists d, files st' = <["osm_boundary.geojson" := d]> (files st)) /\
    (ok_wfs r = false -> ok_dpa r = false -> ok_fallback r <> Some true ->
       files st' = files st).
Proof.
  assert (forall (st1 : St),
    files st1 = files st ->
    exists st' r,
      (okd <~ download_boundaries_dpa_zip w (dpa_url o) (opt_comuna o) ;;
       if okd : bool then ret (mkOutcome false okd None)
       else
         logger InfoUsingOsmFallback ;;
         okf <~ save_osm_boundary_fallback w ;;
         ret (mkOutcome false okd (Some okf))) st1 = (st', Ok r) /\
      ok_wfs r = false /\
      (ok_dpa r = true ->
         exists g, files st' = <["comuna_boundaries_oficial.geojson" := g]> (files st)) /\
      (ok_fallback r = Some true ->
         exists d, files st' = <["osm_boundary.geojson" := d]> (files st)) /\
      (ok_dpa r = false -> ok_fallback r <> Some true -> files st' = files st)) as Htail.
  { intros st1 H1.
    pose proof (download_boundaries_dpa_zip_files (dpa_url o) (opt_comuna o) st1) as Hd.
    destruct (download_boundaries_dpa_zip w (dpa_url o) (opt_comuna o) st1)
      as [st2 [[|]|]] eqn:E2; [| | done].
    - exists st2. eexists. rewrite (bind_ok _ _ _ _ _ E2). split; [done |].
      simpl. rewrite <- H1. repeat split; try done.
    - pose proof (save_osm_boundary_fallback_files (logger InfoUsingOsmFallback st2).1)
        as Hf.
      destruct (save_osm_boundary_fallback w (logger InfoUsingOsmFallback st2).1)
        as [st3 [okf|]] eqn:E3; [| by destruct Hf].
      exists st3. eexists. split.
      + rewrite (bind_ok _ _ _ _ _ E2). unfold bind at 1. simpl.
        by rewrite (bind_ok _ _ _ _ _ E3).
      + simpl in *. rewrite Hd, H1 in Hf.
        repeat split; try done.
        * intros [= ->]. done.
        * intros _ Hne. destruct okf; [by destruct Hne | done]. }
  destruct (skip_wfs o) eqn:Hskip.
  - destruct (Htail (logger InfoSkipWfs st).1 eq_refl)
      as (st' & r & E & Hw & Hd & Hf & Hn).
    exists st', r. split.
    + unfold resolve_boundaries. rewrite Hskip. exact E.
    + repeat split; try done. by rewrite Hw.
  - pose proof (download_boundaries_files (wfs_url o) st) as Hwfs.
    destruct (download_boundaries w (wfs_url o) st) as [st1 [okw|]] eqn:E1; [| done].
    rewrite (resolve_boundaries_unfold w o st st1 okw Hskip E1).
    destruct okw.
    + exists st1. eexists. split; [done |]. simpl. repeat split; try done.
    + destruct (Htail (logger WarnWfsNotDownloaded st1).1 Hwfs)
        as (st' & r & E & Hw & Hd & Hf & Hn).
      exists st', r. split; [exact E |].
      repeat split; try done. by rewrite Hw.
Qed.

End BoundaryFiles.

(** X14: the boundary block writes the file of the source that
    succeeded and nothing else: [comuna_boundaries.geojson] for the
    administrative service, [comuna_boundaries_oficial.geojson] for the
    official archive, [osm_boundary.geojson] for the fallback.  When
    every source fails, the output directory is exactly as it was. *)
Theorem boundary_block_writes_winner_only (w : World) (o : Options) (st : St) :
  exists r : BoundaryOutcome,
    (resolve_boundaries w o st).2 = Ok r /\
    (ok_wfs r = true ->
       exists text, files (resolve_boundaries w o st).1
                    = <["comuna_boundaries.geojson" := text]> (files st)) /\
    (ok_dpa r = true ->
       exists g, files (resolve_boundaries w o st).1
                 = <["comuna_boundaries_oficial.geojson" := g]> (files st)) /\
    (ok_fallback r = Some true ->
       exists d, files (resolve_boundaries w o st).1
                 = <["osm_boundary.geojson" := d]> (files st)) /\
    (ok_wfs r = false -> ok_dpa r = false -> ok_fallback r <> Some true ->
       files (resolve_boundaries w o st).1 = files st).
Proof.
  destruct (resolve_boundaries_files w o st) as (st' & r & E & H).
  exists r. by rewrite E.
Qed.

(** ** The sources the metadata reports *)

Section Metadata.

Lemma existsb_orb {A} (f g : A -> bool) (l : list A) :
  existsb (fun a => f a || g a) l = existsb f l || existsb g l.
Proof.
  induction l as [|a l IH]; simpl; [done |]. rewrite IH.
  destruct (f a), (g a), (existsb f l), (existsb g l); done.
Qed.

Lemma existsb_elem_of {A} (f : A -> bool) (l : list A) :
  existsb f l = true <-> exists a, a ∈ l /\ f a = true.
Proof.
  induction l as [|a l IH]; simpl.
  - split; [done | intros (a & Ha & _); by apply elem_of_nil in Ha].
  - rewrite orb_true_iff, IH. split.
    + intros [Ha | (x & Hx & Hf)]; [exists a; split; [by left | done] |].
      exists x. split; [by right | done].
    + intros (x & [-> | Hx]%elem_of_cons & Hf); [by left | right; by exists x].
Qed.

(** The list of sources is the list of all entries, without those no
    file name stands for. *)
Lemma fuentes_detectadas_filter (archivos : list string) :
  fuentes_detectadas archivos =
  List.filter (fun f => existsb (detects f) archivos) all_fuentes.
Proof.
  unfold fuentes_detectadas, all_fuentes, List.filter, detects.
  rewrite existsb_orb.
  destruct (existsb (fun name => startswith name "osm_") archivos),
    (existsb (fun name => startswith name "comuna_boundaries") archivos),
    (existsb (fun name => String.eqb name "osm_boundary.geojson") archivos),
    (existsb (fun name => String.eqb name "manzanas_censales.geojson") archivos),
    (existsb (fun name => String.eqb name "censo_manzanas_atributos.csv") archivos),
    (existsb (fun name => String.eqb name "srtm_dem.tif") archivos),
    (existsb (fun name => startswith name "sentinel2_B") archivos),
    (existsb (fun name => String.eqb name "uso_suelo_minvu.geojson") archivos);
    reflexivity.
Qed.

Lemma elem_of_fuentes_detectadas (f : Fuente) (archivos : list string) :
  f ∈ fuentes_detectadas archivos <-> exists name, name ∈ archivos /\ detects f name = true.
Proof.
  rewrite fuentes_detectadas_filter, list_elem_of_In, filter_In, existsb_elem_of.
  split; [by intros [_ H] | intros H; split; [| done]].
  destruct f; simpl; tauto.
Qed.

Lemma fuentes_detectadas_ext (l l' : list string) :
  (forall f, f ∈ fuentes_detectadas l <-> f ∈ fuentes_detectadas l') ->
  fuentes_detectadas l = fuentes_detectadas l'.
Proof.
  intros H. rewrite !fuentes_detectadas_filter. apply filter_ext. intros f.
  apply eq_true_iff_eq. specialize (H f).
  by rewrite !elem_of_fuentes_detectadas, <- !existsb_elem_of in H.
Qed.

Lemma elem_of_glob_all (name : string) (fs : gmap string bytes) :
  name ∈ glob_all fs <-> is_Some (fs !! name).
Proof. unfold glob_all. by rewrite elem_of_elements, elem_of_dom. Qed.

Lemma elem_of_fuentes_of (f : Fuente) (fs : gmap string bytes) :
  f ∈ fuentes_of fs <-> exists name, is_Some (fs !! name) /\ detects f name = true.
Proof.
  unfold fuentes_of. rewrite elem_of_fuentes_detectadas.
  by setoid_rewrite elem_of_glob_all.
Qed.

Lemma fuentes_of_insert (f : Fuente) (p : string) (d : bytes) (fs : gmap string bytes) :
  f ∈ fuentes_of (<[p := d]> fs) <-> detects f p = true \/ f ∈ fuentes_of fs.
Proof.
  rewrite !elem_of_fuentes_of. split.
  - intros (name & Hn & Hf). destruct (decide (p = name)) as [-> | Hne]; [by left |].
    right. exists name. by rewrite lookup_insert_ne in Hn.
  - intros [Hf | (name & Hn & Hf)].
    + exists p. by rewrite lookup_insert_eq.
    + exists name. split; [| done].
      destruct (decide (p = name)) as [-> | Hne];
        [by rewrite lookup_insert_eq | by rewrite lookup_insert_ne].
Qed.

Lemma srtm_dem_detected (fs : gmap string bytes) :
  SrtmDem ∈ fuentes_of fs <-> is_Some (fs !! "srtm_dem.tif").
Proof.
  rewrite elem_of_fuentes_of. simpl. split.
  - by intros (name & Hn & ->%String.eqb_eq).
  - intros Hn. by exists "srtm_dem.tif".
Qed.

(** The name of a tile begins with its hemisphere letter. *)
Lemma tile_code_head (la lo : Z) :
  exists c rest, tile_code la lo = String c rest /\ (c = "N"%char \/ c = "S"%char).
Proof.
  unfold tile_code. destruct (0 <=? la); eexists _, _; (split; [reflexivity | auto]).
Qed.

Lemma planned_code_head (b : BBox) (code : string) :
  code ∈ codes b \/ code ∈ full_codes b ->
  exists c rest, code = String c rest /\ (c = "N"%char \/ c = "S"%char).
Proof.
  intros [(la & lo & _ & _ & ->)%elem_of_codes
         | (la & lo & _ & _ & ->)%elem_of_full_codes]; apply tile_code_head.
Qed.

(** No file of the elevation stage other than [srtm_dem.tif] stands
    for a source. *)
Lemma elevation_file_not_detected (b : BBox) (f : Fuente) (name : string) :
  f <> SrtmDem -> elevation_file b name -> detects f name = false.
Proof.
  intros Hf [(code & Hcode & Hp) | Hr].
  - destruct (planned_code_head b code Hcode) as (c & rest & -> & Hc).
    destruct Hp as [-> | [-> | ->]]; destruct Hc as [-> | ->]; by destruct f.
  - unfold raster_file in Hr.
    repeat (apply elem_of_cons in Hr as [-> | Hr]; [by destruct f |]).
    by apply elem_of_nil in Hr.
Qed.

End Metadata.

(** X15: what [create_metadata] reports after the boundary block.  A
    source that succeeded makes it report the boundary entry; the
    fallback file [osm_boundary.geojson] makes it report OpenStreetMap
    as well, whether or not the OSM stage ran.  No other entry changes,
    no entry is lost, and when every source failed the report is the
    one the directory had before the block. *)
Theorem metadata_after_boundary_block (w : World) (o : Options) (st : St) :
  exists r : BoundaryOutcome,
    (resolve_boundaries w o st).2 = Ok r /\
    let before := fuentes_of (files st) in
    let after := fuentes_of (files (resolve_boundaries w o st).1) in
    (ok_wfs r = true \/ ok_dpa r = true \/ ok_fallback r = Some true ->
       IdeChileOsmLimites ∈ after) /\
    (ok_fallback r = Some true -> OpenStreetMap ∈ after) /\
    (ok_wfs r = false -> ok_dpa r = false -> ok_fallback r <> Some true ->
       after = before) /\
    (forall f, f ∈ before -> f ∈ after) /\
    (forall f, f <> OpenStreetMap -> f <> IdeChileOsmLimites ->
       f ∈ after -> f ∈ before).
Proof.
  destruct (resolve_boundaries_files w o st) as (st' & r & E & Hw & Hd & Hf & Hn).
  exists r. rewrite E. cbn [fst snd]. split; [done |]. cbv zeta.
  assert (files st' = files st \/
          exists p d, files st' = <[p := d]> (files st) /\
            (p = "comuna_boundaries.geojson" \/
             p = "comuna_boundaries_oficial.geojson" \/
             p = "osm_boundary.geojson")) as Hfiles.
  { destruct (ok_wfs r) eqn:E1.
    { destruct (Hw eq_refl) as (d & Hfs). right. eexists _, d. split; [exact Hfs | auto]. }
    destruct (ok_dpa r) eqn:E2.
    { destruct (Hd eq_refl) as (d & Hfs). right. eexists _, d. split; [exact Hfs | auto]. }
    destruct (ok_fallback r) as [[|]|] eqn:E3.
    - destruct (Hf eq_refl) as (d & Hfs). right. eexists _, d. split; [exact Hfs | auto].
    - left. by apply Hn.
    - left. by apply Hn. }
  split; [| split; [| split; [| split]]].
  - intros [H | [H | H]].
    + destruct (Hw H) as (d & ->). apply fuentes_of_insert. by left.
    + destruct (Hd H) as (d & ->). apply fuentes_of_insert. by left.
    + destruct (Hf H) as (d & ->). apply fuentes_of_insert. by left.
  - intros H. destruct (Hf H) as (d & ->). apply fuentes_of_insert. by left.
  - intros H1 H2 H3. by rewrite (Hn H1 H2 H3).
  - intros f Hin. destruct Hfiles as [-> | (p & d & -> & _)]; [done |].
    apply fuentes_of_insert. by right.
  - intros f Hne1 Hne2 Hin. destruct Hfiles as [<- | (p & d & Hfs & Hp)]; [done |].
    rewrite Hfs in Hin. apply fuentes_of_insert in Hin as [Hdet | Hin]; [| done].
    exfalso. destruct Hp as [-> | [-> | ->]]; by destruct f.
Qed.

(** X16: what [create_metadata] reports after the elevation stage.  No
    entry other than the tile raster's changes, and that one is never
    lost.  A stage that returned [False] leaves the report as it was.
    A stage that returned [True] without the entry being reported has
    written the Copernicus raster, which the metadata does not list. *)
Theorem metadata_after_elevation (w : World) (st : St) :
  let before := fuentes_of (files st) in
  let after := fuentes_of (files (download_srtm_tiles w st).1) in
  (forall f, f <> SrtmDem -> (f ∈ after <-> f ∈ before)) /\
  (SrtmDem ∈ before -> SrtmDem ∈ after) /\
  ((download_srtm_tiles w st).2 = Ok false -> after = before) /\
  ((download_srtm_tiles w st).2 = Ok true -> SrtmDem ∉ after ->
     is_Some (files (download_srtm_tiles w st).1 !! "copernicus_dem.tif")).
Proof.
  cbv zeta.
  assert (forall f, f <> SrtmDem ->
            (f ∈ fuentes_of (files (download_srtm_tiles w st).1) <->
             f ∈ fuentes_of (files st))) as Hother.
  { intros f Hf. rewrite !elem_of_fuentes_of.
    assert (forall name, detects f name = true ->
              files (download_srtm_tiles w st).1 !! name = files st !! name) as Hsame.
    { intros name Hdet. rewrite download_srtm_tiles_unfold.
      destruct (_load_boundary_for_dem w st) as [boundary|]; [| done].
      destruct (gdf_empty boundary); [done |].
      apply (kept_elevation_body w name (files st !! name) boundary); [| done].
      intros He. by rewrite (elevation_file_not_detected _ f name Hf He) in Hdet. }
    split; intros (name & Hn & Hdet); exists name; (split; [| done]).
    - by rewrite <- (Hsame name Hdet).
    - by rewrite (Hsame name Hdet). }
  pose proof (download_srtm_tiles_spec w _ _ st (conj eq_refl eq_refl)) as Hspec.
  destruct (download_srtm_tiles w st) as [st' [ok|]] eqn:E; [| done].
  cbn [fst snd] in *.
  split; [done |]. split; [| split].
  - rewrite !srtm_dem_detected. intros Hb.
    destruct ok; [destruct Hspec as [[H1 _] | [H1 _]] | destruct Hspec as [H1 _]];
      [done | by rewrite H1 | by rewrite H1].
  - intros [= ->]. destruct Hspec as [H1 _].
    apply fuentes_detectadas_ext. intros f.
    fold (fuentes_of (files st')). fold (fuentes_of (files st)).
    destruct f; try (by apply Hother).
    by rewrite !srtm_dem_detected, H1.
  - intros [= ->] Hnot. destruct Hspec as [[H1 _] | [_ H2]]; [| done].
    exfalso. apply Hnot. by apply srtm_dem_detected.
Qed.

(** ** Matching tokens in order *)

Section Matches.

Lemma append_cons (c : ascii) (s t : string) : String c s +:+ t = String c (s +:+ t).
Proof. reflexivity. Qed.

Lemma append_assoc_r (s t u : string) : (s +:+ t) +:+ u = s +:+ t +:+ u.
Proof.
  induction s as [|c s IH]; [done |]. rewrite !append_cons. by f_equal.
Qed.

Lemma prefix_spec (t s : string) :
  String.prefix t s = true <-> exists r, s = t +:+ r.
Proof.
  revert s. induction t as [|a t IH]; intros s.
  - split; [intros _; by exists s | intros _; by destruct s].
  - destruct s as [|b s]; simpl.
    + split; [done | by intros (r & Hr)].
    + destruct (ascii_dec a b) as [-> | Hne].
      * rewrite IH. split; intros (r & Hr); exists r.
        -- by rewrite append_cons, <- Hr.
        -- rewrite append_cons in Hr. by injection Hr.
      * split; [done | intros (r & Hr)]. rewrite append_cons in Hr.
        injection Hr as Hb _. by destruct Hne.
Qed.

Lemma find_at_unfold (t s : string) (i : nat) :
  find_at t s i =
  if String.prefix t s then Some i
  else match s with
       | EmptyString => None
       | String _ s' => find_at t s' (S i)
       end.
Proof. by destruct s. Qed.

Lemma find_at_some (t s : string) (i pos : nat) :
  find_at t s i = Some pos ->
  exists gap rest,
    s = gap +:+ t +:+ rest /\ pos = (i + String.length gap)%nat /\
    forall gap' rest', s = gap' +:+ t +:+ rest' ->
      (String.length gap <= String.length gap')%nat.
Proof.
  revert i. induction s as [|c s IH]; intros i; rewrite find_at_unfold;
    destruct (String.prefix t _) eqn:Hp.
  - intros [= <-]. apply prefix_spec in Hp as (r & Hr).
    exists "", r. repeat split; [done | simpl; lia | simpl; lia].
  - done.
  - intros [= <-]. apply prefix_spec in Hp as (r & Hr).
    exists "", r. repeat split; [done | simpl; lia | simpl; lia].
  - intros Hf. destruct (IH _ Hf) as (gap & rest & -> & -> & Hmin).
    exists (String c gap), rest. repeat split; [simpl; lia |].
    intros [|c' gap'] rest' E.
    + assert (String.prefix t (String c (gap +:+ t +:+ rest)) = true) as Hp'
        by (apply prefix_spec; by exists rest').
      congruence.
    + rewrite append_cons in E. injection E as _ E. simpl.
      specialize (Hmin gap' rest' E). lia.
Qed.

Lemma find_at_none (t s : string) (i : nat) (gap rest : string) :
  find_at t s i = None -> s <> gap +:+ t +:+ rest.
Proof.
  revert i gap. induction s as [|c s IH]; intros i gap; rewrite find_at_unfold;
    destruct (String.prefix t _) eqn:Hp; try done.
  - intros _ E. destruct gap as [|c' gap]; [| done].
    assert (String.prefix t "" = true) as Hp' by (apply prefix_spec; by exists rest).
    congruence.
  - intros Hf E. destruct gap as [|c' gap].
    + assert (String.prefix t (String c s) = true) as Hp'
        by (apply prefix_spec; by exists rest).
      congruence.
    + rewrite append_cons in E. injection E as _ E. by apply (IH (S i) gap Hf).
Qed.

Lemma string_skip_app (gap rest : string) :
  string_skip (String.length gap) (gap +:+ rest) = rest.
Proof. induction gap as [|c gap IH]; [done | by rewrite append_cons]. Qed.

Lemma string_skip_add (a b : nat) (s : string) :
  string_skip (a + b) s = string_skip b (string_skip a s).
Proof.
  revert s. induction a as [|a IH]; intros s; [done |].
  destruct s as [|c s]; simpl; [by destruct b | apply IH].
Qed.

Lemma length_string_skip (n : nat) (s : string) :
  String.length (string_skip n s) = (String.length s - n)%nat.
Proof.
  revert s. induction n as [|n IH]; intros s; simpl; [lia |].
  destruct s as [|c s]; simpl; [done | apply IH].
Qed.

(** Of two ways to cut a string, the one with the shorter head has the
    longer tail. *)
Lemma append_eq_tail (a a' r r' : string) :
  a +:+ r = a' +:+ r' -> (String.length a <= String.length a')%nat ->
  exists x, r = x +:+ r'.
Proof.
  revert a'. induction a as [|c a IH]; intros a' E Hlen.
  - exists a'. exact E.
  - destruct a' as [|c' a']; [simpl in Hlen; lia |].
    rewrite !append_cons in E. injection E as _ E.
    apply (IH a' E). simpl in Hlen. lia.
Qed.

Lemma in_order_gap (ts : list string) (gap rest : string) :
  in_order ts rest -> in_order ts (gap +:+ rest).
Proof.
  intros H. destruct H as [s | t ts gap' rest' H]; [constructor |].
  rewrite <- append_assoc_r. by constructor.
Qed.

Lemma in_order_cons_inv (t : string) (ts : list string) (s : string) :
  in_order (t :: ts) s ->
  exists gap rest, s = gap +:+ t +:+ rest /\ in_order ts rest.
Proof. inversion 1 as [| t' ts' gap rest Hin]. by exists gap, rest. Qed.

Lemma matches_from_spec (tokens : list string) (s : string) (idx : nat) :
  (idx <= String.length s)%nat ->
  matches_from tokens s idx = true <-> in_order tokens (string_skip idx s).
Proof.
  revert idx. induction tokens as [|t ts IH]; intros idx Hidx; simpl.
  - split; [constructor | done].
  - unfold str_find. rewrite (proj2 (Nat.leb_le _ _) Hidx).
    destruct (find_at t (string_skip idx s) idx) as [pos|] eqn:Hf.
    + destruct (find_at_some _ _ _ _ Hf) as (gap & rest & Hs & -> & Hmin).
      pose proof (length_string_skip idx s) as Hlen.
      rewrite Hs, !length_append in Hlen.
      assert (string_skip (idx + String.length gap + String.length t) s = rest) as Hrest.
      { rewrite <- Nat.add_assoc, string_skip_add, Hs, <- length_append.
        by rewrite <- append_assoc_r, string_skip_app. }
      rewrite IH, Hrest by lia. rewrite Hs. split.
      * by constructor.
      * intros (gap' & rest' & E & Hin)%in_order_cons_inv.
        destruct (append_eq_tail (gap +:+ t) (gap' +:+ t) rest rest') as (x & Hx).
        { by rewrite !append_assoc_r. }
        { rewrite !length_append. rewrite <- Hs in E.
          specialize (Hmin gap' rest' E). lia. }
        rewrite Hx. by apply in_order_gap.
    + split; [done |].
      intros (gap' & rest' & E & Hin)%in_order_cons_inv.
      by apply (find_at_none _ _ _ gap' rest') in Hf.
Qed.

End Matches.

(** X17: [_matches] answers [True] exactly when the tokens of the
    region name can be read in the normalised stem one after the other,
    in their order and without overlap: taking each token at its first
    position after the previous one misses no way of reading them. *)
Theorem matches_iff_in_order (tokens : list string) (norm_base : string) :
  _matches tokens norm_base = true <-> in_order tokens norm_base.
Proof. unfold _matches. by rewrite matches_from_spec by lia. Qed.

(** ** An answer that cannot be decompressed *)

(** X18: when a mirror whose address ends in [.gz] answers 200 with a
    body that cannot be decompressed, the turn of the loop ends with the
    body left in the directory as the compressed file of the tile: the
    grid file is not written, [hgt_files] and the log are as before,
    and the loop goes on to the next mirror. *)
Theorem corrupt_gzip_left_behind
    (w : World) (p : Pass) (code url : string) (st : St) (r : Response) :
  PyStr.endswith url ".gz" = true ->
  http_get w (length (calls st)) url = Some r ->
  status_code r = 200 ->
  gunzip w (content r) = None ->
  try_url w p code url st =
  ({| comuna := comuna st; boundary_gdf := boundary_gdf st;
      files := <[code +:+ ".hgt.gz" := content r]> (files st);
      calls := calls st ++ [TileGet code url];
      log := log st; hgt_files := hgt_files st |}, Ok false).
Proof.
  intros Hgz Hget Hstatus Hcorrupt.
  unfold try_url, catch, bind at 1, call. rewrite Hget. simpl.
  rewrite Hstatus. simpl.
  unfold materialize; cbv zeta. rewrite Hgz.
  unfold bind, gzip_read, read_bytes, bind. simpl.
  rewrite lookup_insert_eq. simpl. by rewrite Hcorrupt.
Qed.

Lemma corrupt_gzip_left_behind_witness :
  try_url (world_of short_gz_net (fun _ => None) (fun _ => Some region)
             (fun _ => None) (fun _ _ => None))
    First "S35W072" "https://srtm.kurviger.de/SRTM3/S35W072.hgt.gz" (fresh "Pichilemu") =
  ({| comuna := "Pichilemu"; boundary_gdf := None;
      files := <["S35W072" +:+ ".hgt.gz" := [Byte.x1f; Byte.x8b]]> ∅;
      calls := [] ++ [TileGet "S35W072" "https://srtm.kurviger.de/SRTM3/S35W072.hgt.gz"];
      log := []; hgt_files := [] |}, Ok false).
Proof.
  apply (corrupt_gzip_left_behind
           (world_of short_gz_net (fun _ => None) (fun _ => Some region)
              (fun _ => None) (fun _ _ => None))
           First "S35W072" "https://srtm.kurviger.de/SRTM3/S35W072.hgt.gz"
           (fresh "Pichilemu") (mkResponse 200 [Byte.x1f; Byte.x8b]));
    reflexivity.
Defined.

(** ** The list of tiles *)

Section Listed.

Context (w : World) (P : string -> Prop).

Lemma fetch_tile_listed (p : Pass) (code : string) (st : St) :
  P code -> tiles_listed P st -> hgt_path code ∉ hgt_files st ->
  tiles_listed P (fetch_tile w p code st).1 /\
  forall q, q ∈ hgt_files (fetch_tile w p code st).1 ->
    q ∈ hgt_files st \/ q = hgt_path code.
Proof.
  intros HP [Hnd Hl] Hnew.
  destruct (files st !! hgt_path code) as [data|] eqn:E.
  - rewrite (fetch_tile_existing w code p st data E).
    unfold hgt_files_append, set_hgt_files, tiles_listed. cbn [fst hgt_files files].
    split; [split |].
    + apply NoDup_app. repeat split; [done | | apply NoDup_singleton].
      intros q Hq ->%list_elem_of_singleton. done.
    + intros q [Hq | ->%list_elem_of_singleton]%elem_of_app; [by apply Hl |].
      split; [by rewrite E | by exists code].
    + intros q [Hq | ->%list_elem_of_singleton]%elem_of_app; auto.
  - destruct (try_urls_exact w p code (mirror_urls code) st)
      as (st1 & d & n & E1 & _ & Hh & Hn).
    pose proof (respects_try_urls w p code (mirror_urls code) st) as Hfr.
    rewrite E1 in Hfr. simpl in Hfr.
    assert (fetch_tile w p code st =
            (if d then ret tt else logger (WarnTileFailed p code)) st1) as ->.
    { unfold fetch_tile, bind at 1, exists_; cbv beta zeta. rewrite E.
      rewrite bool_decide_eq_false_2 by (by intros [? ?]).
      by rewrite (bind_ok _ _ _ _ _ E1). }
    assert (forall q, q ∈ hgt_files st ->
              is_Some (files st1 !! q) /\ exists c, P c /\ q = hgt_path c) as Hold.
    { intros q Hq. destruct (Hl q Hq) as [Hs (c & Hc & ->)].
      split; [| by exists c].
      rewrite (frame_files _ _ _ _ _ Hfr); [done |].
      apply tile_paths_other. intros ->. done. }
    assert (tiles_listed P st1 /\
            forall q, q ∈ hgt_files st1 -> q ∈ hgt_files st \/ q = hgt_path code)
      as Hst1.
    { unfold tiles_listed. rewrite Hh. destruct d.
      - destruct Hn as [_ Hs]. split; [split |].
        + apply NoDup_app. repeat split; [done | | apply NoDup_singleton].
          intros q Hq ->%list_elem_of_singleton. done.
        + intros q [Hq | ->%list_elem_of_singleton]%elem_of_app; [by apply Hold |].
          split; [done | by exists code].
        + intros q [Hq | ->%list_elem_of_singleton]%elem_of_app; auto.
      - rewrite app_nil_r. split; [split |]; auto. }
    by destruct d.
Qed.

Lemma fetch_tiles_listed (p : Pass) (cs : list string) (st : St) :
  NoDup cs -> (forall c, c ∈ cs -> P c /\ hgt_path c ∉ hgt_files st) ->
  tiles_listed P st -> tiles_listed P (fetch_tiles w p cs st).1.
Proof.
  revert st. induction cs as [|c rest IH]; intros st Hnd Hcs Hl; [done |].
  apply NoDup_cons in Hnd as [Hc Hnd]. simpl.
  destruct (Hcs c) as [HP Hnew]; [by left |].
  destruct (fetch_tile_listed p c st HP Hl Hnew) as [Hl1 Hsub].
  destruct (total_run _ st (total_fetch_tile w p c)) as (st1 & [] & E1).
  rewrite (bind_ok _ _ _ _ _ E1). rewrite E1 in Hl1, Hsub. simpl in Hl1, Hsub.
  apply IH; [done | | done].
  intros c' Hc'. destruct (Hcs c') as [HP' Hnew']; [by right |].
  split; [done |]. intros [Hq | Hq%hgt_path_inj]%Hsub; [done |]. by subst.
Qed.

Lemma forced_download_listed (b : BBox) (st : St) :
  hgt_files st = [] ->
  hgt_files (forced_download w b st).1 = [] \/
  (hgt_files (forced_download w b st).1 = [hgt_path (code_force b)] /\
   is_Some (files (forced_download w b st).1 !! hgt_path (code_force b))).
Proof.
  intros He.
  destruct (http_get w (length (calls st)) (mapzen_url b)) as [r|] eqn:Hget.
  2: { left. unfold forced_download, bind, catch, call; simpl. by rewrite Hget. }
  destruct (status_code r =? 200) eqn:Hs.
  2: { left. unfold forced_download, bind, catch, call; simpl.
       rewrite Hget; simpl. by rewrite Hs. }
  apply Z.eqb_eq in Hs.
  destruct (gunzip w (content r)) as [raw|] eqn:Hgz.
  - rewrite (forced_download_unfold w b st r raw Hget Hs Hgz).
    unfold bind, call; simpl.
    destruct (Z.of_nat (length raw) >? 1000000); simpl; [right | by left].
    rewrite He. split; [done |]. rewrite lookup_insert_eq. by eexists.
  - left. unfold forced_download, bind, catch, call, gzip_read, read_bytes, bind; simpl.
    rewrite Hget; simpl. rewrite Hs; simpl.
    rewrite lookup_insert_eq; simpl. by rewrite Hgz.
Qed.

End Listed.

(** X19: when the three attempts at the tiles are over, every path on
    [hgt_files] is the grid file of a tile of one of the two plans of
    the box, is listed once, and is on disk: the mosaic can read each
    of the tiles it is made of. *)
Theorem listed_tiles_on_disk (w : World) (b : BBox) (st : St) :
  NoDup (hgt_files (acquire_tiles w b st).1) /\
  (forall q, q ∈ hgt_files (acquire_tiles w b st).1 ->
     is_Some (files (acquire_tiles w b st).1 !! q) /\
     exists code, (code ∈ codes b \/ code ∈ full_codes b) /\ q = hgt_path code) /\
  exists srcs,
    read_all (hgt_files (acquire_tiles w b st).1) (acquire_tiles w b st).1
    = ((acquire_tiles w b st).1, Ok srcs).
Proof.
  assert (tiles_listed (planned_code b) (acquire_tiles w b st).1) as [Hnd Hl].
  { rewrite acquire_tiles_unfold.
    assert (tiles_listed (planned_code b) (at_first_pass b st)) as H1.
    { split; [apply NoDup_nil_2 | intros q Hq; by apply elem_of_nil in Hq]. }
    pose proof (fetch_tiles_listed w (planned_code b) First (codes b)
                  (at_first_pass b st) (NoDup_sorted _)) as H2.
    assert (forall c, c ∈ codes b ->
              planned_code b c /\ hgt_path c ∉ hgt_files (at_first_pass b st)) as Hc2.
    { intros c Hc. split; [by left | apply not_elem_of_nil]. }
    specialize (H2 Hc2 H1).
    destruct (total_run _ (at_first_pass b st) (total_fetch_tiles w First (codes b)))
      as (st2 & [] & E2).
    rewrite E2 in *. simpl in H2.
    rewrite retry_full_range_unfold.
    destruct (hgt_files st2) as [|h rest] eqn:E3.
    - unfold bind at 1. unfold bind at 1. simpl.
      set (st2' := {| comuna := _ |}).
      assert (tiles_listed (planned_code b) st2') as H2'.
      { split; simpl; rewrite E3; [apply NoDup_nil_2 |].
        intros q Hq; by apply elem_of_nil in Hq. }
      pose proof (fetch_tiles_listed w (planned_code b) Second (full_codes b) st2'
                    (NoDup_sorted _)) as H3.
      assert (forall c, c ∈ full_codes b ->
                planned_code b c /\ hgt_path c ∉ hgt_files st2') as Hc3.
      { intros c Hc. split; [by right |]. simpl. rewrite E3. apply not_elem_of_nil. }
      specialize (H3 Hc3 H2').
      destruct (total_run _ st2' (total_fetch_tiles w Second (full_codes b)))
        as (st3 & [] & E4).
      rewrite E4 in *. simpl in H3.
      destruct (hgt_files st3) as [|h3 rest3] eqn:E5; [| exact H3].
      unfold bind at 1. simpl.
      set (st4 := {| comuna := _ |}).
      assert (hgt_files st4 = []) as E6 by exact E5.
      unfold tiles_listed.
      destruct (forced_download_listed w b st4 E6) as [Hf | [Hf Hs]]; rewrite Hf.
      + split; [apply NoDup_nil_2 |].
        intros q Hq; by apply elem_of_nil in Hq.
      + split; [apply NoDup_singleton |].
        intros q ->%list_elem_of_singleton. split; [done |].
        exists (code_force b). split; [left; apply code_force_planned | done].
    - simpl. rewrite E3. exact H2. }
  split; [done |]. split; [exact Hl |].
  assert (forall (l : list string) (s : St),
            (forall q, q ∈ l -> is_Some (files s !! q)) ->
            exists srcs, read_all l s = (s, Ok srcs)) as Hread.
  { induction l as [|q l IH]; intros s Hs; [by exists [] |].
    destruct (Hs q) as [d Hd]; [by left |].
    destruct (IH s) as (ds & Hds); [intros q' Hq'; apply Hs; by right |].
    exists (d :: ds). simpl. unfold bind at 1, read_bytes. rewrite Hd. simpl.
    unfold bind at 1. by rewrite Hds. }
  apply Hread. intros q Hq. by apply Hl.
Qed.

(** ** The OSM stage *)

Section OsmStage.

Context (ox : Osmnx).

Lemma osm_network_spec (q : string) (net_types : list string)
    (fs : gmap string bytes) (geocoded : option GeoDataFrame) :
  match osm_network ox q net_types fs geocoded with
  | (true, fs', _) =>
      (exists net_type graphml,
         net_type ∈ net_types /\ graph_from_place ox q net_type = Some graphml /\
         fs' = <["osm_network.graphml" := graphml]> fs)
  | (false, fs', geocoded') =>
      fs' = fs /\ geocoded' = geocoded /\
      forall net_type, net_type ∈ net_types -> graph_from_place ox q net_type = None
  end.
Proof.
  induction net_types as [|net_type rest IH]; simpl.
  - repeat split. intros net_type Hin. by apply elem_of_nil in Hin.
  - destruct (graph_from_place ox q net_type) as [graphml|] eqn:E.
    + exists net_type, graphml. split; [by left | done].
    + destruct (osm_network ox q rest fs geocoded) as [[[|] fs'] geocoded'].
      * destruct IH as (n & g & Hn & Hg & Hfs). exists n, g. split; [by right | done].
      * destruct IH as (-> & -> & Hnone). repeat split.
        intros n [-> | Hn]%elem_of_cons; [done | by apply Hnone].
Qed.

Lemma osm_features_spec (q : string) (tag : FeatureTag) (file : string)
    (fs : gmap string bytes) :
  forall p, p <> file -> (osm_features ox q tag file fs).2 !! p = fs !! p.
Proof.
  intros p Hp. unfold osm_features.
  destruct (features_from_place ox q tag) as [[data|]|]; simpl; try done.
  by rewrite lookup_insert_ne.
Qed.

Lemma osm_loop_cons (q : string) (rest : list string)
    (fs : gmap string bytes) (geocoded : option GeoDataFrame) :
  osm_loop ox (q :: rest) fs geocoded =
  match osm_network ox q ["drive"; "all"] fs geocoded with
  | (true, fs, geocoded) =>
      match osm_features ox q Building "osm_buildings.geojson" fs with
      | (buildings_saved, fs) =>
          match osm_features ox q Amenity "osm_amenities.geojson" fs with
          | (amenities_saved, fs) =>
              ((true, buildings_saved, amenities_saved), fs, geocoded)
          end
      end
  | (false, fs, geocoded) => osm_loop ox rest fs geocoded
  end.
Proof. reflexivity. Qed.

Lemma osm_loop_spec (queries : list string)
    (fs : gmap string bytes) (geocoded : option GeoDataFrame) :
  match osm_loop ox queries fs geocoded with
  | ((true, _, _), fs', _) =>
      some_graph ox queries /\ is_Some (fs' !! "osm_network.graphml") /\
      forall p, p ∉ ["osm_network.graphml"; "osm_buildings.geojson";
                     "osm_amenities.geojson"] -> fs' !! p = fs !! p
  | ((false, buildings_saved, amenities_saved), fs', geocoded') =>
      buildings_saved = false /\ amenities_saved = false /\
      fs' = fs /\ geocoded' = geocoded /\ ~ some_graph ox queries
  end.
Proof.
  induction queries as [|q rest IH].
  - simpl. repeat split. intros (q & _ & _ & Hq & _). by apply elem_of_nil in Hq.
  - rewrite osm_loop_cons.
    pose proof (osm_network_spec q ["drive"; "all"] fs geocoded) as Hn.
    destruct (osm_network ox q ["drive"; "all"] fs geocoded)
      as [[[|] fs1] geocoded1].
    + destruct Hn as (net_type & graphml & Hin & Hg & ->).
      pose proof (osm_features_spec q Building "osm_buildings.geojson"
                    (<["osm_network.graphml" := graphml]> fs)) as Hb.
      destruct (osm_features ox q Building "osm_buildings.geojson" _)
        as [buildings_saved fs2].
      pose proof (osm_features_spec q Amenity "osm_amenities.geojson" fs2) as Ha.
      destruct (osm_features ox q Amenity "osm_amenities.geojson" fs2)
        as [amenities_saved fs3].
      simpl in Ha, Hb. cbv beta iota. split; [| split].
      * exists q, net_type, graphml. split; [by left | done].
      * rewrite Ha, Hb by done. rewrite lookup_insert_eq. by eexists.
      * intros p Hp.
        assert (p <> "osm_network.graphml") as H1 by (intros ->; apply Hp; by left).
        assert (p <> "osm_buildings.geojson") as H2
          by (intros ->; apply Hp; right; by left).
        assert (p <> "osm_amenities.geojson") as H3
          by (intros ->; apply Hp; do 2 right; by left).
        rewrite Ha, Hb by done. by rewrite lookup_insert_ne.
    + destruct Hn as (-> & -> & Hnone).
      destruct (osm_loop ox rest fs geocoded) as [[[[[|] b] a] fs'] geocoded'].
      * destruct IH as ((q' & n & g & Hq & Hn & Hg) & Hs & Hfr).
        split; [| done]. exists q', n, g. split; [by right | done].
      * destruct IH as (-> & -> & -> & -> & Hno). repeat split.
        intros (q' & n & g & [-> | Hq]%elem_of_cons & Hn & Hg).
        -- by rewrite (Hnone n Hn) in Hg.
        -- apply Hno. by exists q', n, g.
Qed.

End OsmStage.

(** X20: the OSM stage succeeds exactly when some query gives a road
    network: buildings and amenities are asked for only after the
    network is saved, so they never make the stage succeed on their
    own.  A stage that fails leaves the directory as it was and stores
    no geometry of the region; a stage that succeeds has written
    [osm_network.graphml] and may have touched the two feature files,
    and no other file. *)
Theorem osm_stage_succeeds_with_graph
    (ox : Osmnx) (comuna : string) (fs : gmap string bytes) :
  match osm_data_of ox comuna fs with
  | (true, _, fs') =>
      some_graph ox (osm_queries ox comuna) /\
      is_Some (fs' !! "osm_network.graphml") /\
      forall p, p ∉ ["osm_network.graphml"; "osm_buildings.geojson";
                     "osm_amenities.geojson"] -> fs' !! p = fs !! p
  | (false, geocoded, fs') =>
      ~ some_graph ox (osm_queries ox comuna) /\ fs' = fs /\ geocoded = None
  end.
Proof.
  unfold osm_data_of.
  pose proof (osm_loop_spec ox (osm_queries ox comuna) fs None) as H.
  destruct (osm_loop ox (osm_queries ox comuna) fs None)
    as [[[[[|] b] a] fs'] geocoded]; simpl.
  - done.
  - destruct H as (-> & -> & -> & -> & Hno). done.
Qed.

Lemma osm_data_of_failed (ox : Osmnx) (comuna : string) (fs : gmap string bytes) :
  ~ some_graph ox (osm_queries ox comuna) ->
  osm_data_of ox comuna fs = (false, None, fs).
Proof.
  intros Hno. unfold osm_data_of.
  pose proof (osm_loop_spec ox (osm_queries ox comuna) fs None) as H.
  destruct (osm_loop ox (osm_queries ox comuna) fs None)
    as [[[[[|] b] a] fs'] geocoded].
  - by destruct H as [H _].
  - by destruct H as (-> & -> & -> & -> & _).
Qed.

(** X21: when no query gives a road network, the OSM stage answers
    [False], leaves the directory as it was and stores no geometry of
    the region; the boundary fallback, which only writes that geometry,
    then fails as well and writes nothing. *)
Theorem no_graph_no_fallback (ox : Osmnx) (w : World) (st : St) :
  osm_data w = osm_data_of ox ->
  boundary_gdf st = None ->
  ~ some_graph ox (osm_queries ox (comuna st)) ->
  (download_osm_data w st).2 = Ok false /\
  files (download_osm_data w st).1 = files st /\
  boundary_gdf (download_osm_data w st).1 = None /\
  (save_osm_boundary_fallback w (download_osm_data w st).1).2 = Ok false /\
  files (save_osm_boundary_fallback w (download_osm_data w st).1).1 = files st.
Proof.
  intros Hox Hnone Hno.
  assert (download_osm_data w st =
          ({| comuna := comuna st; boundary_gdf := boundary_gdf st;
              files := files st; calls := calls st; log := log st;
              hgt_files := hgt_files st |}, Ok false)) as E.
  { unfold download_osm_data, bind at 1, get_st.
    by rewrite Hox, (osm_data_of_failed ox (comuna st) (files st) Hno). }
  rewrite E. cbn [fst snd files boundary_gdf].
  repeat split; try done;
    unfold save_osm_boundary_fallback, bind, get_st; simpl; by rewrite Hnone.
Qed.

Lemma no_graph_no_fallback_witness :
  (download_osm_data offline (fresh "Pichilemu")).2 = Ok false /\
  files (download_osm_data offline (fresh "Pichilemu")).1 = files (fresh "Pichilemu") /\
  boundary_gdf (download_osm_data offline (fresh "Pichilemu")).1 = None /\
  (save_osm_boundary_fallback offline
     (download_osm_data offline (fresh "Pichilemu")).1).2 = Ok false /\
  files (save_osm_boundary_fallback offline
           (download_osm_data offline (fresh "Pichilemu")).1).1
  = files (fresh "Pichilemu").
Proof.
  assert (osm_data offline = osm_data_of osm_down) as H1 by reflexivity.
  assert (boundary_gdf (fresh "Pichilemu") = None) as H2 by reflexivity.
  assert (~ some_graph osm_down (osm_queries osm_down (comuna (fresh "Pichilemu"))))
    as H3 by (intros (q & n & g & _ & _ & Hg); discriminate Hg).
  exact (no_graph_no_fallback osm_down offline (fresh "Pichilemu") H1 H2 H3).
Defined.

(** ** [main] goes on *)

Section Main.

Context (w : World).









(** *** What the stages before the elevation block leave *)













End Main.



(** The census block can stop [main]: with the archive not extracted
    the run ends in the exception, and the elevation stage was not
    reached. *)
Example census_stops_main :
  (main no_census_archive censo_srtm (DataDownloader "Pichilemu" ∅)).2 = Raised /\
  elevation_calls (main no_census_archive censo_srtm (DataDownloader "Pichilemu" ∅)).1
    = [] /\
  files (main no_census_archive censo_srtm (DataDownloader "Pichilemu" ∅)).1 = ∅.
Proof. by vm_compute. Qed.


(** ** Tiles already in the directory *)

Section Reuse.

Context (w : World).

(** What a loop over tile codes puts on the list names a code of the
    loop. *)
Lemma fetch_tiles_listed_from (p : Pass) (cs : list string) (code : string) (st : St) :
  hgt_path code ∈ hgt_files (fetch_tiles w p cs st).1 ->
  hgt_path code ∈ hgt_files st \/ code ∈ cs.
Proof.
  intros Hin.
  destruct (frame_hgt _ _ _ _ _ (respects_fetch_tiles w p cs st)) as (hs & E & Hall).
  rewrite E in Hin. apply elem_of_app in Hin as [Hin | Hin]; [by left | right].
  destruct (proj1 (Forall_forall _ _) Hall _ Hin) as (c & Hc & Ec).
  by rewrite (hgt_path_inj _ _ Ec).
Qed.

(** A tile on disk that the corner plan does not name is listed by the
    second loop, and by nothing else. *)
Lemma acquire_lists_unplanned (b : BBox) (code : string) (d : bytes) (st : St) :
  files st !! hgt_path code = Some d -> code ∉ codes b ->
  (hgt_path code ∈ hgt_files (acquire_tiles w b st).1 <->
   code ∈ full_codes b /\
   hgt_files (fetch_tiles w First (codes b) (at_first_pass b st)).1 = []).
Proof.
  intros Hd Hout.
  assert (untouched code d (calls st) (at_first_pass b st)) as H1.
  { split; [done |]. exists []. split; [by rewrite app_nil_r | by inversion 1]. }
  rewrite acquire_tiles_unfold.
  pose proof (untouched_fetch_tiles w code d _ First (codes b) _ H1) as H2.
  assert (hgt_path code ∉
            hgt_files (fetch_tiles w First (codes b) (at_first_pass b st)).1) as N2.
  { intros [Hin | Hin]%fetch_tiles_listed_from; [by inversion Hin | done]. }
  destruct (total_run _ (at_first_pass b st) (total_fetch_tiles w First (codes b)))
    as (st2 & [] & E2).
  rewrite E2 in *. cbn [fst snd] in *.
  rewrite retry_full_range_unfold.
  destruct (hgt_files st2) as [|h hs] eqn:E4.
  - change ((logger WarnRetryFullRange ;;
             logger (InfoSecondCodes (full_codes b)) ;;
             fetch_tiles w Second (full_codes b)) st2)
      with (fetch_tiles w Second (full_codes b)
              (logger (InfoSecondCodes (full_codes b))
                 (logger WarnRetryFullRange st2).1).1).
    set (st2' := (logger (InfoSecondCodes (full_codes b))
                    (logger WarnRetryFullRange st2).1).1).
    assert (untouched code d (calls st) st2') as H2' by exact H2.
    assert (hgt_files st2' = []) as E4' by exact E4.
    pose proof (fetch_tiles_appends w code d _ Second (full_codes b) _ H2') as A3.
    pose proof (fetch_tiles_listed_from Second (full_codes b) code st2') as L3.
    rewrite E4' in L3.
    destruct (total_run _ st2' (total_fetch_tiles w Second (full_codes b)))
      as (st3 & [] & E3).
    rewrite E3 in *. cbn [fst snd] in *.
    destruct (hgt_files st3) as [|h3 hs3] eqn:E5.
    + split.
      * intros Hin. exfalso.
        destruct (frame_hgt _ _ _ _ _
                    (respects_forced_download w b (logger WarnNoTilesAfterRetry st3).1))
          as (hs & E & Hall).
        change ((logger WarnNoTilesAfterRetry ;; forced_download w b) st3)
          with (forced_download w b (logger WarnNoTilesAfterRetry st3).1) in Hin.
        rewrite E in Hin. simpl in Hin. rewrite E5 in Hin. simpl in Hin.
        pose proof (proj1 (Forall_forall _ _) Hall _ Hin) as Ec.
        apply hgt_path_inj in Ec. apply Hout. rewrite <- Ec.
        apply code_force_planned.
      * intros [Hin _]. specialize (A3 Hin). by inversion A3.
    + cbn [fst]. rewrite E5. split.
      * intros Hin. split; [| done].
        destruct (L3 Hin) as [Hn | Hf]; [by inversion Hn | done].
      * intros [Hin _]. by apply A3.
  - cbn [fst]. rewrite E4. cbn [fst]. split.
    + intros Hin. rewrite E4 in Hin. by apply N2 in Hin.
    + by intros [_ ?].
Qed.

(** No raster of the stage has the name of a grid file. *)
Lemma hgt_not_raster (code : string) : ~ raster_file (hgt_path code).
Proof.
  unfold raster_file, hgt_path. intros H.
  apply elem_of_cons in H as [E | H];
    [by apply (append_last_ne code "" ".hg" "srtm_dem.ti" "t" "f") in E |].
  apply elem_of_cons in H as [E | H];
    [by apply (append_last_ne code "" ".hg" "srtm_mosaic_tmp.ti" "t" "f") in E |].
  apply elem_of_cons in H as [E | H];
    [by apply (append_last_ne code "" ".hg" "srtm_dem_32719.ti" "t" "f") in E |].
  apply elem_of_cons in H as [E | H];
    [by apply (append_last_ne code "" ".hg" "copernicus_dem.ti" "t" "f") in E |].
  apply elem_of_cons in H as [E | H];
    [by apply (append_last_ne code "" ".hg" "copernicus_dem_32719.ti" "t" "f") in E |].
  by apply elem_of_nil in H.
Qed.

Lemma respects_copernicus_fallback_own (boundary : GeoDataFrame) :
  respects raster_file (eq (StacSearch (bbox_buf (total_bounds boundary)))) nothing
    (copernicus_fallback w boundary).
Proof.
  assert (raster_file "copernicus_dem.tif") as R1 by (do 3 right; by left).
  assert (raster_file "copernicus_dem_32719.tif") as R2 by (do 4 right; by left).
  unfold copernicus_fallback; cbv zeta.
  apply respects_catch; [| respects_auto].
  apply respects_bind; [by apply respects_call | intros items].
  destruct items as [|item rest]; [respects_auto |].
  apply respects_bind; [apply respects_lift | intros clipped].
  apply respects_bind; [by apply respects_write_bytes | intros _].
  apply respects_bind; [apply respects_logger | intros _].
  apply respects_bind; [| intros _; apply respects_ret].
  apply respects_catch; [| apply respects_ret].
  eapply respects_weaken; [| | | apply respects_reproject_copernicus]; try done.
  by intros ? <-.
Qed.

(** The whole of [download_srtm_tiles] leaves a tile that was on disk
    alone. *)
Lemma download_srtm_tiles_untouched (code : string) (d : bytes) (st : St) :
  files st !! hgt_path code = Some d ->
  untouched code d (calls st) (download_srtm_tiles w st).1.
Proof.
  intros Hd.
  assert (untouched code d (calls st) st) as H0.
  { split; [done |]. exists []. split; [by rewrite app_nil_r | by inversion 1]. }
  rewrite download_srtm_tiles_unfold.
  destruct (_load_boundary_for_dem w st) as [boundary|]; [| exact H0].
  destruct (gdf_empty boundary); [exact H0 |].
  pose proof (proj1 (acquire_untouched w (total_bounds boundary) code d st Hd)) as H1.
  destruct (total_run _ st (total_acquire_tiles w (total_bounds boundary)))
    as (st1 & [] & E1).
  rewrite (bind_ok _ _ _ _ _ E1). rewrite E1 in H1. cbn [fst] in H1.
  unfold bind at 1, get_st.
  destruct (hgt_files st1).
  - eapply frame_untouched;
      [| | apply (respects_copernicus_fallback_own boundary) | exact H1].
    + apply hgt_not_raster.
    + by intros c <- [url ?].
  - eapply frame_untouched;
      [| | apply (respects_mosaic_and_clip_files w boundary) | exact H1].
    + apply hgt_not_raster.
    + by intros c [].
Qed.

End Reuse.

(** C10, as the code has it: a tile whose [.hgt] file is in the output
    directory when the fetching begins is not requested: in either loop
    over tile codes, in the three attempts together, and in the whole
    of [download_srtm_tiles], its file keeps its content and no call is
    made for the tile.  A loop that names the tile puts the file on
    [hgt_files], the list the mosaic is made of, where a downloaded
    file is put too.  Over the three attempts the file of a tile of the
    corner plan is always on the list; the file of any other tile is on
    the list exactly when the tile is in the full range and the first
    loop left the list empty, so that the second loop ran. *)
Theorem existing_tile_reused (w : World) (b : BBox) (code : string) (d : bytes) (st : St) :
  files st !! hgt_path code = Some d ->
  (forall (p : Pass) (cs : list string),
      untouched code d (calls st) (fetch_tiles w p cs st).1 /\
      (code ∈ cs -> hgt_path code ∈ hgt_files (fetch_tiles w p cs st).1)) /\
  untouched code d (calls st) (acquire_tiles w b st).1 /\
  (code ∈ codes b -> hgt_path code ∈ hgt_files (acquire_tiles w b st).1) /\
  (code ∉ codes b ->
   (hgt_path code ∈ hgt_files (acquire_tiles w b st).1 <->
    code ∈ full_codes b /\
    hgt_files (fetch_tiles w First (codes b) (at_first_pass b st)).1 = [])) /\
  untouched code d (calls st) (download_srtm_tiles w st).1.
Proof.
  intros Hd.
  assert (untouched code d (calls st) st) as H0.
  { split; [done |]. exists []. split; [by rewrite app_nil_r | by inversion 1]. }
  split; [| split; [| split; [| split]]].
  - intros p cs. split.
    + by apply untouched_fetch_tiles.
    + by apply (fetch_tiles_appends w code d (calls st)).
  - exact (proj1 (acquire_untouched w b code d st Hd)).
  - exact (proj2 (acquire_untouched w b code d st Hd)).
  - by apply (acquire_lists_unplanned w b code d).
  - by apply download_srtm_tiles_untouched.
Qed.

Lemma existing_tile_reused_witness :
  (forall (p : Pass) (cs : list string),
      untouched "S35W072" two_bytes []
        (fetch_tiles raw_only p cs (with_tile "Pichilemu" "S35W072" two_bytes)).1 /\
      ("S35W072" ∈ cs ->
       hgt_path "S35W072" ∈
         hgt_files (fetch_tiles raw_only p cs (with_tile "Pichilemu" "S35W072" two_bytes)).1)) /\
  untouched "S35W072" two_bytes []
    (acquire_tiles raw_only box_s35w072 (with_tile "Pichilemu" "S35W072" two_bytes)).1 /\
  ("S35W072" ∈ codes box_s35w072 ->
   hgt_path "S35W072" ∈
     hgt_files (acquire_tiles raw_only box_s35w072
                  (with_tile "Pichilemu" "S35W072" two_bytes)).1) /\
  ("S35W072" ∉ codes box_s35w072 ->
   (hgt_path "S35W072" ∈
      hgt_files (acquire_tiles raw_only box_s35w072
                   (with_tile "Pichilemu" "S35W072" two_bytes)).1 <->
    "S35W072" ∈ full_codes box_s35w072 /\
    hgt_files (fetch_tiles raw_only First (codes box_s35w072)
                 (at_first_pass box_s35w072
                    (with_tile "Pichilemu" "S35W072" two_bytes))).1 = [])) /\
  untouched "S35W072" two_bytes []
    (download_srtm_tiles raw_only (with_tile "Pichilemu" "S35W072" two_bytes)).1.
Proof.
  apply (existing_tile_reused raw_only box_s35w072 "S35W072" two_bytes
           (with_tile "Pichilemu" "S35W072" two_bytes)).
  by vm_compute.
Defined.

(** C10 fails as stated for a tile the corner plan does not name: with
    [S37W073.hgt] and [S35W073.hgt] in the directory and a box over
    three rows of tiles, the first loop lists [S37W073.hgt], the second
    loop does not run, and [S35W073.hgt], a tile of the full range of
    the box, is not on the list the mosaic is made of. *)
Lemma existing_tile_reused_counterexample :
  files two_tiles_on_disk !! hgt_path "S35W073" = Some two_bytes /\
  ("S35W073" ∈ full_codes box_three_rows) /\
  hgt_files (acquire_tiles empty_catalog box_three_rows two_tiles_on_disk).1
    = ["S37W073.hgt"] /\
  (hgt_path "S35W073" ∉
     hgt_files (acquire_tiles empty_catalog box_three_rows two_tiles_on_disk).1).
Proof.
  split; [by vm_compute |]. split; [apply (bool_decide_unpack _); by vm_compute |].
  split; [by vm_compute |]. apply (bool_decide_unpack _). by vm_compute.
Qed.
